(** * The milestone maintainer of mungegithub
    ([mungegithub/mungers/milestone-maintainer.go]): a shallow embedding.

    The munger decides, for every issue of the active milestone, which
    milestone state the issue is in, which state label and notification
    comment reflect that state, and whether the issue leaves the
    milestone.  Pure helpers are Rocq functions; the code that talks to
    the issue (labels, events, comments, the clock) runs in a small state
    monad over a [World] that also records every call made on the issue. *)

From Stdlib Require Import ZArith String List Ascii Lia Bool.
From stdpp Require Import base gmap strings list pretty.

Open Scope string_scope.
Open Scope Z_scope.

(** ** Go's [time] package, as far as the munger uses it *)

Module GoTime.

(** An instant is a count of nanoseconds; a [time.Duration] is an int64
    count of nanoseconds. *)
Definition Time := Z.
Definition Duration := Z.

Definition maxDuration : Duration := 2 ^ 63 - 1.
Definition minDuration : Duration := - 2 ^ 63.

Definition Hour : Duration := 3600 * 1000000000.

(** int64 arithmetic wraps around. *)
Definition wrap64 (z : Z) : Z := (z + 2 ^ 63) mod 2 ^ 64 - 2 ^ 63.

Definition neg (d : Duration) : Duration := wrap64 (- d).

(** [t.Add(d)]. *)
Definition Add (t : Time) (d : Duration) : Time := t + d.

(** [t.Sub(u)]: the difference, clipped to the range of a Duration. *)
Definition Sub (t u : Time) : Duration :=
  if t - u >? maxDuration then maxDuration
  else if t - u <? minDuration then minDuration
  else t - u.

End GoTime.

Import GoTime.

(** ** Strings *)

Definition nl : string := String (ascii_of_nat 10) EmptyString.
Definition dq : string := String (ascii_of_nat 34) EmptyString.
Definition bq : string := String (ascii_of_nat 96) EmptyString.

(** [len(s) > 0] and [len(s) == 0]. *)
Definition nonEmpty (s : string) : bool :=
  match s with EmptyString => false | String _ _ => true end.

(** [strings.Join]. *)
Fixpoint Join (elems : list string) (sep : string) : string :=
  match elems with
  | [] => EmptyString
  | [e] => e
  | e :: rest => e ++ sep ++ Join rest sep
  end.

(** [strings.TrimPrefix]. *)
Definition TrimPrefix (s pre : string) : string :=
  if String.prefix pre s
  then substring (String.length pre) (String.length s - String.length pre) s
  else s.

(** [sort.Strings]: ascending byte-wise order. *)
Fixpoint insertSorted (s : string) (l : list string) : list string :=
  match l with
  | [] => [s]
  | x :: rest => if String.leb s x then s :: l else x :: insertSorted s rest
  end.

Definition sortStrings (l : list string) : list string :=
  foldr insertSorted [] l.

(** ** Constants of the munger *)

Inductive milestoneState :=
| milestoneCurrent
| milestoneNeedsLabeling
| milestoneNeedsApproval
| milestoneNeedsAttention
| milestoneNeedsRemoval.

#[global] Instance milestoneState_eq_dec : EqDecision milestoneState.
Proof. solve_decision. Defined.

Record milestoneStateConfig := {
  label : string;
  title : string;
  warnOnInterval : bool;
  notifySIGs : bool
}.

Definition milestoneNotifierName := "MilestoneNotifier".

Definition milestoneModeDev := "dev".
Definition milestoneModeSlush := "slush".
Definition milestoneModeFreeze := "freeze".

Definition milestoneLabelsIncompleteLabel := "milestone/incomplete-labels".
Definition milestoneNeedsApprovalLabel := "milestone/needs-approval".
Definition milestoneNeedsAttentionLabel := "milestone/needs-attention".
Definition milestoneRemovedLabel := "milestone/removed".

Definition statusApprovedLabel := "status/approved-for-milestone".
Definition statusInProgressLabel := "status/in-progress".

Definition blockerLabel := "priority/critical-urgent".

Definition sigLabelPrefix := "sig/".

(** [fmt.Sprintf(sigMentionTemplate, sig)] for ["@kubernetes/sig-%s-bugs"]. *)
Definition sigMentionTemplate (sig : string) : string :=
  "@kubernetes/sig-" ++ sig ++ "-bugs".

Definition milestoneDetail : string :=
  "<details>" ++ nl ++
  "<summary>Help</summary>" ++ nl ++
  "<ul>" ++ nl ++
  " <li><a href=" ++ dq ++ "https://github.com/kubernetes/community/blob/master/contributors/devel/release/issues.md" ++ dq ++ ">Additional instructions</a></li>" ++ nl ++
  " <li><a href=" ++ dq ++ "https://github.com/kubernetes/test-infra/blob/master/commands.md" ++ dq ++ ">Commands for setting labels</a></li>" ++ nl ++
  "</ul>" ++ nl ++
  "</details>" ++ nl.

Definition milestoneStateConfigs (s : milestoneState) : milestoneStateConfig :=
  match s with
  | milestoneCurrent =>
      {| label := EmptyString; title := "Milestone Issue **Current**";
         warnOnInterval := false; notifySIGs := false |}
  | milestoneNeedsLabeling =>
      {| label := milestoneLabelsIncompleteLabel;
         title := "Milestone Labels **Incomplete**";
         warnOnInterval := true; notifySIGs := false |}
  | milestoneNeedsApproval =>
      {| label := milestoneNeedsApprovalLabel;
         title := "Milestone Issue **Needs Approval**";
         warnOnInterval := true; notifySIGs := true |}
  | milestoneNeedsAttention =>
      {| label := milestoneNeedsAttentionLabel;
         title := "Milestone Issue **Needs Attention**";
         warnOnInterval := true; notifySIGs := true |}
  | milestoneNeedsRemoval =>
      {| label := milestoneRemovedLabel; title := "Milestone **Removed**";
         warnOnInterval := false; notifySIGs := true |}
  end.

Definition milestoneStateLabels : list string :=
  [ milestoneLabelsIncompleteLabel; milestoneNeedsApprovalLabel;
    milestoneNeedsAttentionLabel; milestoneRemovedLabel ].

Definition kindMap : gmap string string :=
  <["kind/bug" := "Fixes a bug discovered during the current release."]>
  (<["kind/feature" := "New functionality."]>
  (<["kind/cleanup" := "Adding tests, refactoring, fixing old bugs."]> ∅)).

Definition priorityMap : gmap string string :=
  <[blockerLabel := "Never automatically move out of a release milestone; continually escalate to contributor and SIG through all available channels."]>
  (<["priority/important-soon" := "Escalate to the issue owners and SIG owner; move out of milestone after several unsuccessful escalation attempts."]>
  (<["priority/important-longterm" := "Escalate to the issue owners; move out of the milestone after 1 attempt."]> ∅)).

(** ** The label classifier *)

(** [quoteLabel] formats a label name as inline code. *)
Definition quoteLabel (label : string) : string :=
  if nonEmpty label then bq ++ label ++ bq else label.

(** [_, exists := labelMap[name]]. *)
Definition exists_in (labelMap : gmap string string) (name : string) : bool :=
  bool_decide (is_Some (labelMap !! name)).

(** [uniqueLabelName]: the loop, with [labelName] the variable it updates.
    The second component is the error ([None] is Go's [nil]). *)
Fixpoint uniqueLabelName_from (labelName : string) (labels : list string)
    (labelMap : gmap string string) : string * option string :=
  match labels with
  | [] => (labelName, None)
  | label :: rest =>
      if exists_in labelMap label then
        if negb (nonEmpty labelName)
        then uniqueLabelName_from label rest labelMap
        else (EmptyString, Some "Found more than one matching label")
      else uniqueLabelName_from labelName rest labelMap
  end.

Definition uniqueLabelName (labels : list string)
    (labelMap : gmap string string) : string * option string :=
  uniqueLabelName_from EmptyString labels labelMap.

(** [sigLabelNames]: the labels with the [sig/] prefix, in order. *)
Definition sigLabelNames (labels : list string) : list string :=
  filter (fun name => String.prefix sigLabelPrefix name = true) labels.

(** [formatLabelString].  The keys are sorted, so the order in which Go
    ranges over the map does not show.  Go panics on an empty map (the
    slice [labelList[0:-1]]); the two maps it is called on have three
    keys each. *)
Definition formatLabelString (labelMap : gmap string string) : string :=
  let labelList := sortStrings (quoteLabel <$> (map_to_list labelMap).*1) in
  match reverse labelList with
  | [] => EmptyString
  | [only] => only
  | lastLabel :: front => Join (reverse front) ", " ++ " or " ++ lastLabel
  end.

Definition kindError : string :=
  "_**kind**_: Must specify exactly one of " ++ formatLabelString kindMap ++ ".".

Definition priorityError : string :=
  "_**priority**_: Must specify exactly one of " ++ formatLabelString priorityMap ++ ".".

Definition sigError : string :=
  "_**sig owner**_: Must specify at least one label prefixed with " ++ bq ++ sigLabelPrefix ++ bq ++ ".".

(** [p != nil], for a pointer, an error or the result of a lookup. *)
Definition isSome {A : Type} (p : option A) : bool :=
  match p with Some _ => true | None => false end.

(** [checkLabels] returns [(kindLabel, priorityLabel, sigLabels, labelErrors)]. *)
Definition checkLabels (labels : list string)
    : string * string * list string * list string :=
  let labelErrors : list string := [] in
  let '(kindLabel, err) := uniqueLabelName labels kindMap in
  let labelErrors :=
    if isSome err || negb (nonEmpty kindLabel)
    then (labelErrors ++ [kindError])%list else labelErrors in
  let '(priorityLabel, err) := uniqueLabelName labels priorityMap in
  let labelErrors :=
    if isSome err || negb (nonEmpty priorityLabel)
    then (labelErrors ++ [priorityError])%list else labelErrors in
  let sigLabels := sigLabelNames labels in
  let labelErrors :=
    if (length sigLabels =? 0)%nat
    then (labelErrors ++ [sigError])%list else labelErrors in
  (kindLabel, priorityLabel, sigLabels, labelErrors).

(** The labels of the issue that are keys of the map, in order. *)
Definition matching (labelMap : gmap string string) (labels : list string) : list string :=
  filter (fun name => exists_in labelMap name = true) labels.

(** ** The issue, the world around it and the calls made on it *)

(** A label event of the issue's history ([githubapi.IssueEvent]); every
    field is a pointer in Go, [None] is [nil]. *)
Record IssueEvent := {
  ev_Event : option string;
  ev_LabelName : option string;
  ev_ActorLogin : option string;
  ev_CreatedAt : option Time
}.

(** A comment of the issue ([c.Comment]). *)
Record Comment := {
  cm_ID : nat;
  cm_Body : option string;
  cm_Author : option string;
  cm_CreatedAt : option Time
}.

(** Modelled from the spec: the notification type of the comment matchers,
    which is not part of this file: a source name, a title and a body, and
    two notifications are equal iff the three are. *)
Record Notification := {
  n_Name : string;
  n_Arguments : string;
  n_Context : string
}.

#[global] Instance Notification_eq_dec : EqDecision Notification.
Proof. solve_decision. Defined.

Definition Notification_Equal (o n : Notification) : bool := bool_decide (o = n).

(** What the munger reads from a [github.MungeObject].  A lookup that can
    fail is an [option]: [None] is Go's [ok == false]. *)
Record MungeObject := {
  obj_IsPR : bool;
  obj_State : option string;
  obj_Labels : list string;
  obj_ReleaseMilestone : string * bool;
  obj_Events : option (list IssueEvent);
  obj_Comments : option (list Comment);
  obj_LastModificationTime : option Time;
  obj_Mentions : string
}.

(** The calls the munger makes on the issue. *)
Inductive Call :=
| Call_HasLabel (name : string)
| Call_GetEvents
| Call_ListComments
| Call_findLastModificationTime
| Call_AddLabel (name : string)
| Call_RemoveLabel (name : string)
| Call_DeleteComment (id : nat)
| Call_Post (n : Notification)
| Call_ClearMilestone.

#[global] Instance Call_eq_dec : EqDecision Call.
Proof. solve_decision. Defined.

(** The world of one munge: the issue, the clock (its successive readings
    and how many were taken), which calls fail, and the trace of the calls
    made so far, each with whether it succeeded. *)
Record World := {
  obj : MungeObject;
  clock : nat -> Time;
  tick : nat;
  fails : Call -> bool;
  trace : list (Call * bool)
}.

Definition set_obj (o : MungeObject) (w : World) : World :=
  {| obj := o; clock := clock w; tick := tick w; fails := fails w; trace := trace w |}.

Definition set_tick (n : nat) (w : World) : World :=
  {| obj := obj w; clock := clock w; tick := n; fails := fails w; trace := trace w |}.

Definition set_trace (t : list (Call * bool)) (w : World) : World :=
  {| obj := obj w; clock := clock w; tick := tick w; fails := fails w; trace := t |}.

Definition set_Labels (l : list string) (o : MungeObject) : MungeObject :=
  {| obj_IsPR := obj_IsPR o; obj_State := obj_State o; obj_Labels := l;
     obj_ReleaseMilestone := obj_ReleaseMilestone o; obj_Events := obj_Events o;
     obj_Comments := obj_Comments o;
     obj_LastModificationTime := obj_LastModificationTime o;
     obj_Mentions := obj_Mentions o |}.

Definition set_Comments (cs : option (list Comment)) (o : MungeObject) : MungeObject :=
  {| obj_IsPR := obj_IsPR o; obj_State := obj_State o; obj_Labels := obj_Labels o;
     obj_ReleaseMilestone := obj_ReleaseMilestone o; obj_Events := obj_Events o;
     obj_Comments := cs;
     obj_LastModificationTime := obj_LastModificationTime o;
     obj_Mentions := obj_Mentions o |}.

Definition set_ReleaseMilestone (ms : string * bool) (o : MungeObject) : MungeObject :=
  {| obj_IsPR := obj_IsPR o; obj_State := obj_State o; obj_Labels := obj_Labels o;
     obj_ReleaseMilestone := ms; obj_Events := obj_Events o;
     obj_Comments := obj_Comments o;
     obj_LastModificationTime := obj_LastModificationTime o;
     obj_Mentions := obj_Mentions o |}.

(** The state monad of the munger. *)
Definition M (A : Type) : Type := World -> A * World.

Definition ret {A} (a : A) : M A := fun w => (a, w).

Definition bind {A B} (m : M A) (k : A -> M B) : M B :=
  fun w => let (a, w') := m w in k a w'.

Notation "'do' x <- m ; k" := (bind m (fun x => k))
  (at level 10, x name, m at level 100, k at level 200).
Notation "'do' ' pat <- m ; k" := (bind m (fun x => match x with pat => k end))
  (at level 10, pat pattern, m at level 100, k at level 200).

Definition getObj : M MungeObject := fun w => (obj w, w).

(** The world after one more call. *)
Definition log (e : Call * bool) (w : World) : World :=
  set_trace (trace w ++ [e])%list w.

Definition called (c : Call) (ok : bool) : M unit :=
  fun w => (tt, log (c, ok) w).

(** A mutating call: it fails when the world says so and otherwise
    applies its effect to the issue.  Returns Go's [err == nil]. *)
Definition mutate (c : Call) (effect : MungeObject -> MungeObject) : M bool :=
  fun w =>
    if fails w c then (false, log (c, false) w)
    else (true, set_obj (effect (obj w)) (log (c, true) w)).

(** [time.Now()] reads the clock; [time.Since(t)] is [time.Now().Sub(t)]. *)
Definition Now : M Time :=
  fun w => (clock w (tick w), set_tick (S (tick w)) w).

Definition Since (t : Time) : M Duration :=
  do n <- Now; ret (Sub n t).

(** *** Methods of the issue *)

(** Modelled from the spec: the reads of the issue tracker, which are
    methods of [github.MungeObject] and not part of this file.  The
    current labels are read from the issue; the event history, the
    comments and the time of the last modification are lookups that can
    fail. *)
Definition HasLabel (name : string) : M bool :=
  do o <- getObj;
  do _ <- called (Call_HasLabel name) true ;
  ret (bool_decide (name ∈ obj_Labels o)).

Definition GetEvents : M (option (list IssueEvent)) :=
  do o <- getObj;
  do _ <- called Call_GetEvents (isSome (obj_Events o)) ;
  ret (obj_Events o).

Definition ListComments : M (option (list Comment)) :=
  do o <- getObj;
  do _ <- called Call_ListComments (isSome (obj_Comments o)) ;
  ret (obj_Comments o).

Definition findLastModificationTime : M (option Time) :=
  do o <- getObj;
  do _ <- called Call_findLastModificationTime (isSome (obj_LastModificationTime o)) ;
  ret (obj_LastModificationTime o).

(** Modelled from the spec: the mutations of the issue tracker.  A label
    that is added joins the issue's labels, one that is removed leaves
    them, a deleted comment leaves the comments, and clearing the
    milestone leaves the issue without one. *)
Definition AddLabel (name : string) : M bool :=
  mutate (Call_AddLabel name) (fun o => set_Labels (obj_Labels o ++ [name])%list o).

Definition RemoveLabel (name : string) : M bool :=
  mutate (Call_RemoveLabel name)
    (fun o => set_Labels (filter (fun l => l ≠ name) (obj_Labels o)) o).

Definition DeleteComment (c : Comment) : M bool :=
  mutate (Call_DeleteComment (cm_ID c))
    (fun o => set_Comments
                (filter (fun c' => cm_ID c' ≠ cm_ID c) <$> obj_Comments o) o).

Definition Post (n : Notification) : M bool :=
  mutate (Call_Post n) (fun o => o).

Definition ClearMilestone : M bool :=
  mutate Call_ClearMilestone (set_ReleaseMilestone (EmptyString, false)).

(** ** The configuration of a change *)

(** A value of the template arguments ([map[string]interface{}]). *)
Inductive TemplateValue :=
| TString (s : string)
| TBool (b : bool)
| TStrings (l : list string).

(** The munger and its options. *)
Record MilestoneMaintainer := {
  botName : string;
  activeMilestone : string;
  mode : string;
  warningInterval : Duration;
  labelGracePeriod : Duration;
  approvalGracePeriod : Duration;
  slushUpdateInterval : Duration;
  freezeUpdateInterval : Duration;
  freezeDate : string
}.

(** The Go type [issueChangeConfig]. *)
Record IssueChangeConfig := {
  state : milestoneState;
  enabledSections : gset string;
  sigLabels : list string;
  templateArguments : gmap string TemplateValue
}.

(** The Go type [issueChange]. *)
Record IssueChange := {
  notification : Notification;
  change_label : string;
  commentInterval : option Duration;
  removeFromMilestone : bool
}.

Definition set_state (s : milestoneState) (icc : IssueChangeConfig) :=
  {| state := s; enabledSections := enabledSections icc;
     sigLabels := sigLabels icc; templateArguments := templateArguments icc |}.

Definition set_sigLabels (l : list string) (icc : IssueChangeConfig) :=
  {| state := state icc; enabledSections := enabledSections icc;
     sigLabels := l; templateArguments := templateArguments icc |}.

(** [icc.templateArguments[k] = v]. *)
Definition set_arg (k : string) (v : TemplateValue) (icc : IssueChangeConfig) :=
  {| state := state icc; enabledSections := enabledSections icc;
     sigLabels := sigLabels icc;
     templateArguments := <[k := v]> (templateArguments icc) |}.

Definition enableSection (sectionName : string) (icc : IssueChangeConfig) :=
  {| state := state icc; enabledSections := {[sectionName]} ∪ enabledSections icc;
     sigLabels := sigLabels icc; templateArguments := templateArguments icc |}.

(** *** The message template *)

(** How [text/template] reads an argument: [{{if .k}}] is true for a true
    boolean, a non-empty string or a non-empty slice, and false for a
    missing key; [{{.k}}] prints the value; [{{range .k}}] runs over a
    slice. *)
Definition tplIf (args : gmap string TemplateValue) (k : string) : bool :=
  match args !! k with
  | Some (TBool b) => b
  | Some (TString s) => nonEmpty s
  | Some (TStrings l) => negb (length l =? 0)%nat
  | None => false
  end.

Definition tplPrint (args : gmap string TemplateValue) (k : string) : string :=
  match args !! k with
  | Some (TString s) => s
  | Some (TBool b) => if b then "true" else "false"
  | Some (TStrings l) => "[" ++ Join l " " ++ "]"
  | None => "<no value>"
  end.

Definition tplRange (args : gmap string TemplateValue) (k : string) : list string :=
  match args !! k with
  | Some (TStrings l) => l
  | _ => []
  end.

(** [{{range $index, $labelError := .labelErrors -}} {{$labelError}} {{end}}]:
    one line for each label error. *)
Definition labelErrorLines (args : gmap string TemplateValue) : string :=
  foldr (fun labelError rest => labelError ++ nl ++ rest) EmptyString
        (tplRange args "labelErrors").

(** The closing [{{if .summarizeLabels}}] block of the template: the
    "Issue Labels" panel. *)
Definition summaryPanel (args : gmap string TemplateValue) : string :=
  if tplIf args "summarizeLabels" then
    "<details" ++ (if tplIf args "onlySummary" then " open" else EmptyString) ++ ">" ++ nl ++
    "<summary>Issue Labels</summary>" ++ nl ++
    nl ++
    "- " ++ Join (tplRange args "sigLabels") " " ++ ": Issue will be escalated to these SIGs if needed." ++ nl ++
    "- " ++ tplPrint args "priorityLabel" ++ ": " ++ tplPrint args "priorityDescription" ++ nl ++
    "- " ++ tplPrint args "kindLabel" ++ ": " ++ tplPrint args "kindDescription" ++ nl ++
    "</details>"
  else EmptyString.

(** The sections of the template before the panel.  The trim markers of
    the template remove the line breaks between two sections, so that a
    section that is on renders as a line break, its text and a line break. *)
Definition messageSections (args : gmap string TemplateValue) : string :=
  (if tplIf args "warnUnapproved" then
     nl ++ "**Action required**: This issue must have the " ++ tplPrint args "approvedLabel" ++ " label applied by a SIG maintainer." ++ tplPrint args "unapprovedRemovalWarning" ++ nl
   else EmptyString) ++
  (if tplIf args "removeUnapproved" then
     nl ++ "**Important**: This issue was missing the " ++ tplPrint args "approvedLabel" ++ " label for more than " ++ tplPrint args "approvalGracePeriod" ++ "." ++ nl
   else EmptyString) ++
  (if tplIf args "warnMissingInProgress" then
     nl ++ "**Action required**: During code " ++ tplPrint args "mode" ++ ", issues in the milestone should be in progress." ++ nl ++
     "If this issue is not being actively worked on, please remove it from the milestone." ++ nl ++
     "If it is being worked on, please add the " ++ tplPrint args "inProgressLabel" ++ " label so it can be tracked with other in-flight issues." ++ nl
   else EmptyString) ++
  (if tplIf args "warnUpdateRequired" then
     nl ++ "**Action Required**: This issue has not been updated since " ++ tplPrint args "lastUpdated" ++ ". Please provide an update." ++ nl
   else EmptyString) ++
  (if tplIf args "warnUpdateInterval" then
     nl ++ "**Note**: This issue is marked as " ++ tplPrint args "blockerLabel" ++ ", and must be updated every " ++ tplPrint args "updateInterval" ++ " during code " ++ tplPrint args "mode" ++ "." ++ nl ++
     nl ++
     "Example update:" ++ nl ++
     nl ++
     "```" ++ nl ++
     "ACK.  In progress" ++ nl ++
     "ETA: DD/MM/YYYY" ++ nl ++
     "Risks: Complicated fix required" ++ nl ++
     "```" ++ nl
   else EmptyString) ++
  (if tplIf args "warnNonBlockerRemoval" then
     nl ++ "**Note**: If this issue is not resolved or labeled as " ++ tplPrint args "blockerLabel" ++ " by " ++ tplPrint args "freezeDate" ++ " it will be moved out of the " ++ tplPrint args "milestone" ++ "." ++ nl
   else EmptyString) ++
  (if tplIf args "removeNonBlocker" then
     nl ++ "**Important**: Code freeze is in effect and only issues with " ++ tplPrint args "blockerLabel" ++ " may remain in the " ++ tplPrint args "milestone" ++ "." ++ nl
   else EmptyString) ++
  (if tplIf args "warnIncompleteLabels" then
     nl ++ "**Action required**: This issue requires label changes." ++ tplPrint args "incompleteLabelsRemovalWarning" ++ nl ++
     nl ++
     labelErrorLines args
   else EmptyString) ++
  (if tplIf args "removeIncompleteLabels" then
     nl ++ "**Important**: This issue was missing labels required for the " ++ tplPrint args "milestone" ++ " for more than " ++ tplPrint args "labelGracePeriod" ++ ":" ++ nl ++
     nl ++
     labelErrorLines args ++
     nl
   else EmptyString).

(** [milestoneMessageTemplate], as the function that executing the
    template computes from the arguments. *)
Definition milestoneMessageTemplate (args : gmap string TemplateValue) : string :=
  messageSections args ++ summaryPanel args.

(** [approvers.GenerateTemplateOrFail]: [None] would be a template that
    fails; this one reads map keys only and does not. *)
Definition GenerateTemplateOrFail
    (templ : gmap string TemplateValue -> string)
    (data : gmap string TemplateValue) : option string :=
  Some (templ data).

(** The test of the loop of [messageBody]:
    [icc.state != milestoneNeedsRemoval || strings.HasPrefix(sectionName, "remove")]. *)
Definition switchedOn (icc : IssueChangeConfig) (sectionName : string) : bool :=
  bool_decide (state icc ≠ milestoneNeedsRemoval) || String.prefix "remove" sectionName.

(** The loop of [messageBody]: a section that is enabled is switched on
    in the arguments, but in the removal state only a [remove...] section. *)
Definition switchSections (icc : IssueChangeConfig) : IssueChangeConfig :=
  foldl (fun icc sectionName =>
           if switchedOn icc sectionName
           then set_arg sectionName (TBool true) icc
           else icc)
        icc (sortStrings (elements (enabledSections icc))).

Definition messageBodyArguments (icc : IssueChangeConfig) : gmap string TemplateValue :=
  let icc := switchSections icc in
  let icc := set_arg "onlySummary"
               (TBool (bool_decide (state icc = milestoneCurrent))) icc in
  templateArguments icc.

Definition messageBody (icc : IssueChangeConfig) : option string :=
  GenerateTemplateOrFail milestoneMessageTemplate (messageBodyArguments icc).

(** ** The munger *)

(** Functions of the repository that this file calls and that are defined
    elsewhere: [durationToMaxDays] prints a duration, [formatJan2] is
    [Time.Format("Jan 2")], and the last three are [c.NewNotification],
    [c.ParseNotification] and [c.MungerNotificationName] of the comment
    matchers. *)
Class Package := {
  durationToMaxDays : Duration -> string;
  formatJan2 : Time -> string;
  NewNotification : string -> string -> string -> Notification;
  ParseNotification : option Comment -> option Notification;
  MungerNotificationName : string -> string -> Comment -> bool
}.

Section Munger.

Context {pkg : Package}.

Definition updateInterval (m : MilestoneMaintainer) : Duration :=
  if String.eqb (mode m) milestoneModeSlush then slushUpdateInterval m
  else if String.eqb (mode m) milestoneModeFreeze then freezeUpdateInterval m
  else 0.

(** *** Methods of the change configuration *)

Definition summarizeLabels (kindLabel priorityLabel : string)
    (sigLabels : list string) (icc : IssueChangeConfig) : IssueChangeConfig :=
  let icc := enableSection "summarizeLabels" icc in
  let icc := set_state milestoneCurrent icc in
  let icc := set_sigLabels sigLabels icc in
  let quotedSigLabels := quoteLabel <$> sigLabels in
  let icc := set_arg "kindLabel" (TString (quoteLabel kindLabel)) icc in
  let icc := set_arg "kindDescription"
               (TString (default EmptyString (kindMap !! kindLabel))) icc in
  let icc := set_arg "priorityLabel" (TString (quoteLabel priorityLabel)) icc in
  let icc := set_arg "priorityDescription"
               (TString (default EmptyString (priorityMap !! priorityLabel))) icc in
  set_arg "sigLabels" (TStrings quotedSigLabels) icc.

Definition warnUnapproved (removeAfter : option Duration) (milestone : string)
    (icc : IssueChangeConfig) : IssueChangeConfig :=
  let icc := enableSection "warnUnapproved" icc in
  let icc := set_state milestoneNeedsApproval icc in
  let warning :=
    match removeAfter with
    | Some d => " If the label is not applied within " ++ durationToMaxDays d
                ++ ", the issue will be moved out of the " ++ milestone ++ " milestone."
    | None => EmptyString
    end in
  set_arg "unapprovedRemovalWarning" (TString warning) icc.

Definition removeUnapproved (icc : IssueChangeConfig) : IssueChangeConfig :=
  set_state milestoneNeedsRemoval (enableSection "removeUnapproved" icc).

Definition removeNonBlocker (icc : IssueChangeConfig) : IssueChangeConfig :=
  set_state milestoneNeedsRemoval (enableSection "removeNonBlocker" icc).

Definition warnMissingInProgress (icc : IssueChangeConfig) : IssueChangeConfig :=
  set_state milestoneNeedsAttention (enableSection "warnMissingInProgress" icc).

Definition warnUpdateRequired (lastUpdated : Time)
    (icc : IssueChangeConfig) : IssueChangeConfig :=
  let icc := enableSection "warnUpdateRequired" icc in
  let icc := set_state milestoneNeedsAttention icc in
  set_arg "lastUpdated" (TString (formatJan2 lastUpdated)) icc.

Definition warnIncompleteLabels (removeAfter : option Duration)
    (labelErrors : list string) (milestone : string)
    (icc : IssueChangeConfig) : IssueChangeConfig :=
  let icc := enableSection "warnIncompleteLabels" icc in
  let icc := set_state milestoneNeedsLabeling icc in
  let warning :=
    match removeAfter with
    | Some d => " If the required changes are not made within " ++ durationToMaxDays d
                ++ ", the issue will be moved out of the " ++ milestone ++ " milestone."
    | None => EmptyString
    end in
  let icc := set_arg "incompleteLabelsRemovalWarning" (TString warning) icc in
  set_arg "labelErrors" (TStrings labelErrors) icc.

Definition removeIncompleteLabels (labelErrors : list string)
    (icc : IssueChangeConfig) : IssueChangeConfig :=
  let icc := enableSection "removeIncompleteLabels" icc in
  let icc := set_state milestoneNeedsRemoval icc in
  set_arg "labelErrors" (TStrings labelErrors) icc.

Definition sigMentions (icc : IssueChangeConfig) : string :=
  let mentions :=
    (fun label => sigMentionTemplate (TrimPrefix label sigLabelPrefix))
      <$> sigLabels icc in
  Join mentions " ".

(** *** Reading the issue *)

(** [ignoreObject]: only open issues of the active milestone are munged. *)
Definition ignoreObject (activeMilestone : string) : M bool :=
  do o <- getObj;
  if obj_IsPR o then ret true
  else if bool_decide (obj_State o = Some "closed") then ret true
  else
    let '(milestone, ok) := obj_ReleaseMilestone o in
    if negb ok || negb (nonEmpty milestone) then ret true
    else ret (negb (String.eqb milestone activeMilestone)).

(** [latestNotificationComment]: the last comment that is a notification
    of this munger; the boolean is Go's [ok]. *)
Definition latestNotificationComment (botName : string)
    : M (option Comment * bool) :=
  do issueComments <- ListComments;
  match issueComments with
  | None => ret (None, false)
  | Some comments =>
      let notificationMatcher := MungerNotificationName milestoneNotifierName botName in
      let notifications := filter (fun c => notificationMatcher c = true) comments in
      ret (last notifications, true)
  end.

(** [notificationIsCurrent].  Go's [&&] and [||] evaluate from the left
    and stop early, so the clock is read only when the age of the
    comment decides. *)
Definition notificationIsCurrent (notification : Notification)
    (comment : option Comment) (commentInterval : option Duration) : M bool :=
  let oldNotification := ParseNotification comment in
  let notificationsEqual :=
    match oldNotification with
    | Some old => Notification_Equal old notification
    | None => false
    end in
  if negb notificationsEqual then ret false
  else
    match commentInterval with
    | None => ret true
    | Some interval =>
        match comment with
        | None => ret false
        | Some cm =>
            match cm_CreatedAt cm with
            | None => ret false
            | Some createdAt =>
                do age <- Since createdAt;
                ret (age <? interval)
            end
        end
    end.

(** Modelled from the spec: the event matcher of [labelLastCreatedAt],
    which is not part of this file: the event adds a label, the label
    has the given name, and the actor is the bot. *)
Definition labelMatcher (botName labelName : string) (e : IssueEvent) : bool :=
  bool_decide (ev_Event e = Some "labeled")
  && bool_decide (ev_LabelName e = Some labelName)
  && bool_decide (ev_ActorLogin e = Some botName).

(** [labelLastCreatedAt]: when the bot last added the label; [None] when
    the events cannot be read or the bot never added it. *)
Definition labelLastCreatedAt (botName labelName : string) : M (option Time) :=
  do events <- GetEvents;
  match events with
  | None => ret None
  | Some events =>
      let labelEvents := filter (fun e => labelMatcher botName labelName e = true) events in
      match last labelEvents with
      | Some lastAdded => ret (ev_CreatedAt lastAdded)
      | None => ret None
      end
  end.

(** [gracePeriodStart]. *)
Definition gracePeriodStart (botName labelName : string) (defaultStart : Time)
    : M (option Time) :=
  do has <- HasLabel labelName;
  if negb has then ret (Some defaultStart)
  else labelLastCreatedAt botName labelName.

(** [gracePeriodRemaining]: the remaining time and Go's [ok]. *)
Definition gracePeriodRemaining (botName labelName : string)
    (gracePeriod : Duration) (defaultStart : Time) (isBlocker : bool)
    : M (option Duration * bool) :=
  if isBlocker then ret (None, true)
  else
    do tempStart <- gracePeriodStart botName labelName defaultStart;
    match tempStart with
    | None => ret (None, false)
    | Some start =>
        do since <- Since (Add start gracePeriod);
        let remaining := neg since in
        ret (Some remaining, true)
    end.

(** *** Resolving the state *)

(** The configuration that [issueChangeConfig] starts from. *)
Definition initialConfig (m : MilestoneMaintainer) : IssueChangeConfig :=
  {| state := milestoneCurrent;
     enabledSections := ∅;
     sigLabels := [];
     templateArguments :=
     <["approvalGracePeriod" := TString (durationToMaxDays (approvalGracePeriod m))]>
     (<["approvedLabel" := TString (quoteLabel statusApprovedLabel)]>
     (<["blockerLabel" := TString (quoteLabel blockerLabel)]>
     (<["freezeDate" := TString (freezeDate m)]>
     (<["inProgressLabel" := TString (quoteLabel statusInProgressLabel)]>
     (<["labelGracePeriod" := TString (durationToMaxDays (labelGracePeriod m))]>
     (<["milestone" := TString (activeMilestone m ++ " milestone")]>
     (<["mode" := TString (mode m)]>
     (<["updateInterval" := TString (durationToMaxDays (updateInterval m))]> ∅)))))))) |}.

(** [issueChangeConfig]: the configuration of the change that makes the
    issue reflect the milestone process; [None] is Go's [nil], no action. *)
Definition issueChangeConfig (m : MilestoneMaintainer) : M (option IssueChangeConfig) :=
  let updateInterval := updateInterval m in
  let icc := initialConfig m in
  do isBlocker <- HasLabel blockerLabel;
  do o <- getObj;
  let '(kind, priority, sigs, labelErrors) := checkLabels (obj_Labels o) in
  if (length labelErrors =? 0)%nat then
    let icc := summarizeLabels kind priority sigs icc in
    do approved <- HasLabel statusApprovedLabel;
    if negb approved then
      if isBlocker then
        ret (Some (warnUnapproved None (activeMilestone m) icc))
      else
        do now <- Now;
        do '(removeAfter, ok) <- gracePeriodRemaining (botName m) milestoneNeedsApprovalLabel
                               (approvalGracePeriod m) now false;
        if negb ok then ret None
        else
          match removeAfter with
          | None => ret (Some (warnUnapproved removeAfter (activeMilestone m) icc))
          | Some d =>
              if d >=? 0
              then ret (Some (warnUnapproved removeAfter (activeMilestone m) icc))
              else ret (Some (removeUnapproved icc))
          end
    else if String.eqb (mode m) milestoneModeDev then
      (* Status and updates are not required for dev mode *)
      ret (Some icc)
    else if String.eqb (mode m) milestoneModeFreeze && negb isBlocker then
      ret (Some (removeNonBlocker icc))
    else
      do inProgress <- HasLabel statusInProgressLabel;
      let icc := if negb inProgress then warnMissingInProgress icc else icc in
      if negb isBlocker then
        ret (Some (enableSection "warnNonBlockerRemoval" icc))
      else if updateInterval >? 0 then
        do lastUpdateTime <- findLastModificationTime;
        match lastUpdateTime with
        | None => ret None
        | Some lastUpdateTime =>
            do durationSinceUpdate <- Since lastUpdateTime;
            let icc :=
              if durationSinceUpdate >? updateInterval
              then warnUpdateRequired lastUpdateTime icc else icc in
            ret (Some (enableSection "warnUpdateInterval" icc))
        end
      else ret (Some icc)
  else
    do now <- Now;
    do '(removeAfter, ok) <- gracePeriodRemaining (botName m) milestoneLabelsIncompleteLabel
                           (labelGracePeriod m) now isBlocker;
    if negb ok then ret None
    else
      match removeAfter with
      | None => ret (Some (warnIncompleteLabels removeAfter labelErrors (activeMilestone m) icc))
      | Some d =>
          if d >=? 0
          then ret (Some (warnIncompleteLabels removeAfter labelErrors (activeMilestone m) icc))
          else ret (Some (removeIncompleteLabels labelErrors icc))
      end.

(** [issueChange]: the changes to make to the issue; [None] is no action. *)
Definition issueChange (m : MilestoneMaintainer) : M (option IssueChange) :=
  do icc <- issueChangeConfig m;
  match icc with
  | None => ret None
  | Some icc =>
      match messageBody icc with
      | None => ret None
      | Some messageBody =>
          let stateConfig := milestoneStateConfigs (state icc) in
          do o <- getObj;
          let mentions := obj_Mentions o in
          let mentions :=
            if notifySIGs stateConfig then
              let sigMentions := sigMentions icc in
              if nonEmpty sigMentions then mentions ++ " " ++ sigMentions
              else mentions
            else mentions in
          let message := mentions ++ nl ++ nl ++ messageBody ++ nl ++ milestoneDetail in
          let commentInterval :=
            if warnOnInterval stateConfig then Some (warningInterval m) else None in
          ret (Some {| notification := NewNotification milestoneNotifierName
                                          (title stateConfig) message;
                        change_label := label stateConfig;
                        removeFromMilestone :=
                          bool_decide (state icc = milestoneNeedsRemoval);
                        commentInterval := commentInterval |})
      end
  end.

(** *** Applying the change *)

(** The loop of [updateMilestoneStateLabel] over the state labels. *)
Fixpoint removeOtherStateLabels (labelName : string) (stateLabels : list string)
    : M bool :=
  match stateLabels with
  | [] => ret true
  | stateLabel :: rest =>
      if negb (String.eqb stateLabel labelName) then
        do has <- HasLabel stateLabel;
        if has then
          do ok <- RemoveLabel stateLabel;
          if negb ok then ret false
          else removeOtherStateLabels labelName rest
        else removeOtherStateLabels labelName rest
      else removeOtherStateLabels labelName rest
  end.

(** [updateMilestoneStateLabel] makes the given label the only state
    label of the issue. *)
Definition updateMilestoneStateLabel (labelName : string) : M bool :=
  if nonEmpty labelName then
    do has <- HasLabel labelName;
    if negb has then
      do ok <- AddLabel labelName;
      if negb ok then ret false
      else removeOtherStateLabels labelName milestoneStateLabels
    else removeOtherStateLabels labelName milestoneStateLabels
  else removeOtherStateLabels labelName milestoneStateLabels.

(** The end of [Munge]: the issue leaves the milestone if the change
    says so. *)
Definition clearIfRemoved (change : IssueChange) : M unit :=
  if removeFromMilestone change then do _ <- ClearMilestone ; ret tt else ret tt.

(** [Munge] makes the updates to the issue. *)
Definition Munge (m : MilestoneMaintainer) : M unit :=
  do ignore <- ignoreObject (activeMilestone m);
  if ignore then ret tt
  else
    do change <- issueChange m;
    match change with
    | None => ret tt
    | Some change =>
        do ok <- updateMilestoneStateLabel (change_label change);
        if negb ok then ret tt
        else
          do '(comment, ok) <- latestNotificationComment (botName m);
          if negb ok then ret tt
          else
            do current <- notificationIsCurrent (notification change) comment
                        (commentInterval change);
            if negb current then
              do deleted <- match comment with
                        | Some cm => DeleteComment cm
                        | None => ret true
                        end;
              if negb deleted then ret tt
              else
                do posted <- Post (notification change);
                if negb posted then ret tt
                else clearIfRemoved change
            else clearIfRemoved change
    end.

End Munger.

(** *** Runs *)

(** The result of a run from [w] and the world it ends in satisfy [Q]. *)
Definition wp {A : Type} (f : M A) (w : World) (Q : A -> World -> Prop) : Prop :=
  Q (f w).1 (f w).2.

(** The calls that a run from [w] makes, each with whether it succeeded. *)
Definition entries {A : Type} (f : M A) (w : World) : list (Call * bool) :=
  drop (length (trace w)) (trace (f w).2).

(** A duration that [Sub] does not clip and whose negation is an int64. *)
Definition fitsDuration (d : Z) : Prop := minDuration < d <= maxDuration.

(** The time elapsed since [start] when the clock of [w] is next read. *)
Definition elapsedSince (start : Time) (w : World) : Z := clock w (tick w) - start.

(** The calls that make up the approval check and the progress and update
    checks of the state resolution. *)
Definition approvalCheck (c : Call) : Prop := c = Call_HasLabel statusApprovedLabel.

Definition progressCheck (c : Call) : Prop :=
  c = Call_HasLabel statusInProgressLabel \/ c = Call_findLastModificationTime.

(** The kinds of calls: the reads of the state resolution, the calls that
    synchronise the state label, the calls that update the comment, and
    the mutations among them all. *)
Definition resolutionRead (c : Call) : bool :=
  match c with
  | Call_HasLabel _ | Call_GetEvents | Call_findLastModificationTime => true
  | _ => false
  end.

Definition labelSync (c : Call) : bool :=
  match c with
  | Call_HasLabel _ | Call_AddLabel _ | Call_RemoveLabel _ => true
  | _ => false
  end.

Definition commentUpdate (c : Call) : bool :=
  match c with
  | Call_ListComments | Call_DeleteComment _ | Call_Post _ => true
  | _ => false
  end.

Definition mutation (c : Call) : bool :=
  match c with
  | Call_AddLabel _ | Call_RemoveLabel _ | Call_DeleteComment _ | Call_Post _
  | Call_ClearMilestone => true
  | _ => false
  end.

(** Every call succeeded. *)
Definition allOk (es : list (Call * bool)) : Prop := Forall (fun e => e.2 = true) es.

(** Every call but the last one succeeded: a call that fails ends the run. *)
Fixpoint okButLast (es : list (Call * bool)) : Prop :=
  match es with
  | [] => True
  | e :: rest =>
      match rest with
      | [] => True
      | _ :: _ => e.2 = true /\ okButLast rest
      end
  end.

(** A run from [w] makes the calls [es], and [P] holds of its result, of
    the world it ends in and of [es]. *)
Definition emits {A : Type} (f : M A) (w : World)
    (P : A -> World -> list (Call * bool) -> Prop) : Prop :=
  exists es, trace (f w).2 = (trace w ++ es)%list /\ P (f w).1 (f w).2 es.

(** The calls of one cycle of [Munge], in order: the reads of the state
    resolution, the synchronisation of the state label, the update of the
    comment and, last, at most one call that clears the milestone, which
    is only made after every call before it succeeded. *)
Definition cycleShape (es : list (Call * bool)) : Prop :=
  exists reads labelOps commentOps clearOps : list (Call * bool),
    es = (reads ++ labelOps ++ commentOps ++ clearOps)%list
    /\ Forall (fun e => resolutionRead e.1 = true) reads
    /\ Forall (fun e => labelSync e.1 = true) labelOps
    /\ Forall (fun e => commentUpdate e.1 = true) commentOps
    /\ (clearOps = []
        \/ ((exists ok, clearOps = [(Call_ClearMilestone, ok)])
            /\ allOk (reads ++ labelOps ++ commentOps))).

(** The calls that delete or post a comment. *)
Definition commentMutation (c : Call) : bool :=
  match c with
  | Call_DeleteComment _ | Call_Post _ => true
  | _ => false
  end.

(** The age of the existing comment when the clock of [w] is next read;
    there is none without a comment or without its creation time. *)
Definition commentAge (comment : option Comment) (w : World) : option Duration :=
  match comment with
  | Some cm =>
      match cm_CreatedAt cm with
      | Some createdAt => Some (Sub (clock w (tick w)) createdAt)
      | None => None
      end
  | None => None
  end.

(** *** An issue to run the munger on *)

(** For the runs below, the functions that this file does not define are
    taken as simple as they can be: a duration is printed in whole days
    from 24 hours on and in whole hours below, every date as "Jan 2"; a
    notification keeps its name, title and body, its comment has the
    title on the first line and the body after it, and the comments of
    the munger are those of the bot. *)
Definition exampleDuration (d : Duration) : string :=
  if d >=? 24 * Hour then pretty (d / (24 * Hour)) ++ " days"
  else pretty (d / Hour) ++ " hours".

Definition exampleDate (t : Time) : string := "Jan 2".

Definition exampleNew (name arguments context : string) : Notification :=
  {| n_Name := name; n_Arguments := arguments; n_Context := context |}.

Fixpoint splitLine (s : string) : string * string :=
  match s with
  | EmptyString => (EmptyString, EmptyString)
  | String c rest =>
      if Ascii.eqb c (ascii_of_nat 10) then (EmptyString, rest)
      else let (line, after) := splitLine rest in (String c line, after)
  end.

Definition exampleParse (comment : option Comment) : option Notification :=
  match comment with
  | Some cm =>
      match cm_Body cm with
      | Some body =>
          let (line, after) := splitLine body in
          Some (exampleNew milestoneNotifierName line after)
      | None => None
      end
  | None => None
  end.

Definition exampleMatcher (name bot : string) (cm : Comment) : bool :=
  bool_decide (cm_Author cm = Some bot).

(** A munger with the default intervals, in the given mode. *)
Definition exampleMaintainer (mode : string) : MilestoneMaintainer :=
  {| botName := "k8s-bot"; activeMilestone := "v1.9"; mode := mode;
     warningInterval := 24 * Hour; labelGracePeriod := 72 * Hour;
     approvalGracePeriod := 168 * Hour; slushUpdateInterval := 72 * Hour;
     freezeUpdateInterval := 24 * Hour; freezeDate := "Nov 22" |}.

(** The event with which the bot added a label at a given time. *)
Definition labeledAt (labelName : string) (t : Time) : IssueEvent :=
  {| ev_Event := Some "labeled"; ev_LabelName := Some labelName;
     ev_ActorLogin := Some "k8s-bot"; ev_CreatedAt := Some t |}.

(** An open issue of milestone v1.9, last modified at hour 970. *)
Definition exampleIssue (labels : list string) (events : option (list IssueEvent))
    (comments : list Comment) : MungeObject :=
  {| obj_IsPR := false; obj_State := Some "open"; obj_Labels := labels;
     obj_ReleaseMilestone := ("v1.9", true); obj_Events := events;
     obj_Comments := Some comments;
     obj_LastModificationTime := Some (970 * Hour);
     obj_Mentions := "@alice" |}.

(** A world in which no call fails and the clock stands at the given hour. *)
Definition exampleWorld (o : MungeObject) (hour : Z) : World :=
  {| obj := o; clock := fun _ => hour * Hour; tick := 0;
     fails := fun _ => false; trace := [] |}.

(** The comment that the munger leaves on a current issue with the labels
    [kind/bug], [priority/important-soon] and [sig/api]. *)
Definition exampleCurrentComment (t : Time) : Comment :=
  {| cm_ID := 1;
     cm_Body := Some (
       "Milestone Issue **Current**" ++ nl ++
       "@alice" ++ nl ++
       nl ++
       "<details open>" ++ nl ++
       "<summary>Issue Labels</summary>" ++ nl ++
       nl ++
       "- `sig/api`: Issue will be escalated to these SIGs if needed." ++ nl ++
       "- `priority/important-soon`: Escalate to the issue owners and SIG owner; move out of milestone after several unsuccessful escalation attempts." ++ nl ++
       "- `kind/bug`: Fixes a bug discovered during the current release." ++ nl ++
       "</details>" ++ nl ++
       milestoneDetail);
     cm_Author := Some "k8s-bot";
     cm_CreatedAt := Some t |}.

Definition examplePackage : Package :=
  {| durationToMaxDays := exampleDuration;
     formatJan2 := exampleDate;
     NewNotification := exampleNew;
     ParseNotification := exampleParse;
     MungerNotificationName := exampleMatcher |}.

(** The example issue in the situations that the properties speak of,
    with the clock at hour 1000. *)

(** Only a kind label: the labels are incomplete. *)
Definition exampleIncomplete : World :=
  exampleWorld (exampleIssue ["kind/bug"] (Some []) []) 1000.

(** Incomplete labels, flagged by the bot ten hours ago. *)
Definition exampleFlagged : World :=
  exampleWorld
    (exampleIssue ["kind/bug"; milestoneLabelsIncompleteLabel]
       (Some [labeledAt milestoneLabelsIncompleteLabel (990 * Hour)]) [])
    1000.

(** Incomplete labels and the state label, but the events cannot be read. *)
Definition exampleNoHistory : World :=
  exampleWorld (exampleIssue ["kind/bug"; milestoneLabelsIncompleteLabel] None []) 1000.

(** Incomplete labels and the state label, which no event of the bot added. *)
Definition exampleNoEvent : World :=
  exampleWorld
    (exampleIssue ["kind/bug"; milestoneLabelsIncompleteLabel]
       (Some [labeledAt milestoneNeedsApprovalLabel (990 * Hour)]) [])
    1000.

(** Valid labels without the approved label, flagged one hour ago. *)
Definition exampleUnapproved : World :=
  exampleWorld
    (exampleIssue ["kind/bug"; "priority/important-soon"; "sig/api";
                   milestoneNeedsApprovalLabel]
       (Some [labeledAt milestoneNeedsApprovalLabel (999 * Hour)]) [])
    1000.

(** Valid labels, approved and in progress, no blocker. *)
Definition exampleApproved : World :=
  exampleWorld
    (exampleIssue ["kind/bug"; "priority/important-soon"; "sig/api";
                   statusApprovedLabel; statusInProgressLabel]
       (Some []) [])
    1000.

(** The same with the comment that the munger left one hour ago. *)
Definition exampleNotified : World :=
  exampleWorld
    (exampleIssue ["kind/bug"; "priority/important-soon"; "sig/api";
                   statusApprovedLabel; statusInProgressLabel]
       (Some []) [exampleCurrentComment (999 * Hour)])
    1000.

(** A blocker: valid labels, approved and in progress, last modified 30
    hours ago. *)
Definition exampleBlocker : World :=
  exampleWorld
    (exampleIssue ["kind/bug"; blockerLabel; "sig/api";
                   statusApprovedLabel; statusInProgressLabel]
       (Some []) [])
    1000.

(** Whether a rendered body has the "Issue Labels" panel. *)
Definition hasSummaryPanel (body : string) : bool :=
  isSome (index 0 "<summary>Issue Labels</summary>" body).

(** ** The options of the munger and their validation *)

Definition milestoneOptActiveMilestone := "active-milestone".
Definition milestoneOptMode := "milestone-mode".
Definition milestoneOptWarningInterval := "milestone-warning-interval".
Definition milestoneOptLabelGracePeriod := "milestone-label-grace-period".
Definition milestoneOptApprovalGracePeriod := "milestone-approval-grace-period".
Definition milestoneOptSlushUpdateInterval := "milestone-slush-update-interval".
Definition milestoneOptFreezeUpdateInterval := "milestone-freeze-update-interval".
Definition milestoneOptFreezeDate := "milestone-freeze-date".

(** [milestoneModes], a [sets.String]. *)
Definition milestoneModes : gset string :=
  {[ milestoneModeDev; milestoneModeSlush; milestoneModeFreeze ]}.

(** [fmt.Sprintf("%v", milestoneModes.List())]: the sorted elements
    between brackets. *)
Definition milestoneModesList : string :=
  "[" ++ Join (sortStrings (elements milestoneModes)) " " ++ "]".

(** [durationGreaterThanZero]; [None] is Go's [nil] error. *)
Definition durationGreaterThanZero (name : string) (value : Duration) : option string :=
  if value <=? 0 then Some (name ++ " must be greater than zero") else None.

(** The Go type [milestoneArgValidator]. *)
Definition milestoneArgValidator : Type := string -> option string.

(** The validators that [NewMilestoneMaintainer] sets up.  In Go they are
    closures over the munger and read its options when they are called. *)
Definition validators (m : MilestoneMaintainer) : gmap string milestoneArgValidator :=
  <[milestoneOptActiveMilestone := fun name =>
      if negb (nonEmpty (activeMilestone m))
      then Some (name ++ " must be supplied") else None]>
  (<[milestoneOptMode := fun name =>
      if negb (bool_decide (mode m ∈ milestoneModes))
      then Some (name ++ " must be one of " ++ milestoneModesList) else None]>
  (<[milestoneOptWarningInterval := fun name =>
      durationGreaterThanZero name (warningInterval m)]>
  (<[milestoneOptLabelGracePeriod := fun name =>
      durationGreaterThanZero name (labelGracePeriod m)]>
  (<[milestoneOptApprovalGracePeriod := fun name =>
      durationGreaterThanZero name (approvalGracePeriod m)]>
  (<[milestoneOptSlushUpdateInterval := fun name =>
      durationGreaterThanZero name (slushUpdateInterval m)]>
  (<[milestoneOptFreezeUpdateInterval := fun name =>
      durationGreaterThanZero name (freezeUpdateInterval m)]>
  (<[milestoneOptFreezeDate := fun name =>
      if String.eqb (mode m) milestoneModeSlush && negb (nonEmpty (freezeDate m))
      then Some (name ++ " must be supplied when milestone-mode is 'slush'")
      else None]> ∅))))))).

(** [for name, validator := range m.validators], in the order [vs] in
    which Go happens to range over the map: the first error is returned.
    With [changed] the loop is that of the update callback of
    [RegisterOptions], which skips the options that did not change. *)
Fixpoint validate (changed : option (gset string))
    (vs : list (string * milestoneArgValidator)) : option string :=
  match vs with
  | [] => None
  | (name, validator) :: rest =>
      if match changed with
         | Some changed => bool_decide (name ∈ changed)
         | None => true
         end
      then match validator name with
           | Some err => Some err
           | None => validate changed rest
           end
      else validate changed rest
  end.

Definition set_botName (name : string) (m : MilestoneMaintainer) : MilestoneMaintainer :=
  {| botName := name; activeMilestone := activeMilestone m; mode := mode m;
     warningInterval := warningInterval m; labelGracePeriod := labelGracePeriod m;
     approvalGracePeriod := approvalGracePeriod m;
     slushUpdateInterval := slushUpdateInterval m;
     freezeUpdateInterval := freezeUpdateInterval m; freezeDate := freezeDate m |}.

(** [Initialize]: the error, and the munger afterwards.  [vs] is the
    order in which the validators are ranged over; [configBotName] is
    [config.BotName].  The features that Go also stores in the munger
    are not used in this file and are not part of the record. *)
Definition Initialize (vs : list (string * milestoneArgValidator))
    (configBotName : string) (m : MilestoneMaintainer)
    : option string * MilestoneMaintainer :=
  match validate None vs with
  | Some err => (Some err, m)
  | None => (None, set_botName configBotName m)
  end.

(** The update callback that [RegisterOptions] registers. *)
Definition updateCallback (vs : list (string * milestoneArgValidator))
    (changed : gset string) : option string :=
  validate (Some changed) vs.

(** The options pass the validators. *)
Definition validOptions (m : MilestoneMaintainer) : Prop :=
  activeMilestone m ≠ EmptyString
  /\ (mode m = milestoneModeDev \/ mode m = milestoneModeSlush
      \/ mode m = milestoneModeFreeze)
  /\ 0 < warningInterval m /\ 0 < labelGracePeriod m /\ 0 < approvalGracePeriod m
  /\ 0 < slushUpdateInterval m /\ 0 < freezeUpdateInterval m
  /\ (mode m = milestoneModeSlush -> freezeDate m ≠ EmptyString).

(** A label that the classifier looks at: a kind, a priority or a
    [sig/] label. *)
Definition classifies (name : string) : bool :=
  exists_in kindMap name || exists_in priorityMap name
  || String.prefix sigLabelPrefix name.

(** The calls that the synchronisation of the state label with
    [labelName] can make on an issue that had the labels [labels]. *)
Definition labelSyncCall (labelName : string) (labels : list string) (c : Call) : Prop :=
  match c with
  | Call_HasLabel name => name = labelName \/ name ∈ milestoneStateLabels
  | Call_AddLabel name =>
      name = labelName /\ labelName ≠ EmptyString /\ labelName ∉ labels
  | Call_RemoveLabel name =>
      name ∈ milestoneStateLabels /\ name ≠ labelName /\ name ∈ labels
  | _ => False
  end.

(** The issue has the state label [labelName], if it is one, and no
    other state label. *)
Definition stateLabelInSync (labelName : string) (labels : list string) : Prop :=
  (labelName = EmptyString \/ labelName ∈ labels)
  /\ Forall (fun stateLabel => stateLabel = labelName \/ stateLabel ∉ labels)
            milestoneStateLabels.

(** The calls of [Munge] after the comments were listed, when the world
    fails the calls that [fails] says: a comment that is not current is
    deleted, if there is one, and the new one posted; then the milestone
    is cleared if the change says so.  A call that fails is the last. *)
Definition commentAndMilestoneCalls (fails : Call -> bool) (change : IssueChange)
    (comment : option Comment) (current : bool) : list (Call * bool) :=
  let clear :=
    if removeFromMilestone change
    then [(Call_ClearMilestone, negb (fails Call_ClearMilestone))] else [] in
  let post :=
    if fails (Call_Post (notification change))
    then [(Call_Post (notification change), false)]
    else (Call_Post (notification change), true) :: clear in
  if current then clear
  else match comment with
       | Some cm =>
           if fails (Call_DeleteComment (cm_ID cm))
           then [(Call_DeleteComment (cm_ID cm), false)]
           else (Call_DeleteComment (cm_ID cm), true) :: post
       | None => post
       end.

(** The sections of [milestoneMessageTemplate]: the names that its
    [{{if .name}}] blocks test. *)
Definition messageSectionNames : list string :=
  [ "warnUnapproved"; "removeUnapproved"; "warnMissingInProgress";
    "warnUpdateRequired"; "warnUpdateInterval"; "warnNonBlockerRemoval";
    "removeNonBlocker"; "warnIncompleteLabels"; "removeIncompleteLabels";
    "summarizeLabels" ].

(** *** Options and issues to run the validation and the cycle on *)

(** Options without an active milestone and with an unknown mode. *)
Definition exampleInvalid : MilestoneMaintainer :=
  {| botName := EmptyString; activeMilestone := EmptyString; mode := "beta";
     warningInterval := 24 * Hour; labelGracePeriod := 72 * Hour;
     approvalGracePeriod := 168 * Hour; slushUpdateInterval := 72 * Hour;
     freezeUpdateInterval := 24 * Hour; freezeDate := EmptyString |}.

(** The default intervals in slush mode, without a freeze date. *)
Definition exampleSlushNoDate : MilestoneMaintainer :=
  {| botName := EmptyString; activeMilestone := "v1.9"; mode := milestoneModeSlush;
     warningInterval := 24 * Hour; labelGracePeriod := 72 * Hour;
     approvalGracePeriod := 168 * Hour; slushUpdateInterval := 72 * Hour;
     freezeUpdateInterval := 24 * Hour; freezeDate := EmptyString |}.

(** A closed issue of milestone v1.9. *)
Definition exampleClosed : World :=
  exampleWorld
    {| obj_IsPR := false; obj_State := Some "closed"; obj_Labels := ["kind/bug"];
       obj_ReleaseMilestone := ("v1.9", true); obj_Events := Some [];
       obj_Comments := Some []; obj_LastModificationTime := Some (970 * Hour);
       obj_Mentions := "@alice" |}
    1000.

(** The approved issue in a world that fails to add the label
    [milestone/removed]. *)
Definition exampleLabelFails : World :=
  {| obj := obj exampleApproved; clock := clock exampleApproved; tick := 0;
     fails := fun c => bool_decide (c = Call_AddLabel milestoneRemovedLabel);
     trace := [] |}.

(** * Properties *)

(** ** The label classifier *)

Lemma matching_nonEmpty (labelMap : gmap string string) (labels : list string) (k : string) :
  labelMap !! EmptyString = None -> k ∈ matching labelMap labels -> nonEmpty k = true.
Proof.
  intros Hempty Hk. apply list_elem_of_filter in Hk as [Hin _].
  destruct k; [|reflexivity].
  unfold exists_in in Hin. rewrite Hempty in Hin.
  rewrite bool_decide_eq_true in Hin. by destruct Hin.
Qed.

(** Once a label is held, any further match is an error. *)
Lemma uniqueLabelName_from_held (labelMap : gmap string string) (labels : list string)
    (held : string) :
  nonEmpty held = true ->
  uniqueLabelName_from held labels labelMap =
    match matching labelMap labels with
    | [] => (held, None)
    | _ :: _ => (EmptyString, Some "Found more than one matching label")
    end.
Proof.
  intros Hheld. unfold matching. induction labels as [|l rest IH]; [reflexivity|].
  cbn [uniqueLabelName_from]. destruct (exists_in labelMap l) eqn:Hl.
  - rewrite Hheld. cbn [negb]. by rewrite filter_cons_True.
  - rewrite filter_cons_False; [exact IH | by rewrite Hl].
Qed.

Lemma uniqueLabelName_matching (labelMap : gmap string string) (labels : list string) :
  labelMap !! EmptyString = None ->
  uniqueLabelName labels labelMap =
    match matching labelMap labels with
    | [] => (EmptyString, None)
    | [k] => (k, None)
    | _ :: _ :: _ => (EmptyString, Some "Found more than one matching label")
    end.
Proof.
  intros Hempty. unfold uniqueLabelName.
  induction labels as [|l rest IH]; [reflexivity|].
  cbn [uniqueLabelName_from]. destruct (exists_in labelMap l) eqn:Hl.
  - cbn [nonEmpty negb].
    assert (Hne : nonEmpty l = true).
    { apply (matching_nonEmpty labelMap [l]); [done|].
      unfold matching. rewrite filter_cons_True by done. set_solver. }
    rewrite (uniqueLabelName_from_held _ _ _ Hne).
    unfold matching. rewrite (filter_cons_True _ l rest) by done.
    by destruct (filter _ rest).
  - unfold matching. rewrite (filter_cons_False _ l rest); [exact IH | by rewrite Hl].
Qed.

(** What [checkLabels] returns, for any labels. *)
Lemma checkLabels_eq (labels : list string) :
  checkLabels labels =
    ( match matching kindMap labels with [k] => k | _ => EmptyString end,
      match matching priorityMap labels with [p] => p | _ => EmptyString end,
      sigLabelNames labels,
      (match matching kindMap labels with [_] => [] | _ => [kindError] end
       ++ match matching priorityMap labels with [_] => [] | _ => [priorityError] end
       ++ match sigLabelNames labels with [] => [sigError] | _ => [] end)%list ).
Proof.
  unfold checkLabels.
  rewrite (uniqueLabelName_matching kindMap) by reflexivity.
  rewrite (uniqueLabelName_matching priorityMap) by reflexivity.
  pose proof (matching_nonEmpty kindMap labels) as Hk.
  pose proof (matching_nonEmpty priorityMap labels) as Hp.
  destruct (matching kindMap labels) as [|k [|k' ks]];
    destruct (matching priorityMap labels) as [|p [|p' ps]];
    destruct (sigLabelNames labels) as [|s ss];
    cbn [isSome nonEmpty negb orb length Nat.eqb app];
    try rewrite (Hk k) by (reflexivity || set_solver);
    try rewrite (Hp p) by (reflexivity || set_solver);
    reflexivity.
Qed.

(** C2.  Classification.  With exactly one kind label [k], exactly one
    priority label [p] and at least one [sig/] label, [checkLabels]
    returns [k], [p], the [sig/] labels and no error.  In general the
    errors are, in this order: one kind error unless exactly one label is
    a kind label, one priority error unless exactly one label is a
    priority label, and one owner error if no label has the [sig/] prefix.
    A missing and a duplicated kind (priority) label give the same
    "Must specify exactly one of" message. *)
Theorem checkLabels_classification (labels : list string) :
  (forall k p : string,
      matching kindMap labels = [k] ->
      matching priorityMap labels = [p] ->
      sigLabelNames labels ≠ [] ->
      checkLabels labels = (k, p, sigLabelNames labels, []))
  /\ (checkLabels labels).2 =
       ((if bool_decide (length (matching kindMap labels) = 1%nat)
         then [] else [kindError])
        ++ (if bool_decide (length (matching priorityMap labels) = 1%nat)
            then [] else [priorityError])
        ++ (if bool_decide (length (sigLabelNames labels) = 0%nat)
            then [sigError] else []))%list
  /\ kindError =
       "_**kind**_: Must specify exactly one of `kind/bug`, `kind/cleanup` or `kind/feature`."
  /\ priorityError =
       "_**priority**_: Must specify exactly one of `priority/critical-urgent`, `priority/important-longterm` or `priority/important-soon`."
  /\ sigError =
       "_**sig owner**_: Must specify at least one label prefixed with `sig/`.".
Proof.
  split; [|split; [|by vm_compute]].
  - intros k p Hk Hp Hsig. rewrite checkLabels_eq, Hk, Hp.
    by destruct (sigLabelNames labels).
  - rewrite checkLabels_eq. cbn [snd].
    by destruct (matching kindMap labels) as [|k [|k' ks]];
      destruct (matching priorityMap labels) as [|p [|p' ps]];
      destruct (sigLabelNames labels) as [|s ss].
Qed.

(** ** Runs of the monad *)

Lemma wp_ret {A} (a : A) (w : World) (Q : A -> World -> Prop) :
  Q a w -> wp (ret a) w Q.
Proof. done. Qed.

Lemma wp_bind {A B} (m : M A) (k : A -> M B) (w : World) (Q : B -> World -> Prop) :
  wp m w (fun a w' => wp (k a) w' Q) -> wp (bind m k) w Q.
Proof. unfold wp, bind. by destruct (m w). Qed.

Lemma wp_HasLabel (name : string) (w : World) (Q : bool -> World -> Prop) :
  Q (bool_decide (name ∈ obj_Labels (obj w))) (log (Call_HasLabel name, true) w) ->
  wp (HasLabel name) w Q.
Proof. done. Qed.

Lemma wp_GetEvents (w : World) (Q : option (list IssueEvent) -> World -> Prop) :
  Q (obj_Events (obj w)) (log (Call_GetEvents, isSome (obj_Events (obj w))) w) ->
  wp GetEvents w Q.
Proof. done. Qed.

Lemma wp_Now (w : World) (Q : Time -> World -> Prop) :
  Q (clock w (tick w)) (set_tick (S (tick w)) w) -> wp Now w Q.
Proof. done. Qed.

Lemma wp_Since (t : Time) (w : World) (Q : Duration -> World -> Prop) :
  Q (Sub (clock w (tick w)) t) (set_tick (S (tick w)) w) -> wp (Since t) w Q.
Proof. done. Qed.

Lemma wp_getObj (w : World) (Q : MungeObject -> World -> Prop) :
  Q (obj w) w -> wp getObj w Q.
Proof. done. Qed.

Lemma wp_ListComments (w : World) (Q : option (list Comment) -> World -> Prop) :
  Q (obj_Comments (obj w)) (log (Call_ListComments, isSome (obj_Comments (obj w))) w) ->
  wp ListComments w Q.
Proof. done. Qed.

Lemma wp_findLastModificationTime (w : World) (Q : option Time -> World -> Prop) :
  Q (obj_LastModificationTime (obj w))
    (log (Call_findLastModificationTime, isSome (obj_LastModificationTime (obj w))) w) ->
  wp findLastModificationTime w Q.
Proof. done. Qed.

Lemma wp_conseq {A} (f : M A) (w : World) (P Q : A -> World -> Prop) :
  wp f w P -> (forall a w', P a w' -> Q a w') -> wp f w Q.
Proof. unfold wp. auto. Qed.

Lemma entries_intro {A} (f : M A) (w : World) (es : list (Call * bool)) :
  trace (f w).2 = (trace w ++ es)%list -> entries f w = es.
Proof. intros H. unfold entries. rewrite H. by rewrite drop_app_length. Qed.

(** One step of a run: the next call, or a case analysis on the test
    that decides how it goes on. *)
Ltac wp_simpl :=
  cbn [obj clock tick fails trace log set_trace set_tick set_obj negb andb orb fst snd];
  cbv beta iota.

Ltac wp_step :=
  wp_simpl;
  lazymatch goal with
  | |- wp (bind _ _) _ _ => apply wp_bind
  | |- wp (ret _) _ _ => apply wp_ret
  | |- wp (HasLabel _) _ _ => apply wp_HasLabel
  | |- wp GetEvents _ _ => apply wp_GetEvents
  | |- wp ListComments _ _ => apply wp_ListComments
  | |- wp findLastModificationTime _ _ => apply wp_findLastModificationTime
  | |- wp getObj _ _ => apply wp_getObj
  | |- wp Now _ _ => apply wp_Now
  | |- wp (Since _) _ _ => apply wp_Since
  | |- wp (if ?b then _ else _) _ _ => destruct b eqn:?
  | |- wp (match ?x with _ => _ end) _ _ => destruct x eqn:?
  end;
  wp_simpl.

(** ** The grace period *)

Lemma Sub_fits (t u : Time) : fitsDuration (t - u) -> Sub t u = t - u.
Proof. unfold fitsDuration, Sub, minDuration, maxDuration. intros H. repeat case_match; lia. Qed.

(** Nothing is clipped for a grace period and an elapsed time that are
    durations, the first positive (as the munger validates it) and the
    second not negative. *)
Lemma fitsDuration_validated (gracePeriod elapsed : Z) :
  0 < gracePeriod <= maxDuration -> 0 <= elapsed <= maxDuration ->
  fitsDuration (elapsed - gracePeriod).
Proof. unfold fitsDuration, minDuration, maxDuration. lia. Qed.

Lemma neg_fits (d : Duration) : fitsDuration d -> neg d = - d.
Proof.
  unfold fitsDuration, neg, wrap64, minDuration, maxDuration. intros H.
  rewrite Z.mod_small; lia.
Qed.

(** [gracePeriodStart] reads the labels and, when the label is set, the
    events; it leaves the issue and the clock as they are, and what it
    returns depends on the issue only. *)
Lemma gracePeriodStart_run (botName labelName : string) (defaultStart : Time) (w : World) :
  wp (gracePeriodStart botName labelName defaultStart) w (fun r w' =>
    obj w' = obj w /\ tick w' = tick w /\ clock w' = clock w /\ fails w' = fails w
    /\ (exists es, trace w' = (trace w ++ es)%list
          /\ Forall (fun e => e.1 = Call_HasLabel labelName \/ e.1 = Call_GetEvents) es
          /\ (r ≠ None -> Forall (fun e => e.2 = true) es))
    /\ r = if bool_decide (labelName ∈ obj_Labels (obj w))
           then match obj_Events (obj w) with
                | Some events =>
                    match last (filter (fun e => labelMatcher botName labelName e = true) events) with
                    | Some lastAdded => ev_CreatedAt lastAdded
                    | None => None
                    end
                | None => None
                end
           else Some defaultStart).
Proof.
  unfold gracePeriodStart. apply wp_bind, wp_HasLabel.
  destruct (bool_decide (labelName ∈ obj_Labels (obj w))); cbn [negb].
  - unfold labelLastCreatedAt. apply wp_bind, wp_GetEvents. cbn [obj log set_trace].
    destruct (obj_Events (obj w)) as [events|]; [destruct (last _) as [lastAdded|]|];
      apply wp_ret; (repeat split; try reflexivity);
      (eexists; split; [cbn [trace log set_trace]; by rewrite <- app_assoc|]);
      (split; [repeat constructor; cbn; auto|]);
      first [done | intros _; by repeat constructor].
  - apply wp_ret. repeat split; try reflexivity.
    eexists. split; [reflexivity|]. split; [|intros _]; repeat constructor; cbn; auto.
Qed.

Lemma gracePeriodRemaining_established (bot lbl : string) (gracePeriod : Duration)
    (defaultStart : Time) (w : World) (start : Time) :
  (gracePeriodStart bot lbl defaultStart w).1 = Some start ->
  (gracePeriodRemaining bot lbl gracePeriod defaultStart false w).1
    = (Some (neg (Sub (clock w (tick w)) (Add start gracePeriod))), true).
Proof.
  intros Hstart. unfold gracePeriodRemaining.
  pose proof (gracePeriodStart_run bot lbl defaultStart w) as Hrun.
  unfold wp in Hrun. unfold bind.
  destruct (gracePeriodStart bot lbl defaultStart w) as [r w'].
  cbn [fst snd] in *. subst r.
  destruct Hrun as (_ & Htick & Hclock & _).
  unfold Since, bind, Now, ret. cbn [fst]. by rewrite Htick, Hclock.
Qed.

(** C3.  Remaining grace.  An exempt (blocker) item gets no deadline
    whatever the clock says.  For any other item whose grace period start
    is established, the remaining grace is the grace period minus the time
    elapsed since the start; it decreases strictly as the elapsed time
    grows, is zero exactly when the elapsed time equals the grace period,
    and is negative exactly when the elapsed time exceeds it.  The
    durations are int64 counts of nanoseconds: the statement is for
    differences that [Sub] does not clip ([fitsDuration]), which
    [fitsDuration_validated] shows to be the case for every positive
    grace period and every elapsed time that is not negative. *)
Theorem gracePeriodRemaining_elapsed (bot lbl : string) (gracePeriod : Duration)
    (defaultStart : Time) :
  (forall w : World,
      gracePeriodRemaining bot lbl gracePeriod defaultStart true w = ((None, true), w))
  /\ (forall (w : World) (start : Time),
        (gracePeriodStart bot lbl defaultStart w).1 = Some start ->
        fitsDuration (elapsedSince start w - gracePeriod) ->
        (gracePeriodRemaining bot lbl gracePeriod defaultStart false w).1
          = (Some (gracePeriod - elapsedSince start w), true))
  /\ (forall (w1 w2 : World) (start : Time),
        (gracePeriodStart bot lbl defaultStart w1).1 = Some start ->
        (gracePeriodStart bot lbl defaultStart w2).1 = Some start ->
        fitsDuration (elapsedSince start w1 - gracePeriod) ->
        fitsDuration (elapsedSince start w2 - gracePeriod) ->
        exists r1 r2 : Duration,
          (gracePeriodRemaining bot lbl gracePeriod defaultStart false w1).1 = (Some r1, true)
          /\ (gracePeriodRemaining bot lbl gracePeriod defaultStart false w2).1 = (Some r2, true)
          /\ (elapsedSince start w1 < elapsedSince start w2 -> r2 < r1)
          /\ (r1 = 0 <-> elapsedSince start w1 = gracePeriod)
          /\ (r1 < 0 <-> gracePeriod < elapsedSince start w1)).
Proof.
  assert (Hformula : forall (w : World) (start : Time),
             (gracePeriodStart bot lbl defaultStart w).1 = Some start ->
             fitsDuration (elapsedSince start w - gracePeriod) ->
             (gracePeriodRemaining bot lbl gracePeriod defaultStart false w).1
               = (Some (gracePeriod - elapsedSince start w), true)).
  { intros w start Hstart Hfits.
    rewrite (gracePeriodRemaining_established _ _ _ _ _ _ Hstart).
    unfold elapsedSince, Add in *.
    replace (clock w (tick w) - start - gracePeriod)
      with (clock w (tick w) - (start + gracePeriod)) in Hfits by lia.
    rewrite (Sub_fits _ _ Hfits), (neg_fits _ Hfits). do 2 f_equal. lia. }
  split; [reflexivity|]. split; [exact Hformula|].
  intros w1 w2 start H1 H2 Hf1 Hf2.
  exists (gracePeriod - elapsedSince start w1), (gracePeriod - elapsedSince start w2).
  split; [by apply Hformula|]. split; [by apply Hformula|]. lia.
Qed.

Lemma gracePeriodStart_indeterminate (bot lbl : string) (d d' : Time) (w w' : World) :
  obj w' = obj w ->
  (gracePeriodStart bot lbl d w).1 = None ->
  (gracePeriodStart bot lbl d' w').1 = None.
Proof.
  intros Hobj.
  pose proof (gracePeriodStart_run bot lbl d w) as (_ & _ & _ & _ & _ & ->).
  pose proof (gracePeriodStart_run bot lbl d' w') as (_ & _ & _ & _ & _ & ->).
  rewrite Hobj. by destruct (bool_decide _).
Qed.

(** [gracePeriodRemaining] reads what [gracePeriodStart] reads and then
    the clock.  It is not [ok] exactly when the start is not established. *)
Lemma gracePeriodRemaining_run (bot lbl : string) (gracePeriod : Duration)
    (defaultStart : Time) (isBlocker : bool) (w : World) :
  wp (gracePeriodRemaining bot lbl gracePeriod defaultStart isBlocker) w (fun r w' =>
    obj w' = obj w /\ clock w' = clock w /\ fails w' = fails w
    /\ (exists es, trace w' = (trace w ++ es)%list
          /\ Forall (fun e => e.1 = Call_HasLabel lbl \/ e.1 = Call_GetEvents) es
          /\ (r.2 = true -> Forall (fun e => e.2 = true) es))
    /\ if isBlocker then r = (None, true)
       else match (gracePeriodStart bot lbl defaultStart w).1 with
            | Some start =>
                r = (Some (neg (Sub (clock w (tick w)) (Add start gracePeriod))), true)
            | None => r = (None, false)
            end).
Proof.
  unfold gracePeriodRemaining. destruct isBlocker.
  - apply wp_ret. repeat split; try reflexivity.
    exists []. by rewrite app_nil_r.
  - apply wp_bind.
    pose proof (gracePeriodStart_run bot lbl defaultStart w) as Hrun.
    unfold wp in *. destruct (gracePeriodStart bot lbl defaultStart w) as [r w1].
    cbn [fst snd] in *.
    destruct Hrun as (Hobj & Htick & Hclock & Hfails & (es & Htrace & Hes & Hok) & _).
    destruct r as [start|]; cbn.
    + rewrite Htick, Hclock. repeat split; try done.
      exists es. repeat split; try done. intros _. by apply Hok.
    + repeat split; try done. exists es. repeat split; done.
Qed.

(** ** State resolution *)

(** C6.  Freeze.  With valid labels, the approved label and without the
    blocker label, in freeze mode the state is [milestoneNeedsRemoval] and
    the "only blockers may remain" section is on.  The run consults the
    blocker and the approved label and nothing else: neither the
    in-progress label nor the last modification time. *)
Theorem freeze_removes_non_blocker {pkg : Package} (m : MilestoneMaintainer) (w : World) :
  (checkLabels (obj_Labels (obj w))).2 = [] ->
  statusApprovedLabel ∈ obj_Labels (obj w) ->
  blockerLabel ∉ obj_Labels (obj w) ->
  mode m = milestoneModeFreeze ->
  exists icc : IssueChangeConfig,
    (issueChangeConfig m w).1 = Some icc
    /\ state icc = milestoneNeedsRemoval
    /\ "removeNonBlocker" ∈ enabledSections icc
    /\ entries (issueChangeConfig m) w =
         [(Call_HasLabel blockerLabel, true); (Call_HasLabel statusApprovedLabel, true)].
Proof.
  intros Herrs Happroved Hblocker Hmode.
  cut (wp (issueChangeConfig m) w (fun r w' =>
         exists icc, r = Some icc /\ state icc = milestoneNeedsRemoval
           /\ "removeNonBlocker" ∈ enabledSections icc
           /\ trace w' = (trace w ++ [(Call_HasLabel blockerLabel, true);
                                       (Call_HasLabel statusApprovedLabel, true)])%list)).
  { unfold wp. intros (icc & Hr & Hstate & Hsec & Htrace).
    exists icc. repeat split; try done. by apply entries_intro. }
  unfold issueChangeConfig.
  rewrite <- (bool_decide_eq_true _) in Happroved.
  rewrite <- (bool_decide_eq_false _) in Hblocker.
  do 4 wp_step.
  destruct (checkLabels (obj_Labels (obj w))) as [[[kind priority] sigs] errs].
  cbn [snd] in Herrs. subst errs. cbn [length Nat.eqb].
  do 2 wp_step. rewrite Happroved, Hblocker, Hmode. cbn.
  wp_step. eexists. split; [reflexivity|]. split; [reflexivity|].
  split; [set_solver|]. cbn [trace log set_trace]. by rewrite <- app_assoc.
Qed.

(** What the grace calculator reads is not what the approval and the
    progress checks read. *)
Lemma grace_calls_not_checks (lbl : string) (es : list (Call * bool)) :
  lbl = milestoneLabelsIncompleteLabel \/ lbl = milestoneNeedsApprovalLabel ->
  Forall (fun e => e.1 = Call_HasLabel lbl \/ e.1 = Call_GetEvents) es ->
  Forall (fun e => e.1 ≠ Call_HasLabel statusApprovedLabel
                   /\ e.1 ≠ Call_HasLabel statusInProgressLabel
                   /\ e.1 ≠ Call_findLastModificationTime) es.
Proof.
  intros Hlbl Hes. eapply Forall_impl; [exact Hes|]. intros [c ok] Hc. cbn in *.
  destruct Hlbl as [-> | ->], Hc as [-> | ->]; by repeat split.
Qed.

(** The branch of [issueChangeConfig] for labels with errors. *)
Lemma issueChangeConfig_label_errors {pkg : Package} (m : MilestoneMaintainer) (w : World) :
  (checkLabels (obj_Labels (obj w))).2 ≠ [] ->
  wp (issueChangeConfig m) w (fun r w' =>
    (exists es, trace w' = (trace w ++ (Call_HasLabel blockerLabel, true) :: es)%list
       /\ Forall (fun e => e.1 = Call_HasLabel milestoneLabelsIncompleteLabel
                          \/ e.1 = Call_GetEvents) es)
    /\ match r with
       | Some icc =>
           (state icc = milestoneNeedsLabeling
            /\ ("warnIncompleteLabels" ∈ enabledSections icc)
            /\ (blockerLabel ∈ obj_Labels (obj w) ->
                templateArguments icc !! "incompleteLabelsRemovalWarning"
                  = Some (TString EmptyString)))
           \/ (state icc = milestoneNeedsRemoval
               /\ ("removeIncompleteLabels" ∈ enabledSections icc)
               /\ (blockerLabel ∉ obj_Labels (obj w)))
       | None =>
           (blockerLabel ∉ obj_Labels (obj w))
           /\ forall d, (gracePeriodStart (botName m) milestoneLabelsIncompleteLabel d w).1 = None
       end).
Proof.
  intros Herrs. unfold issueChangeConfig. do 4 wp_step.
  destruct (checkLabels (obj_Labels (obj w))) as [[[kind priority] sigs] errs].
  cbn [snd] in Herrs. destruct errs as [|labelError errs]; [done|]. cbn [length Nat.eqb].
  do 3 wp_step.
  eapply wp_conseq; [apply gracePeriodRemaining_run|].
  cbn [obj clock tick fails trace log set_trace set_tick set_obj].
  intros [removeAfter ok] w' (Hobj & _ & _ & (es & Htrace & Hes & _) & Hr).
  assert (Htr : forall w'' : World, trace w'' = trace w' ->
            exists es0, trace w'' = (trace w ++ (Call_HasLabel blockerLabel, true) :: es0)%list
              /\ Forall (fun e => e.1 = Call_HasLabel milestoneLabelsIncompleteLabel
                                 \/ e.1 = Call_GetEvents) es0).
  { intros w'' ->. exists es. split; [|done]. rewrite Htrace. by rewrite <- app_assoc. }
  destruct (bool_decide (blockerLabel ∈ obj_Labels (obj w))) eqn:Hblocker.
  - injection Hr as Hr1 Hr2; subst removeAfter ok. repeat wp_step. split; [by apply Htr|].
    left. split; [done|]. split; [set_solver|]. intros _. by vm_compute.
  - apply bool_decide_eq_false in Hblocker.
    match type of Hr with match ?s with _ => _ end => destruct s as [start|] eqn:Hstart end;
      injection Hr as Hr1 Hr2; subst removeAfter ok; repeat wp_step; (split; [by apply Htr|]).
    + left. split; [done|]. split; [set_solver|done].
    + right. split; [done|]. split; [set_solver|done].
    + split; [done|]. intros d.
      eapply gracePeriodStart_indeterminate; [|exact Hstart]. done.
Qed.

(** The branch of [issueChangeConfig] for valid labels without the
    approved label. *)
Lemma issueChangeConfig_unapproved {pkg : Package} (m : MilestoneMaintainer) (w : World) :
  (checkLabels (obj_Labels (obj w))).2 = [] ->
  statusApprovedLabel ∉ obj_Labels (obj w) ->
  wp (issueChangeConfig m) w (fun r w' =>
    (exists es, trace w' = (trace w ++ (Call_HasLabel blockerLabel, true)
                                    :: (Call_HasLabel statusApprovedLabel, true) :: es)%list
       /\ Forall (fun e => e.1 = Call_HasLabel milestoneNeedsApprovalLabel
                          \/ e.1 = Call_GetEvents) es)
    /\ match r with
       | Some icc =>
           (state icc = milestoneNeedsApproval
            /\ ("warnUnapproved" ∈ enabledSections icc)
            /\ (blockerLabel ∈ obj_Labels (obj w) ->
                templateArguments icc !! "unapprovedRemovalWarning"
                  = Some (TString EmptyString)))
           \/ (state icc = milestoneNeedsRemoval
               /\ ("removeUnapproved" ∈ enabledSections icc)
               /\ (blockerLabel ∉ obj_Labels (obj w)))
       | None =>
           (blockerLabel ∉ obj_Labels (obj w))
           /\ forall d, (gracePeriodStart (botName m) milestoneNeedsApprovalLabel d w).1 = None
       end).
Proof.
  intros Herrs Happroved. apply (bool_decide_eq_false_2 _) in Happroved.
  unfold issueChangeConfig. do 4 wp_step.
  destruct (checkLabels (obj_Labels (obj w))) as [[[kind priority] sigs] errs].
  cbn [snd] in Herrs. subst errs. cbn [length Nat.eqb].
  do 2 wp_step. rewrite Happroved. wp_simpl.
  destruct (bool_decide (blockerLabel ∈ obj_Labels (obj w))) eqn:Hblocker.
  - wp_step. split.
    + exists []. by rewrite <- app_assoc.
    + left. split; [done|]. split; [set_solver|]. intros _. by vm_compute.
  - apply bool_decide_eq_false in Hblocker. do 3 wp_step.
    eapply wp_conseq; [apply gracePeriodRemaining_run|]. wp_simpl.
    intros [removeAfter ok] w' (Hobj & _ & _ & (es & Htrace & Hes & _) & Hr).
    assert (Htr : forall w'' : World, trace w'' = trace w' ->
              exists es0, trace w'' = (trace w ++ (Call_HasLabel blockerLabel, true)
                                       :: (Call_HasLabel statusApprovedLabel, true) :: es0)%list
                /\ Forall (fun e => e.1 = Call_HasLabel milestoneNeedsApprovalLabel
                                   \/ e.1 = Call_GetEvents) es0).
    { intros w'' ->. exists es. split; [|done]. rewrite Htrace. by rewrite <- !app_assoc. }
    match type of Hr with match ?s with _ => _ end => destruct s as [start|] eqn:Hstart end;
      injection Hr as Hr1 Hr2; subst removeAfter ok; repeat wp_step; (split; [by apply Htr|]).
    + left. split; [done|]. split; [set_solver|done].
    + right. split; [done|]. split; [set_solver|done].
    + split; [done|]. intros d.
      eapply gracePeriodStart_indeterminate; [|exact Hstart]. done.
Qed.

(** C1.  Order of the checks.  When the classification has errors, the
    run consults neither the approved label nor the progress and update
    facts, and the state it resolves is [milestoneNeedsLabeling] or, once
    the label grace is over, [milestoneNeedsRemoval].  When the labels are
    valid and the approved label is missing, the run does not consult the
    progress and update facts, and the state is [milestoneNeedsApproval]
    or, once the approval grace is over, [milestoneNeedsRemoval].  In both
    cases a state is resolved unless the item is no blocker and the start
    of its grace period cannot be established. *)
Theorem resolution_order {pkg : Package} (m : MilestoneMaintainer) (w : World) :
  ((checkLabels (obj_Labels (obj w))).2 ≠ [] ->
     Forall (fun e => ~ approvalCheck e.1 /\ ~ progressCheck e.1)
            (entries (issueChangeConfig m) w)
     /\ match (issueChangeConfig m w).1 with
        | Some icc =>
            (state icc = milestoneNeedsLabeling
             /\ ("warnIncompleteLabels" ∈ enabledSections icc))
            \/ (state icc = milestoneNeedsRemoval
                /\ ("removeIncompleteLabels" ∈ enabledSections icc))
        | None =>
            (blockerLabel ∉ obj_Labels (obj w))
            /\ forall d, (gracePeriodStart (botName m) milestoneLabelsIncompleteLabel d w).1 = None
        end)
  /\ ((checkLabels (obj_Labels (obj w))).2 = [] ->
      statusApprovedLabel ∉ obj_Labels (obj w) ->
      Forall (fun e => ~ progressCheck e.1) (entries (issueChangeConfig m) w)
      /\ match (issueChangeConfig m w).1 with
         | Some icc =>
             (state icc = milestoneNeedsApproval
              /\ ("warnUnapproved" ∈ enabledSections icc))
             \/ (state icc = milestoneNeedsRemoval
                 /\ ("removeUnapproved" ∈ enabledSections icc))
         | None =>
             (blockerLabel ∉ obj_Labels (obj w))
             /\ forall d, (gracePeriodStart (botName m) milestoneNeedsApprovalLabel d w).1 = None
         end).
Proof.
  split.
  - intros Herrs.
    pose proof (issueChangeConfig_label_errors m w Herrs) as [(es & Htrace & Hes) Hr].
    split.
    + rewrite (entries_intro _ _ _ Htrace). constructor.
      * cbn. unfold approvalCheck, progressCheck. split; [done|]. by intros [?|?].
      * eapply Forall_impl; [exact (grace_calls_not_checks _ es (or_introl eq_refl) Hes)|].
        intros [c ok] (H1 & H2 & H3). unfold approvalCheck, progressCheck. cbn in *.
        split; [done|]. by intros [?|?].
    + destruct (issueChangeConfig m w).1 as [icc|]; [|exact Hr].
      destruct Hr as [(? & ? & _) | (? & ? & _)]; [by left | by right].
  - intros Herrs Happroved.
    pose proof (issueChangeConfig_unapproved m w Herrs Happroved) as [(es & Htrace & Hes) Hr].
    split.
    + rewrite (entries_intro _ _ _ Htrace). unfold progressCheck.
      constructor; [cbn; by intros [?|?]|]. constructor; [cbn; by intros [?|?]|].
      eapply Forall_impl; [exact (grace_calls_not_checks _ es (or_intror eq_refl) Hes)|].
      intros [c ok] (H1 & H2 & H3). cbn in *. by intros [?|?].
    + destruct (issueChangeConfig m w).1 as [icc|]; [|exact Hr].
      destruct Hr as [(? & ? & _) | (? & ? & _)]; [by left | by right].
Qed.

(** ** The message body *)

Lemma elem_of_insertSorted (s x : string) (l : list string) :
  x ∈ insertSorted s l <-> x = s \/ x ∈ l.
Proof.
  induction l as [|y l IH]; cbn [insertSorted]; [set_solver|].
  destruct (String.leb s y); [set_solver|].
  rewrite elem_of_cons, IH, elem_of_cons. tauto.
Qed.

Lemma elem_of_sortStrings (x : string) (l : list string) :
  x ∈ sortStrings l <-> x ∈ l.
Proof.
  unfold sortStrings. induction l as [|y l IH]; [done|].
  cbn [foldr]. rewrite elem_of_insertSorted, IH. set_solver.
Qed.

Lemma switch_fold (l : list string) (icc : IssueChangeConfig) :
  let icc' := foldl (fun icc sectionName =>
                       if switchedOn icc sectionName
                       then set_arg sectionName (TBool true) icc else icc) icc l in
  state icc' = state icc
  /\ forall k,
       templateArguments icc' !! k =
         if bool_decide (k ∈ l) && switchedOn icc k
         then Some (TBool true) else templateArguments icc !! k.
Proof.
  revert icc. induction l as [|s l IH]; intros icc; cbn [foldl].
  - split; [done|]. intros k. rewrite bool_decide_eq_false_2; [done|set_solver].
  - match goal with |- context [foldl _ ?i l] => destruct (IH i) as [Hstate Hlookup] end.
    cbv zeta.
    assert (Hst : state (if switchedOn icc s then set_arg s (TBool true) icc else icc)
                  = state icc) by (by destruct (switchedOn icc s)).
    split; [by rewrite Hstate|].
    intros k. rewrite Hlookup.
    assert (Hsw : switchedOn (if switchedOn icc s then set_arg s (TBool true) icc else icc) k
                  = switchedOn icc k) by (by destruct (switchedOn icc s)).
    rewrite Hsw.
    destruct (decide (k = s)) as [->|Hks].
    + rewrite (bool_decide_eq_true_2 (s ∈ s :: l)) by set_solver.
      destruct (bool_decide (s ∈ l)); cbn [andb]; destruct (switchedOn icc s);
        try done; cbn [set_arg templateArguments]; by rewrite lookup_insert_eq.
    + replace (bool_decide (k ∈ s :: l)) with (bool_decide (k ∈ l))
        by (apply bool_decide_ext; set_solver).
      destruct (bool_decide (k ∈ l) && _); [done|].
      destruct (switchedOn icc s); [|done].
      cbn [set_arg templateArguments]. by rewrite lookup_insert_ne.
Qed.

Lemma messageBodyArguments_lookup (icc : IssueChangeConfig) (k : string) :
  messageBodyArguments icc !! k =
    if bool_decide (k = "onlySummary")
    then Some (TBool (bool_decide (state icc = milestoneCurrent)))
    else if bool_decide (k ∈ enabledSections icc) && switchedOn icc k
         then Some (TBool true) else templateArguments icc !! k.
Proof.
  unfold messageBodyArguments, switchSections.
  destruct (switch_fold (sortStrings (elements (enabledSections icc))) icc) as [Hstate Hlookup].
  cbv zeta in Hstate, Hlookup. cbn [set_arg templateArguments]. rewrite Hstate.
  destruct (decide (k = "onlySummary")) as [->|Hk].
  - by rewrite lookup_insert_eq.
  - rewrite (bool_decide_eq_false_2 _ Hk).
    rewrite lookup_insert_ne by done. rewrite Hlookup.
    replace (bool_decide (k ∈ sortStrings (elements (enabledSections icc))))
      with (bool_decide (k ∈ enabledSections icc)); [done|].
    apply bool_decide_ext. by rewrite elem_of_sortStrings, elem_of_elements.
Qed.


(** ** Blockers *)

(** Unfolds the methods of the change configuration. *)
Ltac icc_simpl :=
  cbn [state enabledSections sigLabels templateArguments enableSection set_arg
       set_state set_sigLabels summarizeLabels warnUnapproved removeUnapproved
       removeNonBlocker warnMissingInProgress warnUpdateRequired
       warnIncompleteLabels removeIncompleteLabels negb].



(** ** The label summary *)

(** Every resolved configuration: the summary section is not an argument
    of its own, it is enabled in the states that valid labels lead to and
    is not enabled when the labels are incomplete. *)
Lemma issueChangeConfig_summary {pkg : Package} (m : MilestoneMaintainer) (w : World) :
  wp (issueChangeConfig m) w (fun r _ =>
    match r with
    | Some icc =>
        templateArguments icc !! "summarizeLabels" = None
        /\ match state icc with
           | milestoneNeedsLabeling => "summarizeLabels" ∉ enabledSections icc
           | milestoneNeedsRemoval => True
           | _ => "summarizeLabels" ∈ enabledSections icc
           end
    | None => True
    end).
Proof.
  unfold issueChangeConfig. do 4 wp_step.
  destruct (checkLabels (obj_Labels (obj w))) as [[[kind priority] sigs] errs].
  repeat first
    [ wp_step
    | eapply wp_conseq; [apply gracePeriodRemaining_run|]; intros [? ?] ? _ ];
    try done;
    repeat match goal with
      | |- context [if ?b then _ else _] => destruct b
      end;
    (split; [by vm_compute | icc_simpl; set_solver]).
Qed.

(** C9 (amended).  The label summary.  The rendered body is the sections
    of the message followed by the "Issue Labels" panel.  The panel is
    rendered open in the state [milestoneCurrent], collapsed in the states
    [milestoneNeedsApproval] and [milestoneNeedsAttention], and not at all
    in the states [milestoneNeedsLabeling] and [milestoneNeedsRemoval]. *)
Theorem summary_panel_by_state {pkg : Package} (m : MilestoneMaintainer) (w : World) (icc : IssueChangeConfig) :
  (issueChangeConfig m w).1 = Some icc ->
  messageBody icc =
    Some (messageSections (messageBodyArguments icc) ++ summaryPanel (messageBodyArguments icc))
  /\ match state icc with
     | milestoneCurrent =>
         exists rest, summaryPanel (messageBodyArguments icc) =
           "<details open>" ++ nl ++ "<summary>Issue Labels</summary>" ++ rest
     | milestoneNeedsApproval | milestoneNeedsAttention =>
         exists rest, summaryPanel (messageBodyArguments icc) =
           "<details>" ++ nl ++ "<summary>Issue Labels</summary>" ++ rest
     | milestoneNeedsLabeling | milestoneNeedsRemoval =>
         summaryPanel (messageBodyArguments icc) = EmptyString
     end.
Proof.
  intros Hr. split; [reflexivity|].
  pose proof (issueChangeConfig_summary m w) as Hsum. unfold wp in Hsum.
  rewrite Hr in Hsum. destruct Hsum as [Harg Hsection].
  unfold summaryPanel, tplIf. rewrite !messageBodyArguments_lookup.
  rewrite (bool_decide_eq_true_2 ("onlySummary" = "onlySummary")) by done.
  rewrite (bool_decide_eq_false_2 ("summarizeLabels" = "onlySummary")) by done.
  rewrite Harg. unfold switchedOn.
  destruct (state icc) eqn:Hstate.
  - rewrite (bool_decide_eq_true_2 _ Hsection). cbn. by eexists.
  - rewrite (bool_decide_eq_false_2 _ Hsection). done.
  - rewrite (bool_decide_eq_true_2 _ Hsection). cbn. by eexists.
  - rewrite (bool_decide_eq_true_2 _ Hsection). cbn. by eexists.
  - by destruct (bool_decide ("summarizeLabels" ∈ enabledSections icc)).
Qed.

(** ** No action without a start of the grace period *)

Lemma issueChangeConfig_indeterminate {pkg : Package} (m : MilestoneMaintainer) (w : World)
    (lbl : string) (d : Time) :
  blockerLabel ∉ obj_Labels (obj w) ->
  ((checkLabels (obj_Labels (obj w))).2 ≠ [] /\ lbl = milestoneLabelsIncompleteLabel)
  \/ ((checkLabels (obj_Labels (obj w))).2 = []
      /\ (statusApprovedLabel ∉ obj_Labels (obj w))
      /\ lbl = milestoneNeedsApprovalLabel) ->
  (gracePeriodStart (botName m) lbl d w).1 = None ->
  (issueChangeConfig m w).1 = None.
Proof.
  intros Hblocker Hbranch Hstart.
  apply (bool_decide_eq_false_2 _) in Hblocker.
  change (wp (issueChangeConfig m) w (fun r _ => r = None)).
  unfold issueChangeConfig. do 4 wp_step. rewrite Hblocker.
  destruct (checkLabels (obj_Labels (obj w))) as [[[kind priority] sigs] errs].
  cbn [snd] in Hbranch.
  destruct Hbranch as [[Herrs ->] | (-> & Happroved & ->)].
  - destruct errs as [|labelError errs]; [done|]. cbn [length Nat.eqb].
    do 3 wp_step. eapply wp_conseq; [apply gracePeriodRemaining_run|]. wp_simpl.
    intros [removeAfter ok] w' (_ & _ & _ & _ & Hr).
    match type of Hr with context [gracePeriodStart ?b ?l ?d' ?w'] =>
      rewrite (gracePeriodStart_indeterminate b l d d' w w' eq_refl Hstart) in Hr
    end.
    injection Hr as Hr1 Hr2; subst removeAfter ok. by repeat wp_step.
  - apply (bool_decide_eq_false_2 _) in Happroved. cbn [length Nat.eqb].
    do 2 wp_step. rewrite Happroved. do 3 wp_step.
    eapply wp_conseq; [apply gracePeriodRemaining_run|]. wp_simpl.
    intros [removeAfter ok] w' (_ & _ & _ & _ & Hr).
    match type of Hr with context [gracePeriodStart ?b ?l ?d' ?w'] =>
      rewrite (gracePeriodStart_indeterminate b l d d' w w' eq_refl Hstart) in Hr
    end.
    injection Hr as Hr1 Hr2; subst removeAfter ok. by repeat wp_step.
Qed.

(** ** The calls of a run *)

Lemma emits_ret {A} (a : A) (w : World) (P : A -> World -> list (Call * bool) -> Prop) :
  P a w [] -> emits (ret a) w P.
Proof. intros HP. exists []. split; [by rewrite app_nil_r | done]. Qed.

Lemma emits_bind {A B} (m : M A) (k : A -> M B) (w : World)
    (P : B -> World -> list (Call * bool) -> Prop) :
  emits m w (fun a w' es1 => emits (k a) w' (fun b w'' es2 => P b w'' (es1 ++ es2)%list)) ->
  emits (bind m k) w P.
Proof.
  unfold emits, bind. destruct (m w) as [a w']. cbn [fst snd].
  intros (es1 & H1 & es2 & H2 & HP). exists (es1 ++ es2)%list.
  split; [|done]. by rewrite H2, H1, app_assoc.
Qed.

Lemma emits_conseq {A} (f : M A) (w : World)
    (P Q : A -> World -> list (Call * bool) -> Prop) :
  emits f w P -> (forall a w' es, P a w' es -> Q a w' es) -> emits f w Q.
Proof. intros (es & Htrace & HP) HPQ. exists es. auto. Qed.

Lemma emits_HasLabel (name : string) (w : World)
    (P : bool -> World -> list (Call * bool) -> Prop) :
  P (bool_decide (name ∈ obj_Labels (obj w))) (log (Call_HasLabel name, true) w)
    [(Call_HasLabel name, true)] ->
  emits (HasLabel name) w P.
Proof. intros HP. by eexists. Qed.

Lemma emits_ListComments (w : World)
    (P : option (list Comment) -> World -> list (Call * bool) -> Prop) :
  P (obj_Comments (obj w)) (log (Call_ListComments, isSome (obj_Comments (obj w))) w)
    [(Call_ListComments, isSome (obj_Comments (obj w)))] ->
  emits ListComments w P.
Proof. intros HP. by eexists. Qed.

Lemma emits_mutate (c : Call) (effect : MungeObject -> MungeObject) (w : World)
    (P : bool -> World -> list (Call * bool) -> Prop) :
  (forall ok w', P ok w' [(c, ok)]) -> emits (mutate c effect) w P.
Proof.
  intros HP. exists [(c, negb (fails w c))]. unfold mutate.
  destruct (fails w c); cbn; split; done.
Qed.

Lemma okButLast_app (es1 es2 : list (Call * bool)) :
  allOk es1 -> okButLast es2 -> okButLast (es1 ++ es2).
Proof.
  intros H1 H2. induction H1 as [|e es1 He H1 IH]; [done|].
  cbn [app okButLast]. destruct (es1 ++ es2)%list eqn:Happ; [done|]. by split.
Qed.

Lemma emits_silent {A} (f : M A) (w : World)
    (P : A -> World -> list (Call * bool) -> Prop) :
  trace (f w).2 = trace w -> P (f w).1 (f w).2 [] -> emits f w P.
Proof. intros Hw HP. exists []. split; [by rewrite app_nil_r | done]. Qed.

Lemma emits_GetEvents (w : World)
    (P : option (list IssueEvent) -> World -> list (Call * bool) -> Prop) :
  P (obj_Events (obj w)) (log (Call_GetEvents, isSome (obj_Events (obj w))) w)
    [(Call_GetEvents, isSome (obj_Events (obj w)))] ->
  emits GetEvents w P.
Proof. intros HP. by eexists. Qed.

Lemma emits_findLastModificationTime (w : World)
    (P : option Time -> World -> list (Call * bool) -> Prop) :
  P (obj_LastModificationTime (obj w))
    (log (Call_findLastModificationTime, isSome (obj_LastModificationTime (obj w))) w)
    [(Call_findLastModificationTime, isSome (obj_LastModificationTime (obj w)))] ->
  emits findLastModificationTime w P.
Proof. intros HP. by eexists. Qed.

Lemma emits_getObj (w : World) (P : MungeObject -> World -> list (Call * bool) -> Prop) :
  P (obj w) w [] -> emits getObj w P.
Proof. intros HP. by apply emits_silent. Qed.

Lemma emits_Now (w : World) (P : Time -> World -> list (Call * bool) -> Prop) :
  P (clock w (tick w)) (set_tick (S (tick w)) w) [] -> emits Now w P.
Proof. intros HP. by apply emits_silent. Qed.

Lemma emits_Since (t : Time) (w : World) (P : Duration -> World -> list (Call * bool) -> Prop) :
  P (Sub (clock w (tick w)) t) (set_tick (S (tick w)) w) [] -> emits (Since t) w P.
Proof. intros HP. by apply emits_silent. Qed.

Ltac em_step :=
  wp_simpl;
  lazymatch goal with
  | |- emits (bind _ _) _ _ => apply emits_bind
  | |- emits (ret _) _ _ => apply emits_ret
  | |- emits (HasLabel _) _ _ => apply emits_HasLabel
  | |- emits GetEvents _ _ => apply emits_GetEvents
  | |- emits ListComments _ _ => apply emits_ListComments
  | |- emits findLastModificationTime _ _ => apply emits_findLastModificationTime
  | |- emits getObj _ _ => apply emits_getObj
  | |- emits Now _ _ => apply emits_Now
  | |- emits (Since _) _ _ => apply emits_Since
  | |- emits (if ?b then _ else _) _ _ => destruct b eqn:?
  | |- emits (match ?x with _ => _ end) _ _ => destruct x eqn:?
  end;
  wp_simpl.

(** What a run of the grace calculator shows to its caller: it reads
    only, leaves the issue as it is, and a read that fails is its last
    call and makes it not [ok]. *)
Lemma gracePeriodRemaining_emits (bot lbl : string) (gracePeriod : Duration)
    (defaultStart : Time) (isBlocker : bool) (w : World) :
  emits (gracePeriodRemaining bot lbl gracePeriod defaultStart isBlocker) w (fun r w' es =>
    obj w' = obj w /\ fails w' = fails w
    /\ Forall (fun e => resolutionRead e.1 = true) es
    /\ okButLast es
    /\ (r.2 = true -> allOk es)).
Proof.
  unfold gracePeriodRemaining, gracePeriodStart, labelLastCreatedAt.
  repeat em_step; cbn [app];
    (split; [reflexivity|]); (split; [reflexivity|]);
    (split; [by repeat constructor|]); (split; [by cbn|]);
    cbn [snd]; intros; try done; by repeat constructor.
Qed.

(** The state resolution reads only and leaves the issue as it is; a read
    that fails is its last call and leaves it without a result. *)
Lemma issueChangeConfig_emits {pkg : Package} (m : MilestoneMaintainer) (w : World) :
  emits (issueChangeConfig m) w (fun r w' es =>
    obj w' = obj w /\ fails w' = fails w
    /\ Forall (fun e => resolutionRead e.1 = true) es
    /\ okButLast es
    /\ (r ≠ None -> allOk es)).
Proof.
  unfold issueChangeConfig. do 4 em_step.
  destruct (checkLabels (obj_Labels (obj w))) as [[[kind priority] sigs] errs].
  repeat first
    [ em_step
    | eapply emits_conseq; [apply gracePeriodRemaining_emits|];
      intros [? ok] ? es (Hobj & Hfails & Hread & Hlast & Hok) ];
    cbn [app]; rewrite ?app_nil_r;
    try (destruct ok; [|discriminate]);
    (split; [done|]); (split; [done|]);
    (split; [by repeat (constructor; [done|])|]);
    (split; [first [ by cbn
                   | apply (okButLast_app [_]); [by repeat constructor | done]
                   | apply (okButLast_app [_; _]); [by repeat constructor | done] ]|]);
    intros Hsome;
    first [ done
          | repeat (constructor; [done|]); first [by constructor | by apply Hok] ].
Qed.

(** [issueChange] runs [issueChangeConfig] and reads nothing more; it has
    a result exactly when [issueChangeConfig] has one. *)
Lemma issueChange_config {pkg : Package} (m : MilestoneMaintainer) (w : World) :
  (issueChange m w).2 = (issueChangeConfig m w).2
  /\ match (issueChangeConfig m w).1 with
     | Some icc =>
         exists change, (issueChange m w).1 = Some change
           /\ change_label change = label (milestoneStateConfigs (state icc))
           /\ removeFromMilestone change = bool_decide (state icc = milestoneNeedsRemoval)
           /\ commentInterval change =
                (if warnOnInterval (milestoneStateConfigs (state icc))
                 then Some (warningInterval m) else None)
     | None => (issueChange m w).1 = None
     end.
Proof.
  unfold issueChange, bind. destruct (issueChangeConfig m w) as [[icc|] w']; cbn [fst snd].
  - unfold messageBody, GenerateTemplateOrFail, getObj, ret. cbn [fst snd].
    split; [done|]. by eexists.
  - done.
Qed.

Lemma issueChange_emits {pkg : Package} (m : MilestoneMaintainer) (w : World) :
  emits (issueChange m) w (fun r w' es =>
    obj w' = obj w /\ fails w' = fails w
    /\ Forall (fun e => resolutionRead e.1 = true) es
    /\ okButLast es
    /\ (r ≠ None -> allOk es)).
Proof.
  destruct (issueChangeConfig_emits m w) as (es & Htrace & Hobj & Hfails & Hread & Hlast & Hok).
  destruct (issueChange_config m w) as [Hw Hr].
  exists es. rewrite Hw. repeat split; try done.
  intros Hsome. apply Hok. intros Hnone. rewrite Hnone in Hr. done.
Qed.

(** The synchronisation of the state label makes label calls only; it
    stops at the first one that fails and then returns [false]. *)
Lemma removeOtherStateLabels_emits (labelName : string) (stateLabels : list string) (w : World) :
  emits (removeOtherStateLabels labelName stateLabels) w (fun ok _ es =>
    Forall (fun e => labelSync e.1 = true) es
    /\ okButLast es
    /\ (ok = true -> allOk es)).
Proof.
  revert w. induction stateLabels as [|stateLabel rest IH]; intros w;
    cbn [removeOtherStateLabels].
  - apply emits_ret. split; [by constructor|]. split; [done|]. intros _. by constructor.
  - repeat first
      [ em_step
      | unfold RemoveLabel; apply emits_mutate; intros ok w'
      | eapply emits_conseq; [apply IH|]; intros ok' w'' es (Hsync & Hlast & Hok) ];
      cbn [app]; rewrite ?app_nil_r; try done.
    + split; [by repeat constructor|]. split; [done|]. done.
    + destruct ok; [|done]. split; [by repeat (constructor; [done|])|].
      split; [apply (okButLast_app [_; _]); [by repeat constructor | done]|].
      intros Htrue. repeat (constructor; [done|]). by apply Hok.
    + split; [by constructor|].
      split; [apply (okButLast_app [_]); [by repeat constructor | done]|].
      intros Htrue. constructor; [done|]. by apply Hok.
Qed.

Lemma updateMilestoneStateLabel_emits (labelName : string) (w : World) :
  emits (updateMilestoneStateLabel labelName) w (fun ok _ es =>
    Forall (fun e => labelSync e.1 = true) es
    /\ okButLast es
    /\ (ok = true -> allOk es)).
Proof.
  unfold updateMilestoneStateLabel.
  repeat first
    [ em_step
    | unfold AddLabel; apply emits_mutate; intros ok w'
    | eapply emits_conseq; [apply removeOtherStateLabels_emits|];
      intros ok' w'' es (Hsync & Hlast & Hok) ];
    cbn [app]; rewrite ?app_nil_r; try done.
  - split; [by repeat constructor|]. split; [done|]. done.
  - destruct ok; [|done]. split; [by repeat (constructor; [done|])|].
    split; [apply (okButLast_app [_; _]); [by repeat constructor | done]|].
    intros Htrue. repeat (constructor; [done|]). by apply Hok.
  - split; [by constructor|].
    split; [apply (okButLast_app [_]); [by repeat constructor | done]|].
    intros Htrue. constructor; [done|]. by apply Hok.
Qed.

(** ** The cycle of [Munge] *)

Lemma ignoreObject_world (activeMilestone : string) (w : World) :
  (ignoreObject activeMilestone w).2 = w.
Proof.
  unfold ignoreObject, bind, getObj, ret.
  destruct (obj_IsPR (obj w)); [done|].
  destruct (bool_decide _); [done|].
  destruct (obj_ReleaseMilestone (obj w)) as [milestone ok].
  by destruct (negb ok || negb (nonEmpty milestone)).
Qed.

Lemma notificationIsCurrent_trace {pkg : Package} (n : Notification) (comment : option Comment)
    (interval : option Duration) (w : World) :
  trace (notificationIsCurrent n comment interval w).2 = trace w.
Proof.
  unfold notificationIsCurrent.
  destruct (negb _); [done|].
  destruct interval as [i|]; [|done].
  destruct comment as [cm|]; [|done].
  by destruct (cm_CreatedAt cm).
Qed.

Lemma latestNotificationComment_emits {pkg : Package} (bot : string) (w : World) :
  emits (latestNotificationComment bot) w (fun r _ es =>
    exists ok, es = [(Call_ListComments, ok)] /\ r.2 = ok).
Proof.
  unfold latestNotificationComment. em_step. em_step.
  destruct (obj_Comments (obj w)) as [comments|]; em_step; by eexists.
Qed.

Lemma clearIfRemoved_emits (change : IssueChange) (w : World) :
  emits (clearIfRemoved change) w (fun _ _ es =>
    es = [] \/ exists ok, es = [(Call_ClearMilestone, ok)]).
Proof.
  unfold clearIfRemoved. destruct (removeFromMilestone change).
  - apply emits_bind. unfold ClearMilestone. apply emits_mutate. intros ok w'.
    apply emits_ret. right. by exists ok.
  - apply emits_ret. by left.
Qed.

Lemma allOk_app (es1 es2 : list (Call * bool)) : allOk es1 -> allOk es2 -> allOk (es1 ++ es2).
Proof. unfold allOk. rewrite Forall_app. auto. Qed.

(** How a cycle is put together from its four parts. *)
Lemma cycle_intro (reads labelOps commentOps clearOps : list (Call * bool)) :
  Forall (fun e => resolutionRead e.1 = true) reads ->
  Forall (fun e => labelSync e.1 = true) labelOps ->
  Forall (fun e => commentUpdate e.1 = true) commentOps ->
  okButLast reads -> okButLast labelOps -> okButLast commentOps ->
  (labelOps ≠ [] \/ commentOps ≠ [] \/ clearOps ≠ [] -> allOk reads) ->
  (commentOps ≠ [] \/ clearOps ≠ [] -> allOk labelOps) ->
  (clearOps ≠ [] -> allOk commentOps) ->
  (clearOps = [] \/ exists ok, clearOps = [(Call_ClearMilestone, ok)]) ->
  cycleShape (reads ++ labelOps ++ commentOps ++ clearOps)
  /\ okButLast (reads ++ labelOps ++ commentOps ++ clearOps).
Proof.
  intros Hreads Hlabels Hcomments Hr Hl Hc Hrok Hlok Hcok Hclear. split.
  - exists reads, labelOps, commentOps, clearOps. repeat split; try done.
    destruct Hclear as [-> | [ok ->]]; [by left|]. right. split; [by exists ok|].
    apply allOk_app; [auto|]. apply allOk_app; auto.
  - assert (Hcl : okButLast clearOps) by (by destruct Hclear as [-> | [ok ->]]).
    assert (H3 : okButLast (commentOps ++ clearOps)).
    { destruct clearOps as [|e cl]; [by rewrite app_nil_r|].
      apply okButLast_app; [by apply Hcok | done]. }
    assert (H2 : okButLast (labelOps ++ commentOps ++ clearOps)).
    { destruct (commentOps ++ clearOps)%list as [|e l] eqn:Hnil; [by rewrite app_nil_r|].
      apply okButLast_app; [|done]. apply Hlok.
      destruct commentOps; [right; by destruct clearOps | by left]. }
    destruct (labelOps ++ commentOps ++ clearOps)%list as [|e l] eqn:Hnil;
      [by rewrite app_nil_r|].
    apply okButLast_app; [|done]. apply Hrok.
    destruct labelOps; [right | by left].
    destruct commentOps; [right; by destruct clearOps | by left].
Qed.

Ltac cycle_side :=
  first
    [ done
    | by repeat constructor
    | (intros _; by repeat constructor)
    | by (intros [?|[?|?]])
    | by (intros [?|?])
    | by left
    | (right; by eexists)
    | by auto ].

Lemma Munge_emits {pkg : Package} (m : MilestoneMaintainer) (w : World) :
  emits (Munge m) w (fun _ _ es => cycleShape es /\ okButLast es).
Proof.
  unfold Munge. apply emits_bind.
  apply emits_silent; [by rewrite ignoreObject_world|]. rewrite ignoreObject_world.
  destruct (ignoreObject (activeMilestone m) w).1.
  { apply emits_ret. apply (cycle_intro [] [] [] []); cycle_side. }
  apply emits_bind. eapply emits_conseq; [apply issueChange_emits|].
  intros [change|] w1 reads (_ & _ & Hread & Hlast & Hok); cbv beta iota;
    [|apply emits_ret; apply (cycle_intro reads [] [] []); cycle_side].
  assert (Hreads : allOk reads) by (by apply Hok). clear Hok.
  apply emits_bind. eapply emits_conseq; [apply updateMilestoneStateLabel_emits|].
  intros ok w2 labelOps (Hsync & Hl & Hlok). destruct ok; cbn [negb];
    [|apply emits_ret; apply (cycle_intro reads labelOps [] []); cycle_side].
  assert (Hlabels : allOk labelOps) by (by apply Hlok). clear Hlok.
  apply emits_bind. eapply emits_conseq; [apply latestNotificationComment_emits|].
  intros [comment ok] w3 es3 (ok' & -> & Heq). cbn [snd] in Heq. subst ok'.
  destruct ok; cbn [negb];
    [|apply emits_ret; apply (cycle_intro reads labelOps [(Call_ListComments, false)] []);
      cycle_side].
  apply emits_bind. apply emits_silent; [apply notificationIsCurrent_trace|].
  destruct (notificationIsCurrent _ _ _ w3).1; cbn [negb].
  { eapply emits_conseq; [apply clearIfRemoved_emits|]. intros ? w5 clearOps Hclear.
    apply (cycle_intro reads labelOps [(Call_ListComments, true)] clearOps); cycle_side. }
  apply emits_bind. destruct comment as [cm|].
  - unfold DeleteComment. apply emits_mutate. intros deleted w5.
    destruct deleted; cbn [negb];
      [|apply emits_ret;
        apply (cycle_intro reads labelOps
                 [(Call_ListComments, true); (Call_DeleteComment (cm_ID cm), false)] []);
        cycle_side].
    apply emits_bind. unfold Post. apply emits_mutate. intros posted w6.
    destruct posted; cbn [negb];
      [|apply emits_ret;
        apply (cycle_intro reads labelOps
                 [(Call_ListComments, true); (Call_DeleteComment (cm_ID cm), true);
                  (Call_Post (notification change), false)] []);
        cycle_side].
    eapply emits_conseq; [apply clearIfRemoved_emits|]. intros ? w7 clearOps Hclear.
    apply (cycle_intro reads labelOps
             [(Call_ListComments, true); (Call_DeleteComment (cm_ID cm), true);
              (Call_Post (notification change), true)] clearOps); cycle_side.
  - apply emits_ret. cbn [negb].
    apply emits_bind. unfold Post. apply emits_mutate. intros posted w6.
    destruct posted; cbn [negb];
      [|apply emits_ret;
        apply (cycle_intro reads labelOps
                 [(Call_ListComments, true); (Call_Post (notification change), false)] []);
        cycle_side].
    eapply emits_conseq; [apply clearIfRemoved_emits|]. intros ? w7 clearOps Hclear.
    apply (cycle_intro reads labelOps
             [(Call_ListComments, true); (Call_Post (notification change), true)] clearOps);
      cycle_side.
Qed.

(** The order of the calls of a cycle: the reads of the state resolution,
    the calls that synchronise the state label, the calls that update the
    comment, and at most one call that clears the milestone; every call
    but the last one succeeded. *)
Lemma Munge_cycle_order {pkg : Package} (m : MilestoneMaintainer) (w : World) :
  cycleShape (entries (Munge m) w) /\ okButLast (entries (Munge m) w).
Proof.
  destruct (Munge_emits m w) as (es & Htrace & Hshape).
  by rewrite (entries_intro _ _ _ Htrace).
Qed.

Lemma Munge_without_change {pkg : Package} (m : MilestoneMaintainer) (w : World) :
  (issueChange m w).1 = None ->
  (Munge m w).2 = w \/ (Munge m w).2 = (issueChange m w).2.
Proof.
  intros Hnone. unfold Munge, bind.
  pose proof (ignoreObject_world (activeMilestone m) w) as Hw.
  destruct (ignoreObject (activeMilestone m) w) as [ignore w0]. cbn [snd] in Hw. subst w0.
  destruct ignore; [by left|]. right.
  destruct (issueChange m w) as [change w1]. cbn [fst] in Hnone. by subst change.
Qed.

Lemma read_not_mutation (es : list (Call * bool)) :
  Forall (fun e => resolutionRead e.1 = true) es ->
  Forall (fun e => mutation e.1 = false) es.
Proof.
  intros H. eapply Forall_impl; [exact H|]. intros [c ok]. cbn. by destruct c.
Qed.

(** When the state resolution asks for the grace period of a deficiency
    and its start cannot be established, nothing is done. *)
Lemma no_action_when_indeterminate {pkg : Package} (m : MilestoneMaintainer) (w : World)
    (lbl : string) (d : Time) :
  blockerLabel ∉ obj_Labels (obj w) ->
  ((checkLabels (obj_Labels (obj w))).2 ≠ [] /\ lbl = milestoneLabelsIncompleteLabel)
  \/ ((checkLabels (obj_Labels (obj w))).2 = []
      /\ (statusApprovedLabel ∉ obj_Labels (obj w))
      /\ lbl = milestoneNeedsApprovalLabel) ->
  (gracePeriodStart (botName m) lbl d w).1 = None ->
  (issueChange m w).1 = None
  /\ Forall (fun e => mutation e.1 = false) (entries (Munge m) w)
  /\ obj (Munge m w).2 = obj w.
Proof.
  intros Hblocker Hbranch Hstart.
  assert (Hnone : (issueChange m w).1 = None).
  { pose proof (issueChangeConfig_indeterminate m w lbl d Hblocker Hbranch Hstart) as Hicc.
    destruct (issueChange_config m w) as [_ Hr]. by rewrite Hicc in Hr. }
  split; [done|].
  destruct (issueChange_emits m w) as (es & Htrace & Hobj & _ & Hread & _).
  destruct (Munge_without_change m w Hnone) as [Hw | Hw].
  - split; [|by rewrite Hw]. rewrite (entries_intro _ _ [] ); [done|].
    by rewrite Hw, app_nil_r.
  - split; [|by rewrite Hw]. rewrite (entries_intro _ _ es); [|by rewrite Hw].
    by apply read_not_mutation.
Qed.

(** C7.  No action without a start of the grace period.  For an item
    that is no blocker and whose deficiency (label errors, or valid labels
    without the approved label) makes the state resolution ask for the
    grace period: if the start of the grace period cannot be established,
    then no default start stands in for it, [issueChange] returns nothing,
    and the cycle makes no mutation and leaves the issue as it was. *)
Theorem indeterminate_start_no_action {pkg : Package} (m : MilestoneMaintainer) (w : World)
    (lbl : string) (d : Time) :
  blockerLabel ∉ obj_Labels (obj w) ->
  ((checkLabels (obj_Labels (obj w))).2 ≠ [] /\ lbl = milestoneLabelsIncompleteLabel)
  \/ ((checkLabels (obj_Labels (obj w))).2 = []
      /\ (statusApprovedLabel ∉ obj_Labels (obj w))
      /\ lbl = milestoneNeedsApprovalLabel) ->
  (gracePeriodStart (botName m) lbl d w).1 = None ->
  (forall d' : Time, (gracePeriodStart (botName m) lbl d' w).1 = None)
  /\ (issueChange m w).1 = None
  /\ Forall (fun e => mutation e.1 = false) (entries (Munge m) w)
  /\ obj (Munge m w).2 = obj w.
Proof.
  intros Hblocker Hbranch Hstart. split.
  - intros d'. by apply (gracePeriodStart_indeterminate _ _ d d' w w).
  - by apply (no_action_when_indeterminate m w lbl d).
Qed.

(** C10.  The default start.  [gracePeriodStart] returns the default
    start exactly when the label is not on the item.  When the label is on
    the item the default plays no part: the start is what the events say,
    and if no event of the bot adds the label then there is no start, the
    grace calculator is not [ok], and a cycle that asks for this grace
    period does nothing. *)
Theorem default_start_only_without_label {pkg : Package} (bot lbl : string) (w : World) :
  (lbl ∉ obj_Labels (obj w) ->
     forall d : Time, (gracePeriodStart bot lbl d w).1 = Some d)
  /\ (lbl ∈ obj_Labels (obj w) ->
      forall d d' : Time,
        (gracePeriodStart bot lbl d w).1 = (gracePeriodStart bot lbl d' w).1)
  /\ (lbl ∈ obj_Labels (obj w) ->
      forall events : list IssueEvent,
        obj_Events (obj w) = Some events ->
        filter (fun e => labelMatcher bot lbl e = true) events = [] ->
        (forall (d : Time) (gracePeriod : Duration),
            (gracePeriodStart bot lbl d w).1 = None
            /\ (gracePeriodRemaining bot lbl gracePeriod d false w).1 = (None, false))
        /\ (forall m : MilestoneMaintainer,
              botName m = bot ->
              blockerLabel ∉ obj_Labels (obj w) ->
              ((checkLabels (obj_Labels (obj w))).2 ≠ []
               /\ lbl = milestoneLabelsIncompleteLabel)
              \/ ((checkLabels (obj_Labels (obj w))).2 = []
                  /\ (statusApprovedLabel ∉ obj_Labels (obj w))
                  /\ lbl = milestoneNeedsApprovalLabel) ->
              (issueChange m w).1 = None
              /\ Forall (fun e => mutation e.1 = false) (entries (Munge m) w)
              /\ obj (Munge m w).2 = obj w)).
Proof.
  assert (Hstart : forall d, (gracePeriodStart bot lbl d w).1 =
            if bool_decide (lbl ∈ obj_Labels (obj w))
            then match obj_Events (obj w) with
                 | Some events =>
                     match last (filter (fun e => labelMatcher bot lbl e = true) events) with
                     | Some lastAdded => ev_CreatedAt lastAdded
                     | None => None
                     end
                 | None => None
                 end
            else Some d).
  { intros d. by destruct (gracePeriodStart_run bot lbl d w) as (_ & _ & _ & _ & _ & ->). }
  split; [|split].
  - intros Habsent d. by rewrite Hstart, (bool_decide_eq_false_2 _ Habsent).
  - intros Hpresent d d'. by rewrite !Hstart, (bool_decide_eq_true_2 _ Hpresent).
  - intros Hpresent events Hevents Hnone.
    assert (Hindeterminate : forall d, (gracePeriodStart bot lbl d w).1 = None).
    { intros d. by rewrite Hstart, (bool_decide_eq_true_2 _ Hpresent), Hevents, Hnone. }
    split.
    + intros d gracePeriod. split; [done|].
      pose proof (gracePeriodRemaining_run bot lbl gracePeriod d false w) as Hrun.
      unfold wp in Hrun. destruct Hrun as (_ & _ & _ & _ & Hr).
      by rewrite Hindeterminate in Hr.
    + intros m <- Hblocker Hbranch.
      by apply (no_action_when_indeterminate m w lbl 0).
Qed.

(** ** The current notification *)

Lemma not_comment_mutation (es : list (Call * bool)) :
  Forall (fun e => resolutionRead e.1 = true \/ labelSync e.1 = true) es ->
  Forall (fun e => commentMutation e.1 = false) es.
Proof.
  intros H. eapply Forall_impl; [exact H|]. intros [c ok]. cbn. by destruct c; intros [?|?].
Qed.

(** C4.  The current notification.  The existing comment is current
    exactly when it parses back to a notification with the name, the
    title and the body of the new one and, if the new state repeats its
    warning on an interval, the age of the comment is less than the
    interval.  In a cycle that gets as far as this test and finds the
    comment current, no comment is deleted or posted. *)
Theorem notification_current {pkg : Package} :
  (forall (n : Notification) (comment : option Comment) (interval : option Duration)
          (w : World),
      (notificationIsCurrent n comment interval w).1 = true <->
        (exists old, ParseNotification comment = Some old
           /\ n_Name old = n_Name n /\ n_Arguments old = n_Arguments n
           /\ n_Context old = n_Context n)
        /\ (interval = None
            \/ exists i age,
                 interval = Some i /\ commentAge comment w = Some age /\ age < i))
  /\ (forall (m : MilestoneMaintainer) (change : IssueChange) (comment : option Comment)
             (w0 w1 w2 w3 : World),
        ignoreObject (activeMilestone m) w0 = (false, w0) ->
        issueChange m w0 = (Some change, w1) ->
        updateMilestoneStateLabel (change_label change) w1 = (true, w2) ->
        latestNotificationComment (botName m) w2 = ((comment, true), w3) ->
        (notificationIsCurrent (notification change) comment (commentInterval change) w3).1
          = true ->
        Forall (fun e => commentMutation e.1 = false) (entries (Munge m) w0)).
Proof.
  split.
  - intros n comment interval w.
    unfold notificationIsCurrent, commentAge, Notification_Equal.
    destruct (ParseNotification comment) as [old|].
    + destruct (decide (old = n)) as [->|Hne].
      * rewrite bool_decide_eq_true_2 by done. cbn [negb].
        destruct interval as [i|]; [|cbn; split; [|done]; intros _; split; [by exists n|by left]].
        destruct comment as [cm|]; [destruct (cm_CreatedAt cm) as [createdAt|]|].
        -- cbn. rewrite Z.ltb_lt. split.
           ++ intros Hlt. split; [by exists n|]. right.
              by exists i, (Sub (clock w (tick w)) createdAt).
           ++ intros (_ & [Hno | (i' & age & Hi & Hage & Hlt)]); [done|].
              by simplify_eq.
        -- cbn. split; [done|]. intros (_ & [Hno | (i' & age & _ & Hage & _)]); done.
        -- cbn. split; [done|]. intros (_ & [Hno | (i' & age & _ & Hage & _)]); done.
      * rewrite bool_decide_eq_false_2 by done. cbn. split; [done|].
        intros ((old' & Hold & H1 & H2 & H3) & _). simplify_eq.
        destruct Hne. by destruct old', n; cbn in *; subst.
    + cbn. split; [done|]. by intros ((old' & Hold & _) & _).
  - intros m change comment w0 w1 w2 w3 Hignore Hchange Hlabel Hcomment Hcurrent.
    destruct (issueChange_emits m w0) as (es1 & Htr1 & _ & _ & Hread & _).
    destruct (updateMilestoneStateLabel_emits (change_label change) w1)
      as (es2 & Htr2 & Hsync & _).
    destruct (latestNotificationComment_emits (botName m) w2) as (es3 & Htr3 & ok & -> & _).
    pose proof (notificationIsCurrent_trace (notification change) comment
                  (commentInterval change) w3) as Htr4.
    rewrite Hchange in Htr1. rewrite Hlabel in Htr2. rewrite Hcomment in Htr3.
    cbn [fst snd] in *.
    destruct (notificationIsCurrent (notification change) comment
                (commentInterval change) w3) as [current w4] eqn:Hrun.
    cbn [fst snd] in *. subst current.
    destruct (clearIfRemoved_emits change w4) as (es5 & Htr5 & Hclear).
    assert (Hmunge : (Munge m w0).2 = (clearIfRemoved change w4).2).
    { unfold Munge, bind. rewrite Hignore. cbv beta iota. rewrite Hchange. cbv beta iota.
      rewrite Hlabel. cbn [negb]. cbv beta iota. rewrite Hcomment. cbn [negb].
      cbv beta iota. by rewrite Hrun. }
    rewrite (entries_intro _ _ (es1 ++ es2 ++ [(Call_ListComments, ok)] ++ es5)).
    + rewrite !Forall_app. repeat split.
      * apply not_comment_mutation. eapply Forall_impl; [exact Hread|]. auto.
      * apply not_comment_mutation. eapply Forall_impl; [exact Hsync|]. auto.
      * by repeat constructor.
      * destruct Hclear as [-> | [ok' ->]]; by repeat constructor.
    + rewrite Hmunge, Htr5, Htr4, Htr3, Htr2, Htr1. by rewrite <- !app_assoc.
Qed.

(** * Further properties *)

(** ** Validation of the options *)

(** The order in which stdpp lists the validators; Go ranges over them in
    any order. *)
Lemma validators_to_list (m : MilestoneMaintainer) :
  map_to_list (validators m) =
    [ (milestoneOptWarningInterval,
       fun name => durationGreaterThanZero name (warningInterval m));
      (milestoneOptSlushUpdateInterval,
       fun name => durationGreaterThanZero name (slushUpdateInterval m));
      (milestoneOptMode,
       fun name =>
         if negb (bool_decide (mode m ∈ milestoneModes))
         then Some (name ++ " must be one of " ++ milestoneModesList) else None);
      (milestoneOptApprovalGracePeriod,
       fun name => durationGreaterThanZero name (approvalGracePeriod m));
      (milestoneOptFreezeUpdateInterval,
       fun name => durationGreaterThanZero name (freezeUpdateInterval m));
      (milestoneOptFreezeDate,
       fun name =>
         if String.eqb (mode m) milestoneModeSlush && negb (nonEmpty (freezeDate m))
         then Some (name ++ " must be supplied when milestone-mode is 'slush'")
         else None);
      (milestoneOptLabelGracePeriod,
       fun name => durationGreaterThanZero name (labelGracePeriod m));
      (milestoneOptActiveMilestone,
       fun name =>
         if negb (nonEmpty (activeMilestone m))
         then Some (name ++ " must be supplied") else None) ].
Proof. reflexivity. Qed.

(** Whether the loop runs the validator of an option. *)
Lemma validate_None (changed : option (gset string))
    (vs : list (string * milestoneArgValidator)) :
  validate changed vs = None <->
  Forall (fun nv => match changed with
                    | Some changed => nv.1 ∈ changed
                    | None => True
                    end -> nv.2 nv.1 = None) vs.
Proof.
  induction vs as [|[name validator] vs IH]; cbn [validate].
  - split; [constructor | done].
  - rewrite Forall_cons. cbn [fst snd]. destruct changed as [changed|].
    + case_bool_decide as Hin.
      * destruct (validator name) as [err|] eqn:Herr.
        -- split; [done | intros [Hv _]; by specialize (Hv Hin)].
        -- rewrite IH. tauto.
      * rewrite IH. tauto.
    + destruct (validator name) as [err|] eqn:Herr.
      * split; [done | intros [Hv _]; by specialize (Hv I)].
      * rewrite IH. tauto.
Qed.

Lemma validate_Some (changed : option (gset string))
    (vs : list (string * milestoneArgValidator)) (err : string) :
  validate changed vs = Some err ->
  exists name validator, (name, validator) ∈ vs /\ validator name = Some err.
Proof.
  induction vs as [|[name validator] vs IH]; cbn [validate]; [done|].
  intros Hv.
  assert (Hrest : validate changed vs = Some err ->
            exists name0 validator0,
              (name0, validator0) ∈ (name, validator) :: vs /\ validator0 name0 = Some err).
  { intros (name0 & validator0 & Hin & H0)%IH. exists name0, validator0.
    split; [by right | done]. }
  destruct (match changed with Some c => bool_decide (name ∈ c) | None => true end);
    [|by apply Hrest].
  destruct (validator name) as [err0|] eqn:Herr; [|by apply Hrest].
  injection Hv as ->. exists name, validator. split; [by left | done].
Qed.

Lemma validate_Permutation (changed : option (gset string))
    (vs vs' : list (string * milestoneArgValidator)) :
  vs ≡ₚ vs' -> validate changed vs = None <-> validate changed vs' = None.
Proof. intros Hp. rewrite !validate_None. by rewrite Hp. Qed.

Lemma mode_in_milestoneModes (s : string) :
  s ∈ milestoneModes <->
  s = milestoneModeDev \/ s = milestoneModeSlush \/ s = milestoneModeFreeze.
Proof. unfold milestoneModes. set_solver. Qed.

Lemma nonEmpty_true (s : string) : nonEmpty s = true <-> s ≠ EmptyString.
Proof. by destruct s. Qed.

Lemma durationGreaterThanZero_None (name : string) (value : Duration) :
  durationGreaterThanZero name value = None <-> 0 < value.
Proof. unfold durationGreaterThanZero. destruct (Z.leb_spec value 0); split; (done || lia). Qed.

(** All the validators pass exactly for valid options. *)
Lemma validators_pass (m : MilestoneMaintainer) :
  validate None (map_to_list (validators m)) = None <-> validOptions m.
Proof.
  rewrite validate_None, validators_to_list, !Forall_cons, Forall_nil. cbn [fst snd].
  rewrite !durationGreaterThanZero_None. unfold validOptions.
  rewrite <- mode_in_milestoneModes, <- !nonEmpty_true.
  assert (Hslush : String.eqb (mode m) milestoneModeSlush = true <-> mode m = milestoneModeSlush)
    by apply String.eqb_eq.
  destruct (String.eqb (mode m) milestoneModeSlush), (nonEmpty (freezeDate m)),
    (nonEmpty (activeMilestone m)); cbn [negb andb];
    case_bool_decide; cbn [negb]; intuition congruence.
Qed.

Lemma prefix_app (s t : string) : String.prefix s (s ++ t) = true.
Proof.
  induction s as [|c s IH]; [by destruct t|].
  change (String c s ++ t) with (String c (s ++ t)). cbn [String.prefix].
  by destruct (ascii_dec c c).
Qed.

(** The error of a validator starts with the name it is called with. *)
Lemma validator_error (m : MilestoneMaintainer) (name0 name err : string)
    (validator : milestoneArgValidator) :
  validators m !! name0 = Some validator ->
  validator name = Some err -> String.prefix name err = true.
Proof.
  intros Hv%elem_of_map_to_list Herr. rewrite validators_to_list in Hv.
  unfold durationGreaterThanZero in *.
  repeat (apply elem_of_cons in Hv as [Hv|Hv];
          [injection Hv as _ ->; cbv beta in Herr;
           match type of Herr with
           | (if ?b then _ else _) = _ => destruct b; [|done]
           end;
           injection Herr as <-; apply prefix_app|]).
  by apply elem_of_nil in Hv.
Qed.

(** [Initialize] returns no error exactly for valid options. *)
Lemma Initialize_valid_iff (m : MilestoneMaintainer)
    (vs : list (string * milestoneArgValidator)) (configBotName : string) :
  vs ≡ₚ map_to_list (validators m) ->
  (Initialize vs configBotName m).1 = None <-> validOptions m.
Proof.
  intros Hp. rewrite <- validators_pass, <- (validate_Permutation None _ _ Hp).
  unfold Initialize. by destruct (validate None vs).
Qed.

(** X1.  [Initialize], whatever the order in which Go ranges over the
    validators, returns no error exactly for valid options: an active
    milestone, one of the three modes, five positive durations, and a
    freeze date in slush mode.  It then sets the bot name and leaves the
    options as they are; with an error it leaves the munger as it is. *)
Theorem Initialize_accepts_valid_options (m : MilestoneMaintainer)
    (vs : list (string * milestoneArgValidator)) (configBotName : string) :
  vs ≡ₚ map_to_list (validators m) ->
  ((Initialize vs configBotName m).1 = None <-> validOptions m)
  /\ (validOptions m ->
      (Initialize vs configBotName m).2 = set_botName configBotName m)
  /\ (~ validOptions m -> (Initialize vs configBotName m).2 = m).
Proof.
  intros Hp. rewrite <- validators_pass, <- (validate_Permutation None _ _ Hp).
  unfold Initialize. destruct (validate None vs); cbn [fst snd]; repeat split; done.
Qed.

(** X2.  The error of [Initialize] is that of a validator that fails, and
    it starts with the name of its option.  When several options are
    invalid, which error is returned depends on the order in which Go
    ranges over the map: for every validator that fails there is an order
    for which its error is the one returned. *)
Theorem Initialize_error_of_failing_option (m : MilestoneMaintainer)
    (configBotName : string) :
  (forall (vs : list (string * milestoneArgValidator)) (err : string),
      vs ≡ₚ map_to_list (validators m) ->
      (Initialize vs configBotName m).1 = Some err ->
      exists name validator,
        validators m !! name = Some validator /\ validator name = Some err
        /\ String.prefix name err = true)
  /\ (forall (name err : string) (validator : milestoneArgValidator),
        validators m !! name = Some validator -> validator name = Some err ->
        exists vs, vs ≡ₚ map_to_list (validators m)
          /\ (Initialize vs configBotName m).1 = Some err).
Proof.
  split.
  - intros vs err Hp Herr. unfold Initialize in Herr.
    destruct (validate None vs) as [err0|] eqn:Hv; [|done]. injection Herr as ->.
    apply validate_Some in Hv as (name & validator & Hin & Hv).
    rewrite Hp in Hin. apply elem_of_map_to_list in Hin.
    exists name, validator. split; [done|]. split; [done|].
    by eapply validator_error.
  - intros name err validator Hlookup Herr.
    apply elem_of_map_to_list, elem_of_Permutation in Hlookup as [rest Hrest].
    exists ((name, validator) :: rest). split; [done|].
    unfold Initialize. cbn [validate]. by rewrite Herr.
Qed.

(** X3.  The update callback of [RegisterOptions] validates the options
    that changed and no other: it returns no error exactly when the
    validator of every changed option passes. *)
Theorem updateCallback_validates_changed_only (m : MilestoneMaintainer)
    (vs : list (string * milestoneArgValidator)) (changed : gset string) :
  vs ≡ₚ map_to_list (validators m) ->
  updateCallback vs changed = None <->
  forall (name : string) (validator : milestoneArgValidator),
    name ∈ changed -> validators m !! name = Some validator -> validator name = None.
Proof.
  intros Hp. unfold updateCallback. rewrite validate_None, Hp, Forall_forall.
  split.
  - intros H name validator Hin Hlookup.
    by apply (H (name, validator)); [apply elem_of_map_to_list|].
  - intros H [name validator] Hin%elem_of_map_to_list Hchanged. by eapply H.
Qed.

(** X4.  A change of the mode alone to slush is accepted by the update
    callback also when no freeze date is set, because the validator of
    the freeze date belongs to an option that did not change;
    [Initialize] rejects the same options. *)
Theorem updateCallback_mode_change_skips_freeze_date (m : MilestoneMaintainer)
    (vs : list (string * milestoneArgValidator)) (configBotName : string) :
  vs ≡ₚ map_to_list (validators m) ->
  mode m = milestoneModeSlush -> freezeDate m = EmptyString ->
  updateCallback vs {[milestoneOptMode]} = None
  /\ exists err, (Initialize vs configBotName m).1 = Some err.
Proof.
  intros Hp Hmode Hdate. split.
  - unfold updateCallback.
    rewrite (validate_Permutation _ _ _ Hp), validate_None, validators_to_list.
    rewrite !Forall_cons, Forall_nil. cbn [fst snd].
    repeat split; try (intros Hin; by apply elem_of_singleton in Hin).
    intros _. rewrite bool_decide_eq_true_2; [done|].
    apply mode_in_milestoneModes. auto.
  - destruct (Initialize vs configBotName m).1 as [err|] eqn:Hinit; [by eexists|].
    apply (Initialize_valid_iff m vs configBotName Hp) in Hinit.
    destruct Hinit as (_ & _ & _ & _ & _ & _ & _ & Hfreeze). by apply Hfreeze in Hmode.
Qed.

(** ** The label classifier *)

Lemma single_Permutation {A : Type} (l l' : list A) (d : A) :
  l ≡ₚ l' ->
  match l with [k] => k | _ => d end = match l' with [k] => k | _ => d end.
Proof.
  intros Hp. pose proof (Permutation_length Hp) as Hlen.
  destruct l as [|a [|b l]].
  - apply Permutation_nil_l in Hp. by subst l'.
  - apply Permutation_singleton_l in Hp. by subst l'.
  - by destruct l' as [|a' [|b' l']].
Qed.

Lemma single_error_Permutation {A : Type} (l l' : list A) (err : string) :
  l ≡ₚ l' ->
  match l with [_] => [] | _ => [err] end = match l' with [_] => [] | _ => [err] end.
Proof.
  intros Hp. pose proof (Permutation_length Hp) as Hlen.
  by destruct l as [|a [|b l]], l' as [|a' [|b' l']].
Qed.

Lemma matching_Permutation (labelMap : gmap string string) (l l' : list string) :
  l ≡ₚ l' -> matching labelMap l ≡ₚ matching labelMap l'.
Proof. intros Hp. unfold matching. by rewrite Hp. Qed.

(** X5.  The classification does not depend on the order of the labels
    of the issue: the kind label, the priority label and the errors are
    the same, and the sig labels are the same up to their order. *)
Theorem checkLabels_order_irrelevant (labels labels' : list string) :
  labels ≡ₚ labels' ->
  (checkLabels labels).1.1.1 = (checkLabels labels').1.1.1
  /\ (checkLabels labels).1.1.2 = (checkLabels labels').1.1.2
  /\ (checkLabels labels).1.2 ≡ₚ (checkLabels labels').1.2
  /\ (checkLabels labels).2 = (checkLabels labels').2.
Proof.
  intros Hp. rewrite !checkLabels_eq. cbn [fst snd].
  pose proof (matching_Permutation kindMap _ _ Hp) as Hkind.
  pose proof (matching_Permutation priorityMap _ _ Hp) as Hpriority.
  assert (Hsig : sigLabelNames labels ≡ₚ sigLabelNames labels').
  { unfold sigLabelNames. by rewrite Hp. }
  split; [by apply single_Permutation|]. split; [by apply single_Permutation|].
  split; [done|].
  rewrite (single_error_Permutation _ _ kindError Hkind).
  rewrite (single_error_Permutation _ _ priorityError Hpriority).
  do 2 f_equal. pose proof (Permutation_length Hsig) as Hlen.
  by destruct (sigLabelNames labels), (sigLabelNames labels').
Qed.

(** X6.  A label that is no kind label, no priority label and has no
    [sig/] prefix does not change the classification, wherever it stands
    among the labels.  The labels that the milestone process itself
    uses, the two status labels and the four state labels, are such
    labels. *)
Theorem checkLabels_ignores_other_labels :
  (forall (before after : list string) (name : string),
      classifies name = false ->
      checkLabels (before ++ name :: after) = checkLabels (before ++ after))
  /\ Forall (fun name => classifies name = false)
            (statusApprovedLabel :: statusInProgressLabel :: milestoneStateLabels).
Proof.
  split; [|by repeat constructor].
  intros before after name Hname. unfold classifies in Hname.
  apply orb_false_elim in Hname as [Hname Hsig].
  apply orb_false_elim in Hname as [Hkind Hpriority].
  rewrite !checkLabels_eq. unfold matching, sigLabelNames.
  rewrite !filter_app, !filter_cons.
  rewrite !decide_False by (by rewrite ?Hkind, ?Hpriority, ?Hsig).
  done.
Qed.

(** ** The change to make *)

(** X7.  The parts of a change fit together: the label is none or one of
    the four state labels; the issue leaves the milestone exactly with
    the label [milestone/removed]; the comment is repeated, after the
    warning interval of the munger, exactly for the three labels that
    warn, and never for a current or a removed issue. *)
Theorem issueChange_parts_agree {pkg : Package} (m : MilestoneMaintainer) (w : World)
    (change : IssueChange) :
  (issueChange m w).1 = Some change ->
  change_label change ∈ EmptyString :: milestoneStateLabels
  /\ (removeFromMilestone change = true <-> change_label change = milestoneRemovedLabel)
  /\ (commentInterval change = None <->
        change_label change = EmptyString \/ change_label change = milestoneRemovedLabel)
  /\ (commentInterval change = None \/ commentInterval change = Some (warningInterval m)).
Proof.
  intros Hchange. destruct (issueChange_config m w) as [_ Hconfig].
  destruct (issueChangeConfig m w).1 as [icc|]; [|congruence].
  destruct Hconfig as (change' & Heq & Hlabel & Hremove & Hinterval).
  rewrite Heq in Hchange. injection Hchange as <-.
  rewrite Hlabel, Hremove, Hinterval.
  destruct (state icc); cbn;
    (split; [apply (bool_decide_unpack _); by vm_compute|]);
    (split; [split; (done || (intros ?; by apply bool_decide_eq_true_2))|]);
    (split; [split; (done || auto || (intros [?|?]; done))|]); auto.
Qed.

Lemma Join_nonEmpty (elems : list string) (sep : string) :
  elems ≠ [] -> Forall (fun e => nonEmpty e = true) elems ->
  nonEmpty (Join elems sep) = true.
Proof.
  intros Hne Hall. destruct elems as [|e rest]; [done|].
  apply Forall_cons in Hall as [He _]. cbn [Join].
  destruct rest; [done|]. by destruct e.
Qed.

(** The sig labels of a resolved configuration are those of the
    classification when the labels are valid; with label errors the
    configuration has none. *)
Lemma issueChangeConfig_sigLabels {pkg : Package} (m : MilestoneMaintainer) (w : World) :
  wp (issueChangeConfig m) w (fun r _ =>
    match r with
    | Some icc =>
        sigLabels icc =
          if bool_decide ((checkLabels (obj_Labels (obj w))).2 = [])
          then (checkLabels (obj_Labels (obj w))).1.2 else []
    | None => True
    end).
Proof.
  unfold issueChangeConfig. do 4 wp_step.
  destruct (checkLabels (obj_Labels (obj w))) as [[[kind priority] sigs] errs].
  cbn [fst snd].
  repeat first
    [ wp_step
    | eapply wp_conseq; [apply gracePeriodRemaining_run|]; intros [? ?] ? _ ];
    try done;
    repeat match goal with
      | |- context [if negb ?b then _ else _] => destruct b; cbn [negb]
      | |- context [if ?x >? ?y then _ else _] => destruct (x >? y)
      end;
    destruct errs; try done.
Qed.

(** X8.  Who the notification addresses.  The message is the mentions,
    an empty line, the body and the help panel.  The mentions are those
    of the users of the issue; in the states that notify the SIGs (needs
    approval, needs attention, removal) they are followed by one mention
    for each sig label of the issue, but only when the labels of the
    issue are valid: an issue that leaves the milestone because its
    labels are incomplete mentions no SIG, whatever sig labels it has. *)
Theorem issueChange_mentions {pkg : Package} (m : MilestoneMaintainer) (w : World)
    (change : IssueChange) :
  (issueChange m w).1 = Some change ->
  exists (icc : IssueChangeConfig) (body : string),
    (issueChangeConfig m w).1 = Some icc /\ messageBody icc = Some body
    /\ let labels := obj_Labels (obj w) in
       let sigs :=
         Join ((fun sigLabel => sigMentionTemplate (TrimPrefix sigLabel sigLabelPrefix))
                 <$> sigLabelNames labels) " " in
       let mentions :=
         if notifySIGs (milestoneStateConfigs (state icc))
            && bool_decide ((checkLabels labels).2 = [])
         then obj_Mentions (obj w) ++ " " ++ sigs
         else obj_Mentions (obj w) in
       notification change =
         NewNotification milestoneNotifierName (title (milestoneStateConfigs (state icc)))
           (mentions ++ nl ++ nl ++ body ++ nl ++ milestoneDetail).
Proof.
  intros Hchange.
  pose proof (issueChangeConfig_sigLabels m w) as Hsigs.
  destruct (issueChangeConfig_emits m w) as (es & _ & Hobj & _).
  unfold wp in Hsigs. unfold issueChange, bind in Hchange.
  destruct (issueChangeConfig m w) as [[icc|] w']; cbn [fst snd] in *; [|done].
  unfold messageBody, GenerateTemplateOrFail, getObj, ret in Hchange.
  cbn [fst snd] in Hchange. injection Hchange as <-.
  eexists icc, _. split; [done|]. split; [reflexivity|].
  cbn [notification]. cbv zeta. rewrite Hobj. do 2 f_equal.
  unfold sigMentions. rewrite Hsigs.
  destruct (notifySIGs (milestoneStateConfigs (state icc))); [|done]. cbn [andb].
  case_bool_decide as Herrs; [|done].
  rewrite checkLabels_eq in Herrs |- *. cbn [fst snd] in Herrs |- *.
  rewrite Join_nonEmpty; [done| |].
  - apply app_eq_nil in Herrs as [_ [_ Herrs]%app_eq_nil].
    by destruct (sigLabelNames (obj_Labels (obj w))).
  - apply Forall_fmap, Forall_true. done.
Qed.

(** ** The grace periods in the state resolution *)

(** What [gracePeriodStart] returns depends on the issue only. *)
Lemma gracePeriodStart_obj (bot lbl : string) (d : Time) (w w' : World) :
  obj w' = obj w ->
  (gracePeriodStart bot lbl d w').1 = (gracePeriodStart bot lbl d w).1.
Proof.
  intros Hobj.
  pose proof (gracePeriodStart_run bot lbl d w) as (_ & _ & _ & _ & _ & ->).
  pose proof (gracePeriodStart_run bot lbl d w') as (_ & _ & _ & _ & _ & ->).
  by rewrite Hobj.
Qed.

(** The remaining grace when the clock is read at [now]. *)
Lemma remaining_fits (now start gracePeriod : Z) :
  fitsDuration (now - start - gracePeriod) ->
  neg (Sub now (Add start gracePeriod)) = gracePeriod - (now - start).
Proof.
  intros Hfits. unfold Add.
  replace (now - start - gracePeriod) with (now - (start + gracePeriod)) in Hfits by lia.
  rewrite (Sub_fits _ _ Hfits), (neg_fits _ Hfits). lia.
Qed.

(** The result of [issueChangeConfig] for an issue with label errors that
    is no blocker, once the start of the grace period is known.  The
    clock is read twice: for the default start and for the time elapsed. *)
Lemma issueChangeConfig_label_grace {pkg : Package} (m : MilestoneMaintainer) (w : World)
    (start : Time) :
  (checkLabels (obj_Labels (obj w))).2 ≠ [] ->
  blockerLabel ∉ obj_Labels (obj w) ->
  (gracePeriodStart (botName m) milestoneLabelsIncompleteLabel (clock w (tick w)) w).1
    = Some start ->
  (issueChangeConfig m w).1 =
    let remaining := neg (Sub (clock w (S (tick w))) (Add start (labelGracePeriod m))) in
    let labelErrors := (checkLabels (obj_Labels (obj w))).2 in
    Some (if remaining >=? 0
          then warnIncompleteLabels (Some remaining) labelErrors (activeMilestone m)
                 (initialConfig m)
          else removeIncompleteLabels labelErrors (initialConfig m)).
Proof.
  intros Herrs Hblocker Hstart. apply (bool_decide_eq_false_2 _) in Hblocker.
  match goal with |- ?lhs = ?rhs =>
    change (wp (issueChangeConfig m) w (fun r _ => r = rhs)) end.
  unfold issueChangeConfig. do 4 wp_step. rewrite Hblocker.
  destruct (checkLabels (obj_Labels (obj w))) as [[[kind priority] sigs] errs].
  cbn [snd] in *. destruct errs as [|labelError errs]; [done|]. cbn [length Nat.eqb].
  do 3 wp_step. eapply wp_conseq; [apply gracePeriodRemaining_run|]. wp_simpl.
  intros [removeAfter ok] w' (_ & _ & _ & _ & Hr).
  rewrite (gracePeriodStart_obj _ _ _ w) in Hr by done. rewrite Hstart in Hr.
  injection Hr as Hr1 Hr2; subst removeAfter ok. cbv zeta.
  by repeat wp_step.
Qed.

(** The same for valid labels without the approved label. *)
Lemma issueChangeConfig_approval_grace {pkg : Package} (m : MilestoneMaintainer) (w : World)
    (start : Time) :
  (checkLabels (obj_Labels (obj w))).2 = [] ->
  statusApprovedLabel ∉ obj_Labels (obj w) ->
  blockerLabel ∉ obj_Labels (obj w) ->
  (gracePeriodStart (botName m) milestoneNeedsApprovalLabel (clock w (tick w)) w).1
    = Some start ->
  (issueChangeConfig m w).1 =
    let remaining := neg (Sub (clock w (S (tick w))) (Add start (approvalGracePeriod m))) in
    let labels := checkLabels (obj_Labels (obj w)) in
    let icc := summarizeLabels labels.1.1.1 labels.1.1.2 labels.1.2 (initialConfig m) in
    Some (if remaining >=? 0
          then warnUnapproved (Some remaining) (activeMilestone m) icc
          else removeUnapproved icc).
Proof.
  intros Herrs Happroved Hblocker Hstart.
  apply (bool_decide_eq_false_2 _) in Hblocker, Happroved.
  match goal with |- ?lhs = ?rhs =>
    change (wp (issueChangeConfig m) w (fun r _ => r = rhs)) end.
  unfold issueChangeConfig. do 4 wp_step. rewrite Hblocker.
  destruct (checkLabels (obj_Labels (obj w))) as [[[kind priority] sigs] errs].
  cbn [fst snd] in *. subst errs. cbn [length Nat.eqb].
  do 2 wp_step. rewrite Happroved. do 3 wp_step.
  eapply wp_conseq; [apply gracePeriodRemaining_run|]. wp_simpl.
  intros [removeAfter ok] w' (_ & _ & _ & _ & Hr).
  rewrite (gracePeriodStart_obj _ _ _ w) in Hr by done. rewrite Hstart in Hr.
  injection Hr as Hr1 Hr2; subst removeAfter ok. cbv zeta.
  by repeat wp_step.
Qed.

(** X9.  When the grace period ends.  For an issue that is no blocker
    and whose deficiency started at [start], the state resolution reads
    the clock a second time, and the time [elapsed] from [start] to that
    reading decides: up to and including the grace period the issue is
    warned, with the remaining time in the warning, and beyond it the
    issue is removed.  This holds for label errors with the label grace
    period and for a missing approval with the approval grace period.
    The elapsed time is one that [Sub] does not clip. *)
Theorem removal_only_after_grace_period {pkg : Package} (m : MilestoneMaintainer)
    (w : World) (start : Time) :
  blockerLabel ∉ obj_Labels (obj w) ->
  let elapsed := clock w (S (tick w)) - start in
  ((checkLabels (obj_Labels (obj w))).2 ≠ [] ->
   (gracePeriodStart (botName m) milestoneLabelsIncompleteLabel (clock w (tick w)) w).1
     = Some start ->
   fitsDuration (elapsed - labelGracePeriod m) ->
   exists icc, (issueChangeConfig m w).1 = Some icc
     /\ (elapsed <= labelGracePeriod m ->
         state icc = milestoneNeedsLabeling
         /\ templateArguments icc !! "incompleteLabelsRemovalWarning" =
              Some (TString (" If the required changes are not made within "
                             ++ durationToMaxDays (labelGracePeriod m - elapsed)
                             ++ ", the issue will be moved out of the "
                             ++ activeMilestone m ++ " milestone.")))
     /\ (labelGracePeriod m < elapsed -> state icc = milestoneNeedsRemoval))
  /\ ((checkLabels (obj_Labels (obj w))).2 = [] ->
      statusApprovedLabel ∉ obj_Labels (obj w) ->
      (gracePeriodStart (botName m) milestoneNeedsApprovalLabel (clock w (tick w)) w).1
        = Some start ->
      fitsDuration (elapsed - approvalGracePeriod m) ->
      exists icc, (issueChangeConfig m w).1 = Some icc
        /\ (elapsed <= approvalGracePeriod m ->
            state icc = milestoneNeedsApproval
            /\ templateArguments icc !! "unapprovedRemovalWarning" =
                 Some (TString (" If the label is not applied within "
                                ++ durationToMaxDays (approvalGracePeriod m - elapsed)
                                ++ ", the issue will be moved out of the "
                                ++ activeMilestone m ++ " milestone.")))
        /\ (approvalGracePeriod m < elapsed -> state icc = milestoneNeedsRemoval)).
Proof.
  intros Hblocker elapsed. subst elapsed. split.
  - intros Herrs Hstart Hfits.
    rewrite (issueChangeConfig_label_grace m w start Herrs Hblocker Hstart). cbv zeta.
    rewrite (remaining_fits _ _ _ Hfits). eexists. split; [reflexivity|].
    destruct (Z.geb_spec (labelGracePeriod m - (clock w (S (tick w)) - start)) 0).
    + split; [intros _ | intros ?; lia].
      split; [done|]. icc_simpl. by rewrite lookup_insert_ne, lookup_insert by done.
    + split; [intros ?; lia | intros _; done].
  - intros Herrs Happroved Hstart Hfits.
    rewrite (issueChangeConfig_approval_grace m w start Herrs Happroved Hblocker Hstart).
    cbv zeta. rewrite (remaining_fits _ _ _ Hfits). eexists. split; [reflexivity|].
    destruct (Z.geb_spec (approvalGracePeriod m - (clock w (S (tick w)) - start)) 0).
    + split; [intros _ | intros ?; lia].
      split; [done|]. icc_simpl. by rewrite lookup_insert.
    + split; [intros ?; lia | intros _; done].
Qed.

(** The default start, when the issue does not have the state label. *)
Lemma gracePeriodStart_default (bot lbl : string) (d : Time) (w : World) :
  lbl ∉ obj_Labels (obj w) -> (gracePeriodStart bot lbl d w).1 = Some d.
Proof.
  intros Hnot.
  pose proof (gracePeriodStart_run bot lbl d w) as (_ & _ & _ & _ & _ & ->).
  by rewrite bool_decide_eq_false_2.
Qed.

(** X10.  No removal on first detection.  When the issue does not yet
    carry the state label of its deficiency, the grace period starts at
    the first reading of the clock in this cycle; if the second reading
    is not earlier, and later by no more than the grace period, the
    issue is warned and not removed.  This holds for label errors and
    for a missing approval, for an issue that is no blocker. *)
Theorem first_detection_warns {pkg : Package} (m : MilestoneMaintainer) (w : World) :
  blockerLabel ∉ obj_Labels (obj w) ->
  clock w (tick w) <= clock w (S (tick w)) ->
  ((checkLabels (obj_Labels (obj w))).2 ≠ [] ->
   milestoneLabelsIncompleteLabel ∉ obj_Labels (obj w) ->
   clock w (S (tick w)) - clock w (tick w) <= labelGracePeriod m <= maxDuration ->
   exists icc, (issueChangeConfig m w).1 = Some icc
     /\ state icc = milestoneNeedsLabeling
     /\ "warnIncompleteLabels" ∈ enabledSections icc)
  /\ ((checkLabels (obj_Labels (obj w))).2 = [] ->
      statusApprovedLabel ∉ obj_Labels (obj w) ->
      milestoneNeedsApprovalLabel ∉ obj_Labels (obj w) ->
      clock w (S (tick w)) - clock w (tick w) <= approvalGracePeriod m <= maxDuration ->
      exists icc, (issueChangeConfig m w).1 = Some icc
        /\ state icc = milestoneNeedsApproval
        /\ "warnUnapproved" ∈ enabledSections icc).
Proof.
  intros Hblocker Hclock.
  assert (Hfits : forall gracePeriod : Z,
            clock w (S (tick w)) - clock w (tick w) <= gracePeriod <= maxDuration ->
            fitsDuration (clock w (S (tick w)) - clock w (tick w) - gracePeriod)).
  { unfold fitsDuration, minDuration, maxDuration. lia. }
  split.
  - intros Herrs Hlabel Hgrace.
    pose proof (gracePeriodStart_default (botName m) _ (clock w (tick w)) w Hlabel) as Hstart.
    rewrite (issueChangeConfig_label_grace m w _ Herrs Hblocker Hstart). cbv zeta.
    rewrite (remaining_fits _ _ _ (Hfits _ Hgrace)). eexists. split; [reflexivity|].
    destruct (Z.geb_spec (labelGracePeriod m - (clock w (S (tick w)) - clock w (tick w))) 0);
      [|lia].
    split; [done|]. icc_simpl. set_solver.
  - intros Herrs Happroved Hlabel Hgrace.
    pose proof (gracePeriodStart_default (botName m) _ (clock w (tick w)) w Hlabel) as Hstart.
    rewrite (issueChangeConfig_approval_grace m w _ Herrs Happroved Hblocker Hstart).
    cbv zeta. rewrite (remaining_fits _ _ _ (Hfits _ Hgrace)). eexists. split; [reflexivity|].
    destruct (Z.geb_spec (approvalGracePeriod m
                          - (clock w (S (tick w)) - clock w (tick w))) 0); [|lia].
    split; [done|]. icc_simpl. set_solver.
Qed.

(** ** Approved issues *)

(** X11.  Dev mode.  An approved issue with valid labels is current in
    dev mode, whether it is a blocker or not: the only section enabled is
    the label summary, and the run consults the blocker and the approved
    label and nothing else, neither the in-progress label nor the time of
    the last update. *)
Theorem dev_mode_requires_no_status {pkg : Package} (m : MilestoneMaintainer) (w : World) :
  (checkLabels (obj_Labels (obj w))).2 = [] ->
  statusApprovedLabel ∈ obj_Labels (obj w) ->
  mode m = milestoneModeDev ->
  exists icc : IssueChangeConfig,
    (issueChangeConfig m w).1 = Some icc
    /\ state icc = milestoneCurrent
    /\ enabledSections icc = {["summarizeLabels"]}
    /\ entries (issueChangeConfig m) w =
         [(Call_HasLabel blockerLabel, true); (Call_HasLabel statusApprovedLabel, true)].
Proof.
  intros Herrs Happroved Hmode.
  cut (wp (issueChangeConfig m) w (fun r w' =>
         exists icc, r = Some icc /\ state icc = milestoneCurrent
           /\ enabledSections icc = {["summarizeLabels"]}
           /\ trace w' = (trace w ++ [(Call_HasLabel blockerLabel, true);
                                       (Call_HasLabel statusApprovedLabel, true)])%list)).
  { unfold wp. intros (icc & Hr & Hstate & Hsec & Htrace).
    exists icc. repeat split; try done. by apply entries_intro. }
  unfold issueChangeConfig.
  rewrite <- (bool_decide_eq_true _) in Happroved.
  do 4 wp_step.
  destruct (checkLabels (obj_Labels (obj w))) as [[[kind priority] sigs] errs].
  cbn [snd] in Herrs. subst errs. cbn [length Nat.eqb].
  do 2 wp_step. rewrite Happroved, Hmode. cbn.
  wp_step. eexists. split; [reflexivity|]. split; [reflexivity|].
  split; [icc_simpl; set_solver|]. cbn [trace log set_trace]. by rewrite <- app_assoc.
Qed.

(** X12.  Outside dev and freeze mode, an approved issue with valid
    labels that is no blocker is never removed: it is current when it has
    the in-progress label and needs attention when it has not.  In both
    cases the note that it will leave the milestone at the freeze is
    enabled, and the time of its last update is not read. *)
Theorem slush_non_blocker_progress {pkg : Package} (m : MilestoneMaintainer) (w : World) :
  (checkLabels (obj_Labels (obj w))).2 = [] ->
  statusApprovedLabel ∈ obj_Labels (obj w) ->
  blockerLabel ∉ obj_Labels (obj w) ->
  mode m ≠ milestoneModeDev -> mode m ≠ milestoneModeFreeze ->
  exists icc : IssueChangeConfig,
    (issueChangeConfig m w).1 = Some icc
    /\ state icc = (if bool_decide (statusInProgressLabel ∈ obj_Labels (obj w))
                    then milestoneCurrent else milestoneNeedsAttention)
    /\ ("warnMissingInProgress" ∈ enabledSections icc <->
          statusInProgressLabel ∉ obj_Labels (obj w))
    /\ "warnNonBlockerRemoval" ∈ enabledSections icc
    /\ entries (issueChangeConfig m) w =
         [(Call_HasLabel blockerLabel, true); (Call_HasLabel statusApprovedLabel, true);
          (Call_HasLabel statusInProgressLabel, true)].
Proof.
  intros Herrs Happroved Hblocker Hdev Hfreeze.
  cut (wp (issueChangeConfig m) w (fun r w' =>
         exists icc, r = Some icc
           /\ state icc = (if bool_decide (statusInProgressLabel ∈ obj_Labels (obj w))
                           then milestoneCurrent else milestoneNeedsAttention)
           /\ ("warnMissingInProgress" ∈ enabledSections icc <->
                 statusInProgressLabel ∉ obj_Labels (obj w))
           /\ "warnNonBlockerRemoval" ∈ enabledSections icc
           /\ trace w' = (trace w ++ [(Call_HasLabel blockerLabel, true);
                                       (Call_HasLabel statusApprovedLabel, true);
                                       (Call_HasLabel statusInProgressLabel, true)])%list)).
  { unfold wp. intros (icc & Hr & Hstate & Hprogress & Hsec & Htrace).
    exists icc. repeat split; try done; try apply Hprogress. by apply entries_intro. }
  unfold issueChangeConfig.
  rewrite <- (bool_decide_eq_true _) in Happroved.
  rewrite <- (bool_decide_eq_false _) in Hblocker.
  apply String.eqb_neq in Hdev, Hfreeze.
  do 4 wp_step.
  destruct (checkLabels (obj_Labels (obj w))) as [[[kind priority] sigs] errs].
  cbn [snd] in Herrs. subst errs. cbn [length Nat.eqb].
  do 2 wp_step. rewrite Happroved, Hblocker, Hdev, Hfreeze. cbn [negb andb].
  do 2 wp_step.
  destruct (bool_decide (statusInProgressLabel ∈ obj_Labels (obj w))) eqn:Hprogress;
    [apply bool_decide_eq_true in Hprogress | apply bool_decide_eq_false in Hprogress];
    cbn [negb]; wp_step;
    (eexists; split; [reflexivity|]); (split; [reflexivity|]);
    (split; [icc_simpl; set_solver|]); (split; [icc_simpl; set_solver|]);
    cbn [trace log set_trace]; by rewrite <- !app_assoc.
Qed.

(** With valid options the update interval is positive outside dev mode. *)
Lemma updateInterval_valid (m : MilestoneMaintainer) :
  validOptions m -> mode m ≠ milestoneModeDev -> 0 < updateInterval m.
Proof.
  intros (_ & Hmode & _ & _ & _ & Hslush & Hfreeze & _) Hdev. unfold updateInterval.
  destruct Hmode as [? | [-> | ->]]; [done| |]; by cbn.
Qed.

(** Without a change, [Munge] makes no mutation. *)
Lemma Munge_no_change {pkg : Package} (m : MilestoneMaintainer) (w : World) :
  (issueChange m w).1 = None ->
  Forall (fun e => mutation e.1 = false) (entries (Munge m) w)
  /\ obj (Munge m w).2 = obj w.
Proof.
  intros Hnone.
  destruct (issueChange_emits m w) as (es & Htrace & Hobj & _ & Hread & _).
  destruct (Munge_without_change m w Hnone) as [Hw | Hw].
  - split; [|by rewrite Hw]. rewrite (entries_intro _ _ [] ); [done|].
    by rewrite Hw, app_nil_r.
  - split; [|by rewrite Hw]. rewrite (entries_intro _ _ es); [|by rewrite Hw].
    by apply read_not_mutation.
Qed.

(** X13.  The update check of a blocker.  With valid options and outside
    dev mode, an approved blocker with valid labels always has the time of
    its last update looked up, after the blocker, the approved and the
    in-progress label.  When the lookup fails no state is resolved, and
    the cycle makes no mutation and leaves the issue as it is.  When it
    succeeds the blocker needs attention if the update is older than the
    update interval or the in-progress label is missing, and is current
    otherwise; it is never removed. *)
Theorem blocker_update_check {pkg : Package} (m : MilestoneMaintainer) (w : World) :
  validOptions m ->
  (checkLabels (obj_Labels (obj w))).2 = [] ->
  statusApprovedLabel ∈ obj_Labels (obj w) ->
  blockerLabel ∈ obj_Labels (obj w) ->
  mode m ≠ milestoneModeDev ->
  entries (issueChangeConfig m) w =
    [ (Call_HasLabel blockerLabel, true); (Call_HasLabel statusApprovedLabel, true);
      (Call_HasLabel statusInProgressLabel, true);
      (Call_findLastModificationTime, isSome (obj_LastModificationTime (obj w))) ]
  /\ match obj_LastModificationTime (obj w) with
     | None =>
         (issueChangeConfig m w).1 = None
         /\ Forall (fun e => mutation e.1 = false) (entries (Munge m) w)
         /\ obj (Munge m w).2 = obj w
     | Some lastUpdateTime =>
         exists icc, (issueChangeConfig m w).1 = Some icc
           /\ state icc =
                (if (Sub (clock w (tick w)) lastUpdateTime >? updateInterval m)
                    || negb (bool_decide (statusInProgressLabel ∈ obj_Labels (obj w)))
                 then milestoneNeedsAttention else milestoneCurrent)
           /\ "warnUpdateInterval" ∈ enabledSections icc
     end.
Proof.
  intros Hvalid Herrs Happroved Hblocker Hdev.
  pose proof (updateInterval_valid m Hvalid Hdev) as Hinterval.
  assert (Hfreeze : String.eqb (mode m) milestoneModeFreeze && negb true = false)
    by apply andb_false_r.
  cut (wp (issueChangeConfig m) w (fun r w' =>
         trace w' = (trace w ++
           [ (Call_HasLabel blockerLabel, true); (Call_HasLabel statusApprovedLabel, true);
             (Call_HasLabel statusInProgressLabel, true);
             (Call_findLastModificationTime,
              isSome (obj_LastModificationTime (obj w))) ])%list
         /\ match obj_LastModificationTime (obj w) with
            | None => r = None
            | Some lastUpdateTime =>
                exists icc, r = Some icc
                  /\ state icc =
                       (if (Sub (clock w (tick w)) lastUpdateTime >? updateInterval m)
                           || negb (bool_decide
                                      (statusInProgressLabel ∈ obj_Labels (obj w)))
                        then milestoneNeedsAttention else milestoneCurrent)
                  /\ "warnUpdateInterval" ∈ enabledSections icc
            end)).
  { unfold wp. intros [Htrace Hr]. split; [by apply entries_intro|].
    destruct (obj_LastModificationTime (obj w)); [done|]. split; [done|].
    apply Munge_no_change. destruct (issueChange_config m w) as [_ Hchange].
    by rewrite Hr in Hchange. }
  unfold issueChangeConfig.
  rewrite <- (bool_decide_eq_true _) in Happroved.
  rewrite <- (bool_decide_eq_true _) in Hblocker.
  apply String.eqb_neq in Hdev. apply Z.gtb_lt in Hinterval.
  do 4 wp_step.
  destruct (checkLabels (obj_Labels (obj w))) as [[[kind priority] sigs] errs].
  cbn [snd] in Herrs. subst errs. cbn [length Nat.eqb].
  do 2 wp_step. rewrite Happroved, Hblocker, Hdev, Hfreeze, Hinterval. cbn [negb].
  do 4 wp_step.
  destruct (obj_LastModificationTime (obj w)) as [lastUpdateTime|]; cbn [isSome].
  - do 3 wp_step. split; [cbn [trace log set_trace]; by rewrite <- !app_assoc|].
    eexists. split; [reflexivity|].
    destruct (Sub (clock w (tick w)) lastUpdateTime >? updateInterval m),
      (bool_decide (statusInProgressLabel ∈ obj_Labels (obj w)));
      cbn [negb orb]; (split; [reflexivity | icc_simpl; set_solver]).
  - wp_step. split; [cbn [trace log set_trace]; by rewrite <- !app_assoc | done].
Qed.

(** ** The cycle of [Munge], further *)

(** X14.  Which objects are munged.  [ignoreObject] is true exactly for
    a pull request, a closed issue, an issue without a milestone or with
    an empty one, and an issue of a milestone other than the active one.
    [Munge] then returns at once: no call is made on the issue, the clock
    is not read, nothing changes. *)
Theorem Munge_ignores_other_objects {pkg : Package} (m : MilestoneMaintainer) (w : World) :
  ((ignoreObject (activeMilestone m) w).1 = true <->
     obj_IsPR (obj w) = true
     \/ obj_State (obj w) = Some "closed"
     \/ (obj_ReleaseMilestone (obj w)).2 = false
     \/ (obj_ReleaseMilestone (obj w)).1 = EmptyString
     \/ (obj_ReleaseMilestone (obj w)).1 ≠ activeMilestone m)
  /\ ((ignoreObject (activeMilestone m) w).1 = true -> Munge m w = (tt, w)).
Proof.
  split.
  - unfold ignoreObject, bind, getObj, ret. cbn [fst snd].
    destruct (obj_IsPR (obj w)); [cbn; tauto|].
    case_bool_decide as Hclosed; [cbn; tauto|].
    destruct (obj_ReleaseMilestone (obj w)) as [milestone ok]. cbn [fst snd].
    destruct ok; cbn [negb orb]; [|cbn; tauto].
    destruct milestone as [|c milestone]; cbn [nonEmpty negb fst]; [tauto|].
    rewrite negb_true_iff, String.eqb_neq. split; [tauto|].
    intros [?|[?|[?|[?|?]]]]; done.
  - intros Hignore. unfold Munge, bind.
    pose proof (ignoreObject_world (activeMilestone m) w) as Hw.
    destruct (ignoreObject (activeMilestone m) w) as [ignore w0].
    cbn [fst snd] in *. by subst.
Qed.

Lemma wp_mutate (c : Call) (effect : MungeObject -> MungeObject) (w : World)
    (Q : bool -> World -> Prop) :
  (fails w c = true -> Q false (log (c, false) w)) ->
  (fails w c = false -> Q true (set_obj (effect (obj w)) (log (c, true) w))) ->
  wp (mutate c effect) w Q.
Proof. unfold wp, mutate. destruct (fails w c); auto. Qed.

(** Which calls fail does not change during the synchronisation of the
    state label. *)
Lemma removeOtherStateLabels_fails (labelName : string) (stateLabels : list string)
    (w : World) :
  wp (removeOtherStateLabels labelName stateLabels) w (fun _ w' => fails w' = fails w).
Proof.
  revert w. induction stateLabels as [|stateLabel rest IH]; intros w;
    cbn [removeOtherStateLabels].
  - by apply wp_ret.
  - repeat first
      [ wp_step
      | unfold RemoveLabel; apply wp_mutate; intros Hfails
      | eapply wp_conseq; [apply IH|]; intros ok' w'' Hfails' ];
      try done.
Qed.

Lemma updateMilestoneStateLabel_fails (labelName : string) (w : World) :
  fails (updateMilestoneStateLabel labelName w).2 = fails w.
Proof.
  change (wp (updateMilestoneStateLabel labelName) w (fun _ w' => fails w' = fails w)).
  unfold updateMilestoneStateLabel.
  repeat first
    [ wp_step
    | unfold AddLabel; apply wp_mutate; intros Hfails
    | eapply wp_conseq; [apply removeOtherStateLabels_fails|]; intros ok' w'' Hfails' ];
    try done.
Qed.

Lemma latestNotificationComment_fails {pkg : Package} (bot : string) (w : World) :
  fails (latestNotificationComment bot w).2 = fails w.
Proof.
  change (wp (latestNotificationComment bot) w (fun _ w' => fails w' = fails w)).
  unfold latestNotificationComment. by repeat wp_step.
Qed.

Lemma notificationIsCurrent_fails {pkg : Package} (n : Notification)
    (comment : option Comment) (interval : option Duration) (w : World) :
  fails (notificationIsCurrent n comment interval w).2 = fails w.
Proof.
  unfold notificationIsCurrent.
  destruct (negb _); [done|].
  destruct interval as [i|]; [|done].
  destruct comment as [cm|]; [|done].
  by destruct (cm_CreatedAt cm).
Qed.

(** The end of a cycle that got as far as listing the comments. *)
Lemma Munge_after_comments {pkg : Package} (m : MilestoneMaintainer) (change : IssueChange)
    (comment : option Comment) (w0 w1 w2 w3 : World) :
  ignoreObject (activeMilestone m) w0 = (false, w0) ->
  issueChange m w0 = (Some change, w1) ->
  updateMilestoneStateLabel (change_label change) w1 = (true, w2) ->
  latestNotificationComment (botName m) w2 = ((comment, true), w3) ->
  exists before,
    entries (Munge m) w0 =
      (before ++ commentAndMilestoneCalls (fails w0) change comment
         (notificationIsCurrent (notification change) comment
            (commentInterval change) w3).1)%list
    /\ Forall (fun e => resolutionRead e.1 = true \/ labelSync e.1 = true
                        \/ e.1 = Call_ListComments) before.
Proof.
  intros Hignore Hchange Hlabel Hcomment.
  destruct (issueChange_emits m w0) as (es1 & Htr1 & _ & Hf1 & Hread & _).
  destruct (updateMilestoneStateLabel_emits (change_label change) w1)
    as (es2 & Htr2 & Hsync & _).
  destruct (latestNotificationComment_emits (botName m) w2) as (es3 & Htr3 & ok & -> & _).
  pose proof (updateMilestoneStateLabel_fails (change_label change) w1) as Hf2.
  pose proof (latestNotificationComment_fails (botName m) w2) as Hf3.
  pose proof (notificationIsCurrent_trace (notification change) comment
                (commentInterval change) w3) as Htr4.
  pose proof (notificationIsCurrent_fails (notification change) comment
                (commentInterval change) w3) as Hf4.
  rewrite Hchange in Htr1, Hf1. rewrite Hlabel in Htr2, Hf2. rewrite Hcomment in Htr3, Hf3.
  cbn [fst snd] in *.
  destruct (notificationIsCurrent (notification change) comment
              (commentInterval change) w3) as [current w4] eqn:Hrun.
  cbn [fst snd] in *.
  assert (Hfails : fails w4 = fails w0) by congruence.
  assert (Htrace : trace w4 = (trace w0 ++ es1 ++ es2 ++ [(Call_ListComments, ok)])%list).
  { rewrite Htr4, Htr3, Htr2, Htr1. by rewrite <- !app_assoc. }
  exists (es1 ++ es2 ++ [(Call_ListComments, ok)])%list. split.
  - apply entries_intro. rewrite app_assoc, <- Htrace.
    unfold Munge, bind. rewrite Hignore. cbv beta iota. rewrite Hchange. cbv beta iota.
    rewrite Hlabel. cbn [negb]. cbv beta iota. rewrite Hcomment. cbn [negb].
    cbv beta iota. rewrite Hrun. cbv beta iota.
    unfold commentAndMilestoneCalls, clearIfRemoved, DeleteComment, Post, ClearMilestone,
      bind, mutate, ret. rewrite <- Hfails.
    destruct current, comment as [cm|], (removeFromMilestone change);
      cbn [negb];
      repeat match goal with
        | |- context [fails ?w ?c] =>
            let b := eval cbn [fails log set_trace set_obj] in (fails w c) in
            change (fails w c) with b;
            destruct b eqn:?; cbn [negb fst snd]
        end;
      cbn [trace log set_trace set_obj fst snd]; by rewrite <- ?app_assoc, ?app_nil_r.
  - rewrite !Forall_app. split; [|split].
    + eapply Forall_impl; [exact Hread|]. auto.
    + eapply Forall_impl; [exact Hsync|]. auto.
    + constructor; [cbn; auto | constructor].
Qed.

Lemma filter_none {A : Type} (P : A -> Prop) `{forall x, Decision (P x)} (l : list A) :
  Forall (fun x => ~ P x) l -> filter P l = [].
Proof.
  induction 1 as [|x l Hx Hl IH]; [done|]. by rewrite filter_cons, decide_False.
Qed.

(** X15.  Replacing a notification that is not current.  In a cycle that
    resolved a change, synchronised the state label and listed the
    comments, and in which the latest notification comment of the munger
    is not current: that comment, if there is one, is deleted first, and
    the new notification is posted only if the deletion succeeded.  No
    other comment is deleted, and nothing else is posted. *)
Theorem stale_notification_replaced {pkg : Package} (m : MilestoneMaintainer)
    (change : IssueChange) (comment : option Comment) (w0 w1 w2 w3 : World) :
  ignoreObject (activeMilestone m) w0 = (false, w0) ->
  issueChange m w0 = (Some change, w1) ->
  updateMilestoneStateLabel (change_label change) w1 = (true, w2) ->
  latestNotificationComment (botName m) w2 = ((comment, true), w3) ->
  (notificationIsCurrent (notification change) comment (commentInterval change) w3).1
    = false ->
  filter (fun e => commentMutation e.1 = true) (entries (Munge m) w0) =
    let post := (Call_Post (notification change),
                 negb (fails w0 (Call_Post (notification change)))) in
    match comment with
    | Some cm =>
        if fails w0 (Call_DeleteComment (cm_ID cm))
        then [(Call_DeleteComment (cm_ID cm), false)]
        else [(Call_DeleteComment (cm_ID cm), true); post]
    | None => [post]
    end.
Proof.
  intros Hignore Hchange Hlabel Hcomment Hcurrent.
  destruct (Munge_after_comments m change comment w0 w1 w2 w3 Hignore Hchange Hlabel Hcomment)
    as (before & -> & Hbefore).
  rewrite Hcurrent, filter_app, filter_none.
  - unfold commentAndMilestoneCalls. cbv zeta.
    destruct comment as [cm|], (removeFromMilestone change);
      repeat match goal with
        | |- context [fails w0 ?c] => destruct (fails w0 c)
        end; reflexivity.
  - eapply Forall_impl; [exact Hbefore|]. intros [c ok]. cbn.
    destruct c; cbn; intros [?|[?|?]]; done.
Qed.

(** X16.  When the issue leaves the milestone.  In a cycle that resolved
    a change, synchronised the state label and listed the comments, the
    milestone is cleared exactly when the change removes the issue from
    the milestone and the comment is up to date: either it was found
    current, or the old one was deleted and the new one posted without
    a failure. *)
Theorem milestone_cleared_iff {pkg : Package} (m : MilestoneMaintainer)
    (change : IssueChange) (comment : option Comment) (w0 w1 w2 w3 : World) :
  ignoreObject (activeMilestone m) w0 = (false, w0) ->
  issueChange m w0 = (Some change, w1) ->
  updateMilestoneStateLabel (change_label change) w1 = (true, w2) ->
  latestNotificationComment (botName m) w2 = ((comment, true), w3) ->
  let current :=
    (notificationIsCurrent (notification change) comment (commentInterval change) w3).1 in
  let deleteFails :=
    match comment with
    | Some cm => fails w0 (Call_DeleteComment (cm_ID cm))
    | None => false
    end in
  let postFails := fails w0 (Call_Post (notification change)) in
  (exists ok, (Call_ClearMilestone, ok) ∈ entries (Munge m) w0) <->
  removeFromMilestone change = true
  /\ (current = true \/ (deleteFails = false /\ postFails = false)).
Proof.
  intros Hignore Hchange Hlabel Hcomment current deleteFails postFails.
  destruct (Munge_after_comments m change comment w0 w1 w2 w3 Hignore Hchange Hlabel Hcomment)
    as (before & -> & Hbefore).
  fold current. subst deleteFails postFails.
  assert (Hnot : forall ok, (Call_ClearMilestone, ok) ∉ before).
  { intros ok Hin. rewrite Forall_forall in Hbefore.
    by destruct (Hbefore _ Hin) as [?|[?|?]]. }
  unfold commentAndMilestoneCalls.
  destruct current, comment as [cm|], (removeFromMilestone change);
    repeat match goal with
      | |- context [fails w0 (Call_DeleteComment ?c)] =>
          destruct (fails w0 (Call_DeleteComment c))
      | |- context [fails w0 (Call_Post ?n)] => destruct (fails w0 (Call_Post n))
      end;
    (split;
     [ intros [ok Hin]; apply elem_of_app in Hin as [Hin|Hin]; [by apply Hnot in Hin|];
       first [ by apply elem_of_nil in Hin
             | split; [done|]; by auto
             | exfalso; set_solver ]
     | intros [Hremove Hupdated];
       first [ done
             | by destruct Hupdated as [?|[? ?]]
             | exists (negb (fails w0 Call_ClearMilestone));
               apply elem_of_app; right; set_solver ] ]).
Qed.

(** ** The synchronisation of the state label *)

Lemma emits_mutate_world (c : Call) (effect : MungeObject -> MungeObject) (w : World)
    (P : bool -> World -> list (Call * bool) -> Prop) :
  (fails w c = true -> P false (log (c, false) w) [(c, false)]) ->
  (fails w c = false ->
   P true (set_obj (effect (obj w)) (log (c, true) w)) [(c, true)]) ->
  emits (mutate c effect) w P.
Proof.
  intros Hfalse Htrue. unfold emits, mutate.
  destruct (fails w c); eexists; (split; [reflexivity | auto]).
Qed.

Lemma removeOtherStateLabels_calls (labelName : string) (labels : list string)
    (stateLabels : list string) (w : World) :
  Forall (fun stateLabel => stateLabel ∈ milestoneStateLabels) stateLabels ->
  (forall name, name ≠ labelName -> name ∈ obj_Labels (obj w) -> name ∈ labels) ->
  emits (removeOtherStateLabels labelName stateLabels) w (fun _ _ es =>
    Forall (fun e => labelSyncCall labelName labels e.1) es).
Proof.
  revert w. induction stateLabels as [|stateLabel rest IH]; intros w Hstate Hlabels;
    cbn [removeOtherStateLabels].
  - apply emits_ret. constructor.
  - apply Forall_cons in Hstate as [Hstate Hrest].
    destruct (String.eqb stateLabel labelName) eqn:Heq; cbn [negb]; [by apply IH|].
    apply String.eqb_neq in Heq. apply emits_bind, emits_HasLabel.
    destruct (bool_decide (stateLabel ∈ obj_Labels (obj w))) eqn:Hhas.
    + apply bool_decide_eq_true in Hhas.
      apply emits_bind. unfold RemoveLabel. apply emits_mutate_world; intros Hfails;
        cbn [negb].
      * apply emits_ret. cbn [app]. repeat (constructor; [cbn; auto|]). constructor.
      * eapply emits_conseq.
        -- apply IH; [done|]. cbn [obj set_obj log set_trace set_Labels obj_Labels].
           intros name Hne [_ Hin]%list_elem_of_filter. by apply Hlabels.
        -- intros ok w' es Hes. cbn [app]. repeat (constructor; [cbn; auto|]). done.
    + eapply emits_conseq; [apply IH; done|].
      intros ok w' es Hes. cbn [app]. constructor; [cbn; auto | done].
Qed.

(** X17.  The synchronisation of the state label touches state labels
    only.  Whatever the issue and whichever calls fail, every call of
    [updateMilestoneStateLabel] asks for the given label or a state
    label, adds the given label (only if it is not empty and the issue
    did not have it), or removes a state label that the issue had and
    that is not the given one. *)
Theorem updateMilestoneStateLabel_state_labels_only (labelName : string) (w : World) :
  Forall (fun e => labelSyncCall labelName (obj_Labels (obj w)) e.1)
         (entries (updateMilestoneStateLabel labelName) w).
Proof.
  cut (emits (updateMilestoneStateLabel labelName) w (fun _ _ es =>
         Forall (fun e => labelSyncCall labelName (obj_Labels (obj w)) e.1) es)).
  { intros (es & Htrace & Hes). by rewrite (entries_intro _ _ _ Htrace). }
  assert (Hstate : Forall (fun stateLabel => stateLabel ∈ milestoneStateLabels)
                     milestoneStateLabels) by (by apply Forall_forall).
  unfold updateMilestoneStateLabel.
  destruct (nonEmpty labelName) eqn:Hname; [|by apply removeOtherStateLabels_calls].
  apply nonEmpty_true in Hname. apply emits_bind, emits_HasLabel.
  destruct (bool_decide (labelName ∈ obj_Labels (obj w))) eqn:Hhas; cbn [negb].
  - eapply emits_conseq; [by apply removeOtherStateLabels_calls|].
    intros ok w' es Hes. cbn [app]. constructor; [cbn; auto | done].
  - apply bool_decide_eq_false in Hhas.
    apply emits_bind. unfold AddLabel. apply emits_mutate_world; intros Hfails; cbn [negb].
    + apply emits_ret. cbn [app]. repeat (constructor; [cbn; auto|]). constructor.
    + eapply emits_conseq.
      * apply removeOtherStateLabels_calls; [done|].
        cbn [obj set_obj log set_trace set_Labels obj_Labels].
        intros name Hne [Hin|Hin%list_elem_of_singleton]%elem_of_app; done.
      * intros ok w' es Hes. cbn [app]. repeat (constructor; [cbn; auto|]). done.
Qed.

Lemma removeOtherStateLabels_in_sync (labelName : string) (stateLabels : list string)
    (w : World) :
  Forall (fun stateLabel => stateLabel = labelName \/ stateLabel ∉ obj_Labels (obj w))
         stateLabels ->
  emits (removeOtherStateLabels labelName stateLabels) w (fun ok w' es =>
    ok = true /\ obj w' = obj w /\ Forall (fun e => mutation e.1 = false) es).
Proof.
  revert w. induction stateLabels as [|stateLabel rest IH]; intros w Hsync;
    cbn [removeOtherStateLabels].
  - apply emits_ret. repeat split. constructor.
  - apply Forall_cons in Hsync as [Hlabel Hrest].
    destruct (String.eqb stateLabel labelName) eqn:Heq; cbn [negb]; [by apply IH|].
    apply String.eqb_neq in Heq. destruct Hlabel as [?|Hnot]; [done|].
    apply emits_bind, emits_HasLabel. rewrite bool_decide_eq_false_2 by done.
    eapply emits_conseq; [apply IH; done|].
    intros ok w' es (-> & Hobj & Hes). cbn [app]. repeat split; [done|].
    constructor; [done | done].
Qed.

(** The run on an issue whose state label is in place. *)
Lemma updateMilestoneStateLabel_sync_emits (labelName : string) (w : World) :
  stateLabelInSync labelName (obj_Labels (obj w)) ->
  emits (updateMilestoneStateLabel labelName) w (fun ok w' es =>
    ok = true /\ obj w' = obj w /\ Forall (fun e => mutation e.1 = false) es).
Proof.
  intros [Hlabel Hothers]. unfold updateMilestoneStateLabel.
  destruct (nonEmpty labelName) eqn:Hname; [|by apply removeOtherStateLabels_in_sync].
  apply nonEmpty_true in Hname. destruct Hlabel as [?|Hhas]; [done|].
  apply emits_bind, emits_HasLabel. rewrite bool_decide_eq_true_2 by done. cbn [negb].
  eapply emits_conseq; [by apply removeOtherStateLabels_in_sync|].
  intros ok w' es (-> & Hobj & Hes). cbn [app]. repeat split; [done|].
  constructor; [done | done].
Qed.

(** X18.  An issue whose state label is in place is left alone.  When
    the issue has the given state label (or none is asked for) and no
    other state label, [updateMilestoneStateLabel] succeeds, only asks
    for labels, and leaves the issue as it is. *)
Theorem updateMilestoneStateLabel_in_sync (labelName : string) (w : World) :
  stateLabelInSync labelName (obj_Labels (obj w)) ->
  (updateMilestoneStateLabel labelName w).1 = true
  /\ obj (updateMilestoneStateLabel labelName w).2 = obj w
  /\ Forall (fun e => mutation e.1 = false)
            (entries (updateMilestoneStateLabel labelName) w).
Proof.
  intros Hsync.
  destruct (updateMilestoneStateLabel_sync_emits labelName w Hsync)
    as (es & Htrace & Hok & Hobj & Hes).
  by rewrite (entries_intro _ _ _ Htrace).
Qed.

Lemma removeOtherStateLabels_effect (labelName : string) (stateLabels : list string)
    (w : World) :
  (forall c, fails w c = false) ->
  wp (removeOtherStateLabels labelName stateLabels) w (fun ok w' =>
    ok = true
    /\ forall name, name ∈ obj_Labels (obj w') <->
         name ∈ obj_Labels (obj w) /\ (name ∈ stateLabels -> name = labelName)).
Proof.
  revert w. induction stateLabels as [|stateLabel rest IH]; intros w Hfails;
    cbn [removeOtherStateLabels].
  - apply wp_ret. split; [done|]. intros name. rewrite elem_of_nil. tauto.
  - destruct (String.eqb stateLabel labelName) eqn:Heq; cbn [negb].
    + apply String.eqb_eq in Heq. subst stateLabel.
      eapply wp_conseq; [apply IH; intros c; apply Hfails|]. intros ok w' [-> Hlabels]. split; [done|].
      intros name. rewrite Hlabels, elem_of_cons. naive_solver.
    + apply String.eqb_neq in Heq. apply wp_bind, wp_HasLabel.
      destruct (bool_decide (stateLabel ∈ obj_Labels (obj w))) eqn:Hhas.
      * apply wp_bind. unfold RemoveLabel.
        apply wp_mutate; intros Hf; cbn [fails log set_trace set_obj] in Hf;
          [by rewrite Hfails in Hf|]. cbn [negb].
        eapply wp_conseq; [apply IH; intros c; apply Hfails|]. intros ok w' [-> Hlabels]. split; [done|].
        intros name. rewrite Hlabels, elem_of_cons.
        cbn [obj set_obj log set_trace set_Labels obj_Labels].
        rewrite list_elem_of_filter. naive_solver.
      * apply bool_decide_eq_false in Hhas.
        eapply wp_conseq; [apply IH; intros c; apply Hfails|]. intros ok w' [-> Hlabels]. split; [done|].
        intros name. rewrite Hlabels, elem_of_cons.
        cbn [obj set_obj log set_trace set_Labels obj_Labels]. naive_solver.
Qed.

(** The labels of the issue after a run in which no call fails. *)
Lemma updateMilestoneStateLabel_effect (labelName : string) (w : World) :
  (forall c, fails w c = false) ->
  wp (updateMilestoneStateLabel labelName) w (fun ok w' =>
    ok = true
    /\ forall name, name ∈ obj_Labels (obj w') <->
         (name ∈ obj_Labels (obj w) \/ (name = labelName /\ labelName ≠ EmptyString))
         /\ (name ∈ milestoneStateLabels -> name = labelName)).
Proof.
  intros Hfails. unfold updateMilestoneStateLabel.
  destruct (nonEmpty labelName) eqn:Hname.
  - apply nonEmpty_true in Hname. apply wp_bind, wp_HasLabel.
    destruct (bool_decide (labelName ∈ obj_Labels (obj w))) eqn:Hhas; cbn [negb].
    + apply bool_decide_eq_true in Hhas.
      eapply wp_conseq; [apply removeOtherStateLabels_effect; intros c; apply Hfails|].
      intros ok w' [-> Hlabels]. split; [done|]. intros name. rewrite Hlabels.
      cbn [obj set_obj log set_trace set_Labels obj_Labels]. naive_solver.
    + apply wp_bind. unfold AddLabel.
      apply wp_mutate; intros Hf; cbn [fails log set_trace set_obj] in Hf;
          [by rewrite Hfails in Hf|]. cbn [negb].
      eapply wp_conseq; [apply removeOtherStateLabels_effect; intros c; apply Hfails|].
      intros ok w' [-> Hlabels]. split; [done|]. intros name. rewrite Hlabels.
      cbn [obj set_obj log set_trace set_Labels obj_Labels].
      rewrite elem_of_app, list_elem_of_singleton. naive_solver.
  - assert (labelName = EmptyString) as -> by (by destruct labelName).
    eapply wp_conseq; [apply removeOtherStateLabels_effect; intros c; apply Hfails|].
    intros ok w' [-> Hlabels]. split; [done|]. intros name. rewrite Hlabels. naive_solver.
Qed.

(** X19.  The given label becomes the only state label.  When no call
    fails, [updateMilestoneStateLabel] succeeds, and afterwards the issue
    has the given label (if it is not empty), has no other state label,
    and has every other label exactly if it had it before.  This is for
    [AddLabel] adding the label to the issue and [RemoveLabel] taking it
    from the issue, as they are modelled above. *)
Theorem updateMilestoneStateLabel_only_state_label (labelName : string) (w : World) :
  (forall c, fails w c = false) ->
  (updateMilestoneStateLabel labelName w).1 = true
  /\ (labelName ≠ EmptyString ->
      labelName ∈ obj_Labels (obj (updateMilestoneStateLabel labelName w).2))
  /\ (forall stateLabel, stateLabel ∈ milestoneStateLabels -> stateLabel ≠ labelName ->
        stateLabel ∉ obj_Labels (obj (updateMilestoneStateLabel labelName w).2))
  /\ (forall name, name ∉ milestoneStateLabels -> name ≠ labelName ->
        name ∈ obj_Labels (obj (updateMilestoneStateLabel labelName w).2)
        <-> name ∈ obj_Labels (obj w)).
Proof.
  intros Hfails.
  destruct (updateMilestoneStateLabel_effect labelName w Hfails) as [Hok Hlabels].
  split; [done|]. split; [|split].
  - intros Hname. apply Hlabels. split; [by right | done].
  - intros stateLabel Hstate Hne Hin. apply Hlabels in Hin as [_ Hin]. by apply Hne, Hin.
  - intros name Hstate Hne. rewrite Hlabels. naive_solver.
Qed.

(** X20.  The synchronisation of the state label is idempotent.  After a
    run in which no call failed, a second run with the same label makes
    no mutation and leaves the issue as the first run left it.  This is
    for [AddLabel] and [RemoveLabel] as they are modelled above. *)
Theorem updateMilestoneStateLabel_idempotent (labelName : string) (w : World) :
  (forall c, fails w c = false) ->
  let w' := (updateMilestoneStateLabel labelName w).2 in
  (updateMilestoneStateLabel labelName w').1 = true
  /\ obj (updateMilestoneStateLabel labelName w').2 = obj w'
  /\ Forall (fun e => mutation e.1 = false)
            (entries (updateMilestoneStateLabel labelName) w').
Proof.
  intros Hfails w'.
  destruct (updateMilestoneStateLabel_effect labelName w Hfails) as [_ Hlabels].
  fold w' in Hlabels.
  assert (Hsync : stateLabelInSync labelName (obj_Labels (obj w'))).
  { split.
    - destruct labelName as [|c labelName]; [by left|]. right.
      apply Hlabels. split; [by right | done].
    - apply Forall_forall. intros stateLabel Hstate.
      destruct (decide (stateLabel = labelName)) as [?|Hne]; [by left|]. right.
      intros [_ Hin]%Hlabels. by apply Hne, Hin. }
  destruct (updateMilestoneStateLabel_sync_emits labelName w' Hsync)
    as (es & Htrace & Hok & Hobj & Hes).
  by rewrite (entries_intro _ _ _ Htrace).
Qed.

(** ** The sections of the message *)

(** The state resolution stores no argument under the name of a section. *)
Lemma issueChangeConfig_section_arguments {pkg : Package} (m : MilestoneMaintainer)
    (w : World) :
  wp (issueChangeConfig m) w (fun r _ =>
    match r with
    | Some icc => Forall (fun k => templateArguments icc !! k = None) messageSectionNames
    | None => True
    end).
Proof.
  unfold issueChangeConfig. do 4 wp_step.
  destruct (checkLabels (obj_Labels (obj w))) as [[[kind priority] sigs] errs].
  repeat first
    [ wp_step
    | eapply wp_conseq; [apply gracePeriodRemaining_run|]; intros [? ?] ? _ ];
    try done;
    repeat match goal with
      | |- context [if ?b then _ else _] => destruct b
      end;
    repeat (constructor; [by vm_compute|]); constructor.
Qed.

(** X21.  Which sections of the message are rendered.  For every
    resolved configuration and every section of the template, the section
    is rendered exactly when it is enabled and, if the issue is to be
    removed from the milestone, its name starts with [remove]: in the
    removal state the other sections are suppressed although they are
    enabled. *)
Theorem sections_rendered {pkg : Package} (m : MilestoneMaintainer) (w : World)
    (icc : IssueChangeConfig) (sectionName : string) :
  (issueChangeConfig m w).1 = Some icc ->
  sectionName ∈ messageSectionNames ->
  tplIf (messageBodyArguments icc) sectionName =
    bool_decide (sectionName ∈ enabledSections icc)
    && (bool_decide (state icc ≠ milestoneNeedsRemoval)
        || String.prefix "remove" sectionName).
Proof.
  intros Hicc Hsection.
  pose proof (issueChangeConfig_section_arguments m w) as Hargs. unfold wp in Hargs.
  rewrite Hicc in Hargs. rewrite Forall_forall in Hargs.
  unfold tplIf. rewrite messageBodyArguments_lookup, (Hargs _ Hsection).
  rewrite bool_decide_eq_false_2.
  - unfold switchedOn. by destruct (_ && _).
  - intros ->. revert Hsection. apply (bool_decide_unpack _). by vm_compute.
Qed.

(** ** A cycle that removes the issue *)

Lemma removeOtherStateLabels_comments (labelName : string) (stateLabels : list string)
    (w : World) :
  wp (removeOtherStateLabels labelName stateLabels) w (fun _ w' =>
    obj_Comments (obj w') = obj_Comments (obj w)).
Proof.
  revert w. induction stateLabels as [|stateLabel rest IH]; intros w;
    cbn [removeOtherStateLabels].
  - by apply wp_ret.
  - repeat first
      [ wp_step
      | unfold RemoveLabel; apply wp_mutate; intros Hfails
      | eapply wp_conseq; [apply IH|]; intros ok' w'' Hcomments ];
      try done.
Qed.

Lemma updateMilestoneStateLabel_comments (labelName : string) (w : World) :
  obj_Comments (obj (updateMilestoneStateLabel labelName w).2) = obj_Comments (obj w).
Proof.
  change (wp (updateMilestoneStateLabel labelName) w (fun _ w' =>
            obj_Comments (obj w') = obj_Comments (obj w))).
  unfold updateMilestoneStateLabel.
  repeat first
    [ wp_step
    | unfold AddLabel; apply wp_mutate; intros Hfails
    | eapply wp_conseq; [apply removeOtherStateLabels_comments|];
      intros ok' w'' Hcomments ];
    try done.
Qed.

Lemma latestNotificationComment_ok {pkg : Package} (bot : string) (w : World) :
  (latestNotificationComment bot w).1.2 = isSome (obj_Comments (obj w)).
Proof.
  change (wp (latestNotificationComment bot) w (fun r _ =>
            r.2 = isSome (obj_Comments (obj w)))).
  unfold latestNotificationComment. by repeat wp_step.
Qed.

(** X22.  A cycle in which nothing fails.  For an issue that is not
    ignored and whose state is resolved, when no call fails and the
    comments of the issue can be listed, the cycle clears the milestone
    exactly when the resolved state is [milestoneNeedsRemoval], and
    clearing the milestone is then its last call.  The comments are
    listed after the label calls, which are taken not to touch them, as
    [AddLabel] and [RemoveLabel] are modelled above. *)
Theorem removal_cycle_clears_milestone {pkg : Package} (m : MilestoneMaintainer)
    (w : World) (icc : IssueChangeConfig) (comments : list Comment) :
  (ignoreObject (activeMilestone m) w).1 = false ->
  (issueChangeConfig m w).1 = Some icc ->
  (forall c, fails w c = false) ->
  obj_Comments (obj w) = Some comments ->
  ((exists ok, (Call_ClearMilestone, ok) ∈ entries (Munge m) w) <->
     state icc = milestoneNeedsRemoval)
  /\ (state icc = milestoneNeedsRemoval ->
      last (entries (Munge m) w) = Some (Call_ClearMilestone, true)).
Proof.
  intros Hignore Hicc Hfails Hcomments.
  assert (Hignored : ignoreObject (activeMilestone m) w = (false, w)).
  { pose proof (ignoreObject_world (activeMilestone m) w) as Hw.
    destruct (ignoreObject (activeMilestone m) w) as [ignore w0].
    cbn [fst snd] in *. by subst. }
  destruct (issueChange_config m w) as [_ Hconfig]. rewrite Hicc in Hconfig.
  destruct Hconfig as (change & Hchange & _ & Hremove & _).
  destruct (issueChange_emits m w) as (es1 & _ & Hobj1 & Hfails1 & _).
  destruct (issueChange m w) as [r w1] eqn:Hrun1. cbn [fst snd] in *. subst r.
  assert (Hf1 : forall c, fails w1 c = false) by (intros c; by rewrite Hfails1).
  destruct (updateMilestoneStateLabel_effect (change_label change) w1 Hf1) as [Hok _].
  pose proof (updateMilestoneStateLabel_fails (change_label change) w1) as Hfails2.
  pose proof (updateMilestoneStateLabel_comments (change_label change) w1) as Hcomments2.
  destruct (updateMilestoneStateLabel (change_label change) w1) as [ok w2] eqn:Hrun2.
  cbn [fst snd] in *. subst ok.
  pose proof (latestNotificationComment_ok (botName m) w2) as Hlisted.
  rewrite Hcomments2, Hobj1, Hcomments in Hlisted.
  destruct (latestNotificationComment (botName m) w2) as [[comment ok] w3] eqn:Hrun3.
  cbn [fst snd isSome] in Hlisted. subst ok.
  destruct (Munge_after_comments m change comment w w1 w2 w3 Hignored Hrun1 Hrun2 Hrun3)
    as (before & -> & Hbefore).
  assert (Hnot : forall ok, (Call_ClearMilestone, ok) ∉ before).
  { intros ok Hin. rewrite Forall_forall in Hbefore.
    by destruct (Hbefore _ Hin) as [?|[?|?]]. }
  unfold commentAndMilestoneCalls. rewrite !Hfails, Hremove. cbn [negb].
  assert (Hlast : forall l : list (Call * bool),
            last (before ++ l ++ [(Call_ClearMilestone, true)])
              = Some (Call_ClearMilestone, true)).
  { intros l. by rewrite !app_assoc, last_snoc. }
  destruct (notificationIsCurrent _ _ _ w3).1, comment as [cm|]; rewrite ?Hfails;
    (case_bool_decide as Hstate;
     [ split; [|intros _; first [apply (Hlast []) | apply (Hlast [_]) | apply (Hlast [_; _])]];
       split; [done|]; intros _; exists true; apply elem_of_app; right; set_solver
     | split; [|done]; split; [|done];
       intros [ok Hin]; apply elem_of_app in Hin as [Hin|Hin];
       [by apply Hnot in Hin | exfalso; set_solver] ]).
Qed.

(** ** The comment of the munger *)

Lemma last_filter {A : Type} (P : A -> Prop) `{forall x, Decision (P x)} (l : list A) :
  match last (filter P l) with
  | Some x =>
      exists before after, l = (before ++ x :: after)%list /\ P x
        /\ Forall (fun y => ~ P y) after
  | None => Forall (fun y => ~ P y) l
  end.
Proof.
  induction l as [|a l IH]; [by constructor|].
  rewrite filter_cons. destruct (decide (P a)) as [Ha|Ha].
  - rewrite last_cons. destruct (last (filter P l)) as [x|].
    + destruct IH as (before & after & -> & Hx & Hafter). by exists (a :: before), after.
    + by exists [], l.
  - destruct (last (filter P l)) as [x|].
    + destruct IH as (before & after & -> & Hx & Hafter). by exists (a :: before), after.
    + by constructor.
Qed.

(** What [latestNotificationComment] returns, from the comments of the
    issue. *)
Lemma latestNotificationComment_result {pkg : Package} (bot : string) (w : World) :
  (latestNotificationComment bot w).1 =
    match obj_Comments (obj w) with
    | Some comments =>
        (last (filter (fun c => MungerNotificationName milestoneNotifierName bot c = true)
                 comments), true)
    | None => (None, false)
    end.
Proof.
  match goal with |- ?lhs = ?rhs =>
    change (wp (latestNotificationComment bot) w (fun r _ => r = rhs)) end.
  unfold latestNotificationComment. by repeat wp_step.
Qed.

(** X23.  The latest notification comment.  When the comments cannot be
    listed, [latestNotificationComment] is not [ok].  Otherwise it is
    [ok] and returns the last comment of the issue that is a
    notification of this munger: no comment after it is one; it returns
    no comment exactly when no comment of the issue is one. *)
Theorem latestNotificationComment_last_of_munger {pkg : Package} (bot : string)
    (w : World) :
  let matcher := MungerNotificationName milestoneNotifierName bot in
  match obj_Comments (obj w) with
  | None => (latestNotificationComment bot w).1 = (None, false)
  | Some comments =>
      exists comment, (latestNotificationComment bot w).1 = (comment, true)
        /\ match comment with
           | Some cm =>
               exists before after, comments = (before ++ cm :: after)%list
                 /\ matcher cm = true
                 /\ Forall (fun c => matcher c = false) after
           | None => Forall (fun c => matcher c = false) comments
           end
  end.
Proof.
  intros matcher. rewrite latestNotificationComment_result.
  destruct (obj_Comments (obj w)) as [comments|]; [|done].
  eexists. split; [reflexivity|].
  pose proof (last_filter (fun c => matcher c = true) comments) as Hlast.
  fold matcher. destruct (last _) as [cm|].
  - destruct Hlast as (before & after & -> & Hcm & Hafter).
    exists before, after. repeat split; [done|].
    eapply Forall_impl; [exact Hafter|]. intros c. apply not_true_is_false.
  - eapply Forall_impl; [exact Hlast|]. intros c. apply not_true_is_false.
Qed.

(** X24.  The munger deletes no comment but its own.  Whatever the
    issue and whichever calls fail, a comment that a cycle of [Munge]
    deletes is a comment of the issue that is a notification of this
    munger.  The comments are listed after the label calls, which are
    taken not to touch them, as [AddLabel] and [RemoveLabel] are
    modelled above. *)
Theorem Munge_deletes_only_its_own_comment {pkg : Package} (m : MilestoneMaintainer)
    (w : World) (id : nat) (ok : bool) :
  (Call_DeleteComment id, ok) ∈ entries (Munge m) w ->
  exists comments cm,
    obj_Comments (obj w) = Some comments /\ cm ∈ comments /\ cm_ID cm = id
    /\ MungerNotificationName milestoneNotifierName (botName m) cm = true.
Proof.
  intros Hin.
  assert (Hnone : forall es : list (Call * bool),
            Forall (fun e => resolutionRead e.1 = true \/ labelSync e.1 = true
                             \/ e.1 = Call_ListComments) es ->
            (Call_DeleteComment id, ok) ∉ es).
  { intros es Hes Hdel. rewrite Forall_forall in Hes.
    by destruct (Hes _ Hdel) as [?|[?|?]]. }
  pose proof (ignoreObject_world (activeMilestone m) w) as Hw0.
  destruct (ignoreObject (activeMilestone m) w) as [ignore w0] eqn:Hignore.
  cbn [snd] in Hw0. subst w0.
  destruct (issueChange_emits m w) as (es1 & Htr1 & Hobj1 & _ & Hread & _).
  destruct (issueChange m w) as [change w1] eqn:Hchange. cbn [fst snd] in *.
  assert (Hes1 : Forall (fun e => resolutionRead e.1 = true \/ labelSync e.1 = true
                                  \/ e.1 = Call_ListComments) es1)
    by (eapply Forall_impl; [exact Hread|]; auto).
  destruct ignore.
  { exfalso. apply (Hnone [] ltac:(constructor)).
    rewrite (entries_intro _ _ []) in Hin; [done|].
    unfold Munge, bind. rewrite Hignore. cbn. by rewrite app_nil_r. }
  destruct change as [change|].
  2: { exfalso. apply (Hnone es1 Hes1).
       rewrite (entries_intro _ _ es1) in Hin; [done|].
       unfold Munge, bind. rewrite Hignore. cbv beta iota. rewrite Hchange. done. }
  destruct (updateMilestoneStateLabel_emits (change_label change) w1)
    as (es2 & Htr2 & Hsync & _).
  pose proof (updateMilestoneStateLabel_comments (change_label change) w1) as Hcomments2.
  destruct (updateMilestoneStateLabel (change_label change) w1) as [ok2 w2] eqn:Hlabel.
  cbn [fst snd] in *.
  assert (Hes2 : Forall (fun e => resolutionRead e.1 = true \/ labelSync e.1 = true
                                  \/ e.1 = Call_ListComments) (es1 ++ es2)).
  { apply Forall_app. split; [done|]. eapply Forall_impl; [exact Hsync|]. auto. }
  destruct ok2.
  2: { exfalso. apply (Hnone _ Hes2).
       rewrite (entries_intro _ _ (es1 ++ es2)) in Hin; [done|].
       unfold Munge, bind. rewrite Hignore. cbv beta iota. rewrite Hchange. cbv beta iota.
       rewrite Hlabel. cbn. by rewrite Htr2, Htr1, <- app_assoc. }
  destruct (latestNotificationComment_emits (botName m) w2) as (es3 & Htr3 & ok3 & -> & _).
  pose proof (latestNotificationComment_result (botName m) w2) as Hresult.
  destruct (latestNotificationComment (botName m) w2) as [[comment ok3'] w3] eqn:Hlisted.
  cbn [fst snd] in *.
  destruct ok3'.
  2: { exfalso. apply (Hnone (es1 ++ es2 ++ [(Call_ListComments, ok3)])%list).
       - rewrite app_assoc. apply Forall_app. split; [done|].
         constructor; [cbn; auto | constructor].
       - rewrite (entries_intro _ _ (es1 ++ es2 ++ [(Call_ListComments, ok3)])) in Hin;
           [done|].
         unfold Munge, bind. rewrite Hignore. cbv beta iota. rewrite Hchange. cbv beta iota.
         rewrite Hlabel. cbn [negb]. cbv beta iota. rewrite Hlisted. cbn.
         by rewrite Htr3, Htr2, Htr1, <- !app_assoc. }
  destruct (Munge_after_comments m change comment w w1 w2 w3 Hignore Hchange Hlabel Hlisted)
    as (before & Hentries & Hbefore).
  rewrite Hentries in Hin. apply elem_of_app in Hin as [Hin|Hin];
    [by apply Hnone in Hin|].
  rewrite Hcomments2, Hobj1 in Hresult.
  destruct (obj_Comments (obj w)) as [comments|]; [|done].
  injection Hresult as Hcomment.
  pose proof (last_filter
                (fun c => MungerNotificationName milestoneNotifierName (botName m) c = true)
                comments) as Hlast.
  rewrite <- Hcomment in Hlast.
  assert (Hcm : exists cm, comment = Some cm /\ cm_ID cm = id).
  { unfold commentAndMilestoneCalls in Hin.
    destruct (notificationIsCurrent _ _ _ w3).1, comment as [cm|],
      (removeFromMilestone change);
      repeat match type of Hin with
        | context [fails w ?c] => destruct (fails w c)
        end;
      try (exfalso; set_solver);
      exists cm; (split; [done|]); set_solver. }
  destruct Hcm as (cm & -> & Hid).
  destruct Hlast as (before' & after & -> & Hmatch & _).
  exists (before' ++ cm :: after)%list, cm.
  split; [done|]. split; [set_solver|]. done.
Qed.

(** ** Clearing the milestone *)

(** A call that failed is the last call. *)
Lemma okButLast_failed_last (es : list (Call * bool)) (c : Call) :
  okButLast es -> (c, false) ∈ es -> last es = Some (c, false).
Proof.
  induction es as [|e rest IH]; intros Hlast Hin; [by apply elem_of_nil in Hin|].
  destruct rest as [|e' rest].
  - apply list_elem_of_singleton in Hin. by subst.
  - destruct Hlast as [He Hrest]. apply elem_of_cons in Hin as [<-|Hin]; [done|].
    rewrite last_cons. by rewrite (IH Hrest Hin).
Qed.

Lemma okButLast_snoc (es : list (Call * bool)) (e : Call * bool) :
  okButLast (es ++ [e]) -> allOk es.
Proof.
  induction es as [|e0 rest IH]; intros Hlast; [constructor|].
  cbn [app okButLast] in Hlast. destruct (rest ++ [e])%list as [|e1 l] eqn:Hrest.
  - by destruct rest.
  - destruct Hlast as [He0 Hl]. constructor; [done|]. by apply IH.
Qed.

(** How far a cycle gets: it stops before the comment is looked at, with
    calls of the state resolution and of the label only and at most a
    failed listing of the comments, or it resolves a change, synchronises
    the state label and lists the comments, all with success. *)
Lemma Munge_stages {pkg : Package} (m : MilestoneMaintainer) (w : World) :
  Forall (fun e => resolutionRead e.1 = true \/ labelSync e.1 = true
                   \/ e.1 = Call_ListComments) (entries (Munge m) w)
  \/ exists (change : IssueChange) (w1 w2 : World) (comment : option Comment) (w3 : World),
       ignoreObject (activeMilestone m) w = (false, w)
       /\ issueChange m w = (Some change, w1)
       /\ updateMilestoneStateLabel (change_label change) w1 = (true, w2)
       /\ latestNotificationComment (botName m) w2 = ((comment, true), w3).
Proof.
  pose proof (ignoreObject_world (activeMilestone m) w) as Hw0.
  destruct (ignoreObject (activeMilestone m) w) as [ignore w0] eqn:Hignore.
  cbn [snd] in Hw0. subst w0.
  destruct (issueChange_emits m w) as (es1 & Htr1 & _ & _ & Hread & _).
  destruct (issueChange m w) as [change w1] eqn:Hchange. cbn [fst snd] in *.
  assert (Hes1 : Forall (fun e => resolutionRead e.1 = true \/ labelSync e.1 = true
                                  \/ e.1 = Call_ListComments) es1)
    by (eapply Forall_impl; [exact Hread|]; auto).
  destruct ignore.
  { left. rewrite (entries_intro _ _ []); [constructor|].
    unfold Munge, bind. rewrite Hignore. cbn. by rewrite app_nil_r. }
  destruct change as [change|].
  2: { left. rewrite (entries_intro _ _ es1); [done|].
       unfold Munge, bind. rewrite Hignore. cbv beta iota. rewrite Hchange. done. }
  destruct (updateMilestoneStateLabel_emits (change_label change) w1)
    as (es2 & Htr2 & Hsync & _).
  destruct (updateMilestoneStateLabel (change_label change) w1) as [ok2 w2] eqn:Hlabel.
  cbn [fst snd] in *.
  assert (Hes2 : Forall (fun e => resolutionRead e.1 = true \/ labelSync e.1 = true
                                  \/ e.1 = Call_ListComments) (es1 ++ es2)).
  { apply Forall_app. split; [done|]. eapply Forall_impl; [exact Hsync|]. auto. }
  destruct ok2.
  2: { left. rewrite (entries_intro _ _ (es1 ++ es2)); [done|].
       unfold Munge, bind. rewrite Hignore. cbv beta iota. rewrite Hchange. cbv beta iota.
       rewrite Hlabel. cbn. by rewrite Htr2, Htr1, <- app_assoc. }
  destruct (latestNotificationComment_emits (botName m) w2) as (es3 & Htr3 & ok3 & -> & _).
  destruct (latestNotificationComment (botName m) w2) as [[comment ok3'] w3] eqn:Hlisted.
  cbn [fst snd] in *.
  destruct ok3'; [right; by exists change, w1, w2, comment, w3|].
  left. rewrite (entries_intro _ _ (es1 ++ es2 ++ [(Call_ListComments, ok3)])).
  - rewrite app_assoc. apply Forall_app. split; [done|].
    constructor; [cbn; auto | constructor].
  - unfold Munge, bind. rewrite Hignore. cbv beta iota. rewrite Hchange. cbv beta iota.
    rewrite Hlabel. cbn [negb]. cbv beta iota. rewrite Hlisted. cbn.
    by rewrite Htr3, Htr2, Htr1, <- !app_assoc.
Qed.

(** The calls of a cycle that got as far as listing the comments, stage
    by stage. *)
Lemma Munge_entries_by_stage {pkg : Package} (m : MilestoneMaintainer)
    (change : IssueChange) (comment : option Comment) (w0 w1 w2 w3 : World) :
  ignoreObject (activeMilestone m) w0 = (false, w0) ->
  issueChange m w0 = (Some change, w1) ->
  updateMilestoneStateLabel (change_label change) w1 = (true, w2) ->
  latestNotificationComment (botName m) w2 = ((comment, true), w3) ->
  entries (Munge m) w0 =
    (entries (issueChange m) w0
     ++ entries (updateMilestoneStateLabel (change_label change)) w1
     ++ (Call_ListComments, true)
        :: commentAndMilestoneCalls (fails w0) change comment
             (notificationIsCurrent (notification change) comment
                (commentInterval change) w3).1)%list
  /\ allOk (entries (issueChange m) w0)
  /\ allOk (entries (updateMilestoneStateLabel (change_label change)) w1).
Proof.
  intros Hignore Hchange Hlabel Hcomment.
  destruct (issueChange_emits m w0) as (es1 & Htr1 & _ & Hf1 & _ & _ & Hok1).
  destruct (updateMilestoneStateLabel_emits (change_label change) w1)
    as (es2 & Htr2 & _ & _ & Hok2).
  destruct (latestNotificationComment_emits (botName m) w2)
    as (es3 & Htr3 & ok & -> & Hok3).
  pose proof (updateMilestoneStateLabel_fails (change_label change) w1) as Hf2.
  pose proof (latestNotificationComment_fails (botName m) w2) as Hf3.
  pose proof (notificationIsCurrent_trace (notification change) comment
                (commentInterval change) w3) as Htr4.
  pose proof (notificationIsCurrent_fails (notification change) comment
                (commentInterval change) w3) as Hf4.
  rewrite (entries_intro _ _ _ Htr1), (entries_intro _ _ _ Htr2).
  rewrite Hchange in Htr1, Hf1, Hok1. rewrite Hlabel in Htr2, Hf2, Hok2.
  rewrite Hcomment in Htr3, Hf3, Hok3. cbn [fst snd] in *. subst ok.
  destruct (notificationIsCurrent (notification change) comment
              (commentInterval change) w3) as [current w4] eqn:Hrun.
  cbn [fst snd] in *.
  assert (Hfails : fails w4 = fails w0) by congruence.
  assert (Htrace : trace w4 = (trace w0 ++ es1 ++ es2 ++ [(Call_ListComments, true)])%list).
  { rewrite Htr4, Htr3, Htr2, Htr1. by rewrite <- !app_assoc. }
  split; [|split; [by apply Hok1 | by apply Hok2]].
  apply entries_intro.
  replace (trace w0 ++ es1 ++ es2 ++ (Call_ListComments, true)
             :: commentAndMilestoneCalls (fails w0) change comment current)%list
    with (trace w4 ++ commentAndMilestoneCalls (fails w0) change comment current)%list
    by (rewrite Htrace; by rewrite <- !app_assoc).
  unfold Munge, bind. rewrite Hignore. cbv beta iota. rewrite Hchange. cbv beta iota.
  rewrite Hlabel. cbn [negb]. cbv beta iota. rewrite Hcomment. cbn [negb].
  cbv beta iota. rewrite Hrun. cbv beta iota.
  unfold commentAndMilestoneCalls, clearIfRemoved, DeleteComment, Post, ClearMilestone,
    bind, mutate, ret. rewrite <- Hfails.
  destruct current, comment as [cm|], (removeFromMilestone change);
    cbn [negb];
    repeat match goal with
      | |- context [fails ?w ?c] =>
          let b := eval cbn [fails log set_trace set_obj] in (fails w c) in
          change (fails w c) with b;
          destruct b eqn:?; cbn [negb fst snd]
      end;
    cbn [trace log set_trace set_obj fst snd]; by rewrite <- ?app_assoc, ?app_nil_r.
Qed.

(** C8.  The milestone is cleared last, after the label and the
    notification were updated with success.

    In every cycle the calls come in this order: the reads of the state
    resolution, the calls that synchronise the state label, the calls
    that update the comment, and at most one call that clears the
    milestone; a call that fails is the last call of the cycle.

    When a cycle clears the milestone, it resolved a change that removes
    the issue from the milestone, whose label is [milestone/removed];
    [updateMilestoneStateLabel] returned [true] for that label, the
    comments were listed, and the notification was found current or else
    the old comment, if there was one, was deleted and the new one
    posted, both with success.  The calls of the cycle are then exactly
    those of the state resolution, those of the synchronisation of the
    label, the listing of the comments, the update of the comment, and
    the clearing of the milestone as the last call; every call before it
    succeeded.

    When [updateMilestoneStateLabel] returns [false], the cycle ends in
    the world in which it stopped: its calls are those of the state
    resolution and of the label, no comment is listed, deleted or posted
    and the milestone is not cleared. *)
Theorem milestone_cleared_last {pkg : Package} (m : MilestoneMaintainer) (w : World) :
  (cycleShape (entries (Munge m) w) /\ okButLast (entries (Munge m) w))
  /\ (forall c : Call,
        (c, false) ∈ entries (Munge m) w -> last (entries (Munge m) w) = Some (c, false))
  /\ (forall ok : bool,
        (Call_ClearMilestone, ok) ∈ entries (Munge m) w ->
        exists (change : IssueChange) (w1 w2 : World) (comment : option Comment)
               (w3 : World),
          issueChange m w = (Some change, w1)
          /\ removeFromMilestone change = true
          /\ change_label change = milestoneRemovedLabel
          /\ updateMilestoneStateLabel (change_label change) w1 = (true, w2)
          /\ latestNotificationComment (botName m) w2 = ((comment, true), w3)
          /\ allOk (entries (issueChange m) w)
          /\ allOk (entries (updateMilestoneStateLabel (change_label change)) w1)
          /\ let current :=
               (notificationIsCurrent (notification change) comment
                  (commentInterval change) w3).1 in
             let commentOps :=
               if current then []
               else (match comment with
                     | Some cm => [(Call_DeleteComment (cm_ID cm), true)]
                     | None => []
                     end ++ [(Call_Post (notification change), true)])%list in
             entries (Munge m) w =
               (entries (issueChange m) w
                ++ entries (updateMilestoneStateLabel (change_label change)) w1
                ++ (Call_ListComments, true) :: commentOps
                ++ [(Call_ClearMilestone, ok)])%list)
  /\ (forall (change : IssueChange) (w1 w2 : World),
        ignoreObject (activeMilestone m) w = (false, w) ->
        issueChange m w = (Some change, w1) ->
        updateMilestoneStateLabel (change_label change) w1 = (false, w2) ->
        Munge m w = (tt, w2)
        /\ entries (Munge m) w =
             (entries (issueChange m) w
              ++ entries (updateMilestoneStateLabel (change_label change)) w1)%list
        /\ Forall (fun e => commentUpdate e.1 = false /\ e.1 ≠ Call_ClearMilestone)
                  (entries (Munge m) w)).
Proof.
  pose proof (Munge_cycle_order m w) as [Hshape Hlast].
  split; [done|]. split; [intros c; by apply okButLast_failed_last|]. split.
  - intros ok Hin.
    destruct (Munge_stages m w)
      as [Hstopped | (change & w1 & w2 & comment & w3 & Hignore & Hchange & Hlabel & Hlisted)].
    { exfalso. rewrite Forall_forall in Hstopped.
      by destruct (Hstopped _ Hin) as [?|[?|?]]. }
    destruct (Munge_entries_by_stage m change comment w w1 w2 w3
                Hignore Hchange Hlabel Hlisted) as (Hentries & Hok1 & Hok2).
    destruct (issueChange_emits m w) as (es1 & Htr1 & _ & _ & Hread & _).
    destruct (updateMilestoneStateLabel_emits (change_label change) w1)
      as (es2 & Htr2 & Hsync & _).
    pose proof (entries_intro _ _ _ Htr1) as He1.
    pose proof (entries_intro _ _ _ Htr2) as He2.
    rewrite He1 in Hentries, Hok1. rewrite He2 in Hentries, Hok2.
    rewrite Hentries in Hin.
    assert (Htail : (Call_ClearMilestone, ok)
                      ∈ commentAndMilestoneCalls (fails w) change comment
                          (notificationIsCurrent (notification change) comment
                             (commentInterval change) w3).1).
    { apply elem_of_app in Hin as [Hin|Hin].
      { rewrite Forall_forall in Hread. by specialize (Hread _ Hin). }
      apply elem_of_app in Hin as [Hin|Hin].
      { rewrite Forall_forall in Hsync. by specialize (Hsync _ Hin). }
      by apply elem_of_cons in Hin as [?|Hin]. }
    exists change, w1, w2, comment, w3. rewrite He1, He2, Hentries.
    assert (Hremove : removeFromMilestone change = true).
    { unfold commentAndMilestoneCalls in Htail.
      destruct (removeFromMilestone change); [done|]. exfalso.
      destruct (notificationIsCurrent _ _ _ w3).1, comment as [cm|];
        repeat match type of Htail with
          | context [fails w ?c] => destruct (fails w c)
          end; set_solver. }
    split; [done|]. split; [done|]. split.
    { destruct (issueChange_config m w) as [_ Hconfig].
      destruct (issueChangeConfig m w).1 as [icc|]; [|by rewrite Hchange in Hconfig].
      destruct Hconfig as (change' & Heq & Hlbl & Hrem & _).
      rewrite Hchange in Heq. injection Heq as <-.
      rewrite Hrem in Hremove. apply bool_decide_eq_true in Hremove.
      by rewrite Hlbl, Hremove. }
    split; [done|]. split; [done|]. split; [done|]. split; [done|]. cbv zeta.
    do 3 f_equal. clear Hin Hentries.
    unfold commentAndMilestoneCalls in Htail |- *. rewrite Hremove in Htail |- *.
    destruct (notificationIsCurrent _ _ _ w3).1, comment as [cm|];
      repeat match type of Htail with
        | context [fails w (Call_DeleteComment ?c)] =>
            destruct (fails w (Call_DeleteComment c))
        | context [fails w (Call_Post ?n)] => destruct (fails w (Call_Post n))
        end;
      try (exfalso; set_solver);
      cbn [app]; repeat f_equal;
      repeat (apply elem_of_cons in Htail as [Htail|Htail]; [congruence|]);
      by apply elem_of_nil in Htail.
  - intros change w1 w2 Hignore Hchange Hlabel.
    destruct (issueChange_emits m w) as (es1 & Htr1 & _ & _ & Hread & _).
    destruct (updateMilestoneStateLabel_emits (change_label change) w1)
      as (es2 & Htr2 & Hsync & _).
    rewrite (entries_intro _ _ _ Htr1), (entries_intro _ _ _ Htr2).
    rewrite Hchange in Htr1. rewrite Hlabel in Htr2. cbn [fst snd] in *.
    assert (Hrun : Munge m w = (tt, w2)).
    { unfold Munge, bind. rewrite Hignore. cbv beta iota. rewrite Hchange. cbv beta iota.
      by rewrite Hlabel. }
    split; [done|].
    assert (Hentries : entries (Munge m) w = (es1 ++ es2)%list).
    { apply entries_intro. rewrite Hrun. cbn [snd]. by rewrite Htr2, Htr1, <- app_assoc. }
    split; [done|]. rewrite Hentries. apply Forall_app. split.
    + eapply Forall_impl; [exact Hread|]. intros [c ok]. cbn. by destruct c.
    + eapply Forall_impl; [exact Hsync|]. intros [c ok]. cbn. by destruct c.
Qed.

(** * Runs on the example issue *)

Lemma checkLabels_classification_witness :
  checkLabels ["kind/bug"; "priority/important-soon"; "sig/api"]
    = ("kind/bug", "priority/important-soon", ["sig/api"], []).
Proof.
  exact (proj1 (checkLabels_classification
                  ["kind/bug"; "priority/important-soon"; "sig/api"])
           "kind/bug" "priority/important-soon" eq_refl eq_refl
           ltac:(vm_compute; discriminate)).
Defined.

Lemma gracePeriodRemaining_elapsed_witness :
  (gracePeriodStart "k8s-bot" milestoneLabelsIncompleteLabel 0 exampleFlagged).1
    = Some (990 * Hour)
  /\ fitsDuration (elapsedSince (990 * Hour) exampleFlagged - 72 * Hour)
  /\ (gracePeriodRemaining "k8s-bot" milestoneLabelsIncompleteLabel (72 * Hour) 0 false
        exampleFlagged).1 = (Some (62 * Hour), true).
Proof.
  assert (Hstart : (gracePeriodStart "k8s-bot" milestoneLabelsIncompleteLabel 0
                      exampleFlagged).1 = Some (990 * Hour))
    by (vm_compute; reflexivity).
  assert (Hfits : fitsDuration (elapsedSince (990 * Hour) exampleFlagged - 72 * Hour))
    by (apply fitsDuration_validated; vm_compute;
        (split; [first [reflexivity | discriminate] | discriminate])).
  split; [exact Hstart|]. split; [exact Hfits|].
  exact (proj1 (proj2 (gracePeriodRemaining_elapsed "k8s-bot"
                         milestoneLabelsIncompleteLabel (72 * Hour) 0))
           exampleFlagged (990 * Hour) Hstart Hfits).
Defined.

Lemma resolution_order_witness :
  (checkLabels (obj_Labels (obj exampleIncomplete))).2 ≠ []
  /\ Forall (fun e => ~ approvalCheck e.1 /\ ~ progressCheck e.1)
       (entries (issueChangeConfig (pkg := examplePackage) (exampleMaintainer "dev"))
          exampleIncomplete)
  /\ (checkLabels (obj_Labels (obj exampleUnapproved))).2 = []
  /\ (statusApprovedLabel ∉ obj_Labels (obj exampleUnapproved))
  /\ Forall (fun e => ~ progressCheck e.1)
       (entries (issueChangeConfig (pkg := examplePackage) (exampleMaintainer "dev"))
          exampleUnapproved).
Proof.
  assert (H1 : (checkLabels (obj_Labels (obj exampleIncomplete))).2 ≠ [])
    by (vm_compute; discriminate).
  assert (H2 : (checkLabels (obj_Labels (obj exampleUnapproved))).2 = [])
    by (vm_compute; reflexivity).
  assert (H3 : statusApprovedLabel ∉ obj_Labels (obj exampleUnapproved))
    by (apply (bool_decide_unpack _); vm_compute; exact I).
  split; [exact H1|]. split.
  - exact (proj1 (proj1 (resolution_order (pkg := examplePackage)
                           (exampleMaintainer "dev") exampleIncomplete) H1)).
  - split; [exact H2|]. split; [exact H3|].
    exact (proj1 (proj2 (resolution_order (pkg := examplePackage)
                           (exampleMaintainer "dev") exampleUnapproved) H2 H3)).
Defined.

Lemma notification_current_witness :
  (notificationIsCurrent (pkg := examplePackage)
     (exampleNew milestoneNotifierName "Milestone Issue **Current**"
        (splitLine
           (default EmptyString (cm_Body (exampleCurrentComment (999 * Hour))))).2)
     (Some (exampleCurrentComment (999 * Hour))) None exampleNotified).1 = true
  /\ Forall (fun e => commentMutation e.1 = false)
       (entries (Munge (pkg := examplePackage) (exampleMaintainer "dev")) exampleNotified).
Proof.
  split.
  - apply (proj1 (notification_current (pkg := examplePackage))).
    split; [|left; reflexivity].
    eexists. split; [vm_compute; reflexivity|]. repeat split; vm_compute; reflexivity.
  - eapply (proj2 (notification_current (pkg := examplePackage))
              (exampleMaintainer "dev"));
      [ vm_compute; reflexivity
      | vm_compute; reflexivity
      | vm_compute; reflexivity
      | vm_compute; reflexivity
      | vm_compute; reflexivity ].
Defined.


Lemma freeze_removes_non_blocker_witness :
  (checkLabels (obj_Labels (obj exampleApproved))).2 = []
  /\ (statusApprovedLabel ∈ obj_Labels (obj exampleApproved))
  /\ (blockerLabel ∉ obj_Labels (obj exampleApproved))
  /\ exists icc,
       (issueChangeConfig (pkg := examplePackage) (exampleMaintainer "freeze")
          exampleApproved).1 = Some icc
       /\ state icc = milestoneNeedsRemoval
       /\ ("removeNonBlocker" ∈ enabledSections icc)
       /\ entries (issueChangeConfig (pkg := examplePackage) (exampleMaintainer "freeze"))
            exampleApproved =
            [(Call_HasLabel blockerLabel, true); (Call_HasLabel statusApprovedLabel, true)].
Proof.
  assert (H1 : (checkLabels (obj_Labels (obj exampleApproved))).2 = [])
    by (vm_compute; reflexivity).
  assert (H2 : statusApprovedLabel ∈ obj_Labels (obj exampleApproved))
    by (apply (bool_decide_unpack _); vm_compute; exact I).
  assert (H3 : blockerLabel ∉ obj_Labels (obj exampleApproved))
    by (apply (bool_decide_unpack _); vm_compute; exact I).
  split; [exact H1|]. split; [exact H2|]. split; [exact H3|].
  exact (freeze_removes_non_blocker (pkg := examplePackage) (exampleMaintainer "freeze")
           exampleApproved H1 H2 H3 eq_refl).
Defined.

Lemma indeterminate_start_no_action_witness :
  (blockerLabel ∉ obj_Labels (obj exampleNoHistory))
  /\ (checkLabels (obj_Labels (obj exampleNoHistory))).2 ≠ []
  /\ (gracePeriodStart "k8s-bot" milestoneLabelsIncompleteLabel 0 exampleNoHistory).1 = None
  /\ (issueChange (pkg := examplePackage) (exampleMaintainer "dev") exampleNoHistory).1 = None
  /\ Forall (fun e => mutation e.1 = false)
       (entries (Munge (pkg := examplePackage) (exampleMaintainer "dev")) exampleNoHistory)
  /\ obj (Munge (pkg := examplePackage) (exampleMaintainer "dev") exampleNoHistory).2
     = obj exampleNoHistory.
Proof.
  assert (H1 : blockerLabel ∉ obj_Labels (obj exampleNoHistory))
    by (apply (bool_decide_unpack _); vm_compute; exact I).
  assert (H2 : (checkLabels (obj_Labels (obj exampleNoHistory))).2 ≠ [])
    by (vm_compute; discriminate).
  assert (H3 : (gracePeriodStart "k8s-bot" milestoneLabelsIncompleteLabel 0
                  exampleNoHistory).1 = None)
    by (vm_compute; reflexivity).
  split; [exact H1|]. split; [exact H2|]. split; [exact H3|].
  exact (proj2 (indeterminate_start_no_action (pkg := examplePackage)
                  (exampleMaintainer "dev") exampleNoHistory
                  milestoneLabelsIncompleteLabel 0 H1
                  (or_introl (conj H2 eq_refl)) H3)).
Defined.

Lemma summary_panel_by_state_witness :
  exists icc,
    (issueChangeConfig (pkg := examplePackage) (exampleMaintainer "dev")
       exampleUnapproved).1 = Some icc
    /\ state icc = milestoneNeedsApproval
    /\ exists rest, summaryPanel (messageBodyArguments icc) =
         "<details>" ++ nl ++ "<summary>Issue Labels</summary>" ++ rest.
Proof.
  destruct (issueChangeConfig (pkg := examplePackage) (exampleMaintainer "dev")
              exampleUnapproved).1 as [icc|] eqn:Hr; [|vm_compute in Hr; discriminate].
  exists icc. split; [reflexivity|].
  assert (Hstate : state icc = milestoneNeedsApproval).
  { vm_compute in Hr. injection Hr as <-. reflexivity. }
  split; [exact Hstate|].
  pose proof (proj2 (summary_panel_by_state (pkg := examplePackage)
                       (exampleMaintainer "dev") exampleUnapproved icc Hr)) as Hpanel.
  rewrite Hstate in Hpanel. exact Hpanel.
Defined.

Lemma default_start_only_without_label_witness :
  (milestoneLabelsIncompleteLabel ∈ obj_Labels (obj exampleNoEvent))
  /\ (gracePeriodStart "k8s-bot" milestoneLabelsIncompleteLabel 0 exampleNoEvent).1 = None
  /\ (gracePeriodRemaining "k8s-bot" milestoneLabelsIncompleteLabel (72 * Hour) 0 false
        exampleNoEvent).1 = (None, false)
  /\ (milestoneLabelsIncompleteLabel ∉ obj_Labels (obj exampleIncomplete))
  /\ (gracePeriodStart "k8s-bot" milestoneLabelsIncompleteLabel 0 exampleIncomplete).1
     = Some 0.
Proof.
  assert (H1 : milestoneLabelsIncompleteLabel ∈ obj_Labels (obj exampleNoEvent))
    by (apply (bool_decide_unpack _); vm_compute; exact I).
  assert (H2 : milestoneLabelsIncompleteLabel ∉ obj_Labels (obj exampleIncomplete))
    by (apply (bool_decide_unpack _); vm_compute; exact I).
  split; [exact H1|].
  destruct (proj1 (proj2 (proj2 (default_start_only_without_label (pkg := examplePackage)
                                   "k8s-bot" milestoneLabelsIncompleteLabel exampleNoEvent))
                     H1 [labeledAt milestoneNeedsApprovalLabel (990 * Hour)]
                     eq_refl ltac:(vm_compute; reflexivity))
              0 (72 * Hour)) as [Hstart Hremaining].
  split; [exact Hstart|]. split; [exact Hremaining|]. split; [exact H2|].
  exact (proj1 (default_start_only_without_label (pkg := examplePackage)
                  "k8s-bot" milestoneLabelsIncompleteLabel exampleIncomplete) H2 0).
Defined.

(** C9, as the claim has it, fails: with incomplete labels the state is
    [milestoneNeedsLabeling] and the body has no "Issue Labels" panel, and
    for an approved item that is no blocker during freeze the state is
    [milestoneNeedsRemoval] and the body has no panel either. *)
Lemma summary_panel_always_counterexample :
  option_map (fun icc => (state icc, messageBody icc, hasSummaryPanel <$> messageBody icc))
    (issueChangeConfig (pkg := examplePackage) (exampleMaintainer "dev")
       exampleIncomplete).1
  = Some (milestoneNeedsLabeling,
          Some (nl ++ "**Action required**: This issue requires label changes. If the required changes are not made within 3 days, the issue will be moved out of the v1.9 milestone." ++ nl ++
                nl ++
                "_**priority**_: Must specify exactly one of `priority/critical-urgent`, `priority/important-longterm` or `priority/important-soon`." ++ nl ++
                "_**sig owner**_: Must specify at least one label prefixed with `sig/`." ++ nl),
          Some false)
  /\ option_map (fun icc => (state icc, messageBody icc, hasSummaryPanel <$> messageBody icc))
       (issueChangeConfig (pkg := examplePackage) (exampleMaintainer "freeze")
          exampleApproved).1
     = Some (milestoneNeedsRemoval,
             Some (nl ++ "**Important**: Code freeze is in effect and only issues with `priority/critical-urgent` may remain in the v1.9 milestone." ++ nl),
             Some false).
Proof. split; vm_compute; reflexivity. Qed.

(** * Further runs *)

Lemma exampleMaintainer_valid (mode : string) :
  mode = milestoneModeDev \/ mode = milestoneModeSlush \/ mode = milestoneModeFreeze ->
  validOptions (exampleMaintainer mode).
Proof. intros Hmode. by repeat split. Defined.

Lemma Initialize_accepts_valid_options_witness :
  map_to_list (validators (exampleMaintainer "slush"))
    ≡ₚ map_to_list (validators (exampleMaintainer "slush"))
  /\ Initialize (map_to_list (validators (exampleMaintainer "slush"))) "k8s-ci-robot"
       (exampleMaintainer "slush")
     = (None, set_botName "k8s-ci-robot" (exampleMaintainer "slush")).
Proof.
  split; [reflexivity|].
  destruct (Initialize_accepts_valid_options (exampleMaintainer "slush")
              (map_to_list (validators (exampleMaintainer "slush"))) "k8s-ci-robot"
              ltac:(reflexivity)) as (Hnone & Hmunger & _).
  apply injective_projections.
  - apply Hnone, exampleMaintainer_valid. right. left. reflexivity.
  - apply Hmunger, exampleMaintainer_valid. right. left. reflexivity.
Defined.

Lemma Initialize_error_of_failing_option_witness :
  (exists name validator,
      validators exampleInvalid !! name = Some validator
      /\ validator name = Some "milestone-mode must be one of [dev freeze slush]"
      /\ String.prefix name "milestone-mode must be one of [dev freeze slush]" = true)
  /\ (exists vs, vs ≡ₚ map_to_list (validators exampleInvalid)
        /\ (Initialize vs "k8s-ci-robot" exampleInvalid).1
           = Some "active-milestone must be supplied").
Proof.
  split.
  - exact (proj1 (Initialize_error_of_failing_option exampleInvalid "k8s-ci-robot")
             (map_to_list (validators exampleInvalid))
             "milestone-mode must be one of [dev freeze slush]"
             ltac:(reflexivity) ltac:(vm_compute; reflexivity)).
  - refine (proj2 (Initialize_error_of_failing_option exampleInvalid "k8s-ci-robot")
              milestoneOptActiveMilestone "active-milestone must be supplied" _ _ _);
      [vm_compute; reflexivity | vm_compute; reflexivity].
Defined.

Lemma updateCallback_validates_changed_only_witness :
  updateCallback (map_to_list (validators exampleSlushNoDate)) {[milestoneOptMode]} = None
  /\ forall (name : string) (validator : milestoneArgValidator),
       name ∈ ({[milestoneOptMode]} : gset string) ->
       validators exampleSlushNoDate !! name = Some validator -> validator name = None.
Proof.
  assert (Hnone : updateCallback (map_to_list (validators exampleSlushNoDate))
                    {[milestoneOptMode]} = None) by (vm_compute; reflexivity).
  split; [exact Hnone|].
  exact (proj1 (updateCallback_validates_changed_only exampleSlushNoDate
                  (map_to_list (validators exampleSlushNoDate)) {[milestoneOptMode]}
                  ltac:(reflexivity)) Hnone).
Defined.

Lemma updateCallback_mode_change_skips_freeze_date_witness :
  updateCallback (map_to_list (validators exampleSlushNoDate)) {[milestoneOptMode]} = None
  /\ exists err,
       (Initialize (map_to_list (validators exampleSlushNoDate)) "k8s-ci-robot"
          exampleSlushNoDate).1 = Some err.
Proof.
  exact (updateCallback_mode_change_skips_freeze_date exampleSlushNoDate
           (map_to_list (validators exampleSlushNoDate)) "k8s-ci-robot"
           ltac:(reflexivity) eq_refl eq_refl).
Defined.

Lemma checkLabels_order_irrelevant_witness :
  ["sig/api"; "kind/bug"; "priority/important-soon"]
    ≡ₚ ["kind/bug"; "sig/api"; "priority/important-soon"]
  /\ (checkLabels ["sig/api"; "kind/bug"; "priority/important-soon"]).2
     = (checkLabels ["kind/bug"; "sig/api"; "priority/important-soon"]).2.
Proof.
  assert (Hp : ["sig/api"; "kind/bug"; "priority/important-soon"]
                 ≡ₚ ["kind/bug"; "sig/api"; "priority/important-soon"])
    by apply perm_swap.
  split; [exact Hp|].
  exact (proj2 (proj2 (proj2 (checkLabels_order_irrelevant _ _ Hp)))).
Defined.

Lemma checkLabels_ignores_other_labels_witness :
  classifies milestoneRemovedLabel = false
  /\ checkLabels (["kind/bug"] ++ milestoneRemovedLabel :: ["sig/api"])
     = checkLabels (["kind/bug"] ++ ["sig/api"]).
Proof.
  split; [reflexivity|].
  exact (proj1 checkLabels_ignores_other_labels ["kind/bug"] ["sig/api"]
           milestoneRemovedLabel eq_refl).
Defined.

Lemma issueChange_parts_agree_witness :
  exists change,
    (issueChange (pkg := examplePackage) (exampleMaintainer "freeze") exampleApproved).1
      = Some change
    /\ change_label change ∈ EmptyString :: milestoneStateLabels
    /\ (removeFromMilestone change = true <-> change_label change = milestoneRemovedLabel)
    /\ (commentInterval change = None <->
          change_label change = EmptyString \/ change_label change = milestoneRemovedLabel)
    /\ (commentInterval change = None
        \/ commentInterval change = Some (warningInterval (exampleMaintainer "freeze"))).
Proof.
  eexists. split; [vm_compute; reflexivity|].
  apply (issueChange_parts_agree (pkg := examplePackage) (exampleMaintainer "freeze")
           exampleApproved).
  vm_compute. reflexivity.
Defined.

Lemma issueChange_mentions_witness :
  exists change icc body,
    (issueChange (pkg := examplePackage) (exampleMaintainer "dev") exampleUnapproved).1
      = Some change
    /\ (issueChangeConfig (pkg := examplePackage) (exampleMaintainer "dev")
          exampleUnapproved).1 = Some icc
    /\ messageBody icc = Some body
    /\ notification change =
         exampleNew milestoneNotifierName "Milestone Issue **Needs Approval**"
           ("@alice @kubernetes/sig-api-bugs" ++ nl ++ nl ++ body ++ nl ++ milestoneDetail).
Proof.
  eexists.
  assert (Hchange : (issueChange (pkg := examplePackage) (exampleMaintainer "dev")
                       exampleUnapproved).1 = Some _) by (vm_compute; reflexivity).
  destruct (issueChange_mentions (pkg := examplePackage) (exampleMaintainer "dev")
              exampleUnapproved _ Hchange) as (icc & body & Hicc & Hbody & Hnotification).
  exists icc, body. split; [exact Hchange|]. split; [exact Hicc|]. split; [exact Hbody|].
  rewrite Hnotification.
  vm_compute in Hicc. injection Hicc as <-. reflexivity.
Defined.

Lemma removal_only_after_grace_period_witness :
  (blockerLabel ∉ obj_Labels (obj exampleFlagged))
  /\ (checkLabels (obj_Labels (obj exampleFlagged))).2 ≠ []
  /\ exists icc,
       (issueChangeConfig (pkg := examplePackage) (exampleMaintainer "dev")
          exampleFlagged).1 = Some icc
       /\ state icc = milestoneNeedsLabeling
       /\ templateArguments icc !! "incompleteLabelsRemovalWarning" =
            Some (TString " If the required changes are not made within 2 days, the issue will be moved out of the v1.9 milestone.").
Proof.
  assert (H1 : blockerLabel ∉ obj_Labels (obj exampleFlagged))
    by (apply (bool_decide_unpack _); vm_compute; exact I).
  assert (H2 : (checkLabels (obj_Labels (obj exampleFlagged))).2 ≠ [])
    by (vm_compute; discriminate).
  split; [exact H1|]. split; [exact H2|].
  destruct (proj1 (removal_only_after_grace_period (pkg := examplePackage)
                     (exampleMaintainer "dev") exampleFlagged (990 * Hour) H1)
              H2 ltac:(vm_compute; reflexivity)
              ltac:(vm_compute; split; [reflexivity | discriminate]))
    as (icc & Hicc & Hwarn & _).
  exists icc. split; [exact Hicc|].
  exact (Hwarn ltac:(vm_compute; discriminate)).
Defined.

Lemma first_detection_warns_witness :
  (blockerLabel ∉ obj_Labels (obj exampleIncomplete))
  /\ (milestoneLabelsIncompleteLabel ∉ obj_Labels (obj exampleIncomplete))
  /\ exists icc,
       (issueChangeConfig (pkg := examplePackage) (exampleMaintainer "dev")
          exampleIncomplete).1 = Some icc
       /\ state icc = milestoneNeedsLabeling
       /\ "warnIncompleteLabels" ∈ enabledSections icc.
Proof.
  assert (H1 : blockerLabel ∉ obj_Labels (obj exampleIncomplete))
    by (apply (bool_decide_unpack _); vm_compute; exact I).
  assert (H2 : milestoneLabelsIncompleteLabel ∉ obj_Labels (obj exampleIncomplete))
    by (apply (bool_decide_unpack _); vm_compute; exact I).
  split; [exact H1|]. split; [exact H2|].
  exact (proj1 (first_detection_warns (pkg := examplePackage) (exampleMaintainer "dev")
                  exampleIncomplete H1 ltac:(vm_compute; discriminate))
           ltac:(vm_compute; discriminate) H2
           ltac:(vm_compute; split; discriminate)).
Defined.

Lemma dev_mode_requires_no_status_witness :
  (checkLabels (obj_Labels (obj exampleBlocker))).2 = []
  /\ (statusApprovedLabel ∈ obj_Labels (obj exampleBlocker))
  /\ exists icc,
       (issueChangeConfig (pkg := examplePackage) (exampleMaintainer "dev")
          exampleBlocker).1 = Some icc
       /\ state icc = milestoneCurrent
       /\ enabledSections icc = {["summarizeLabels"]}
       /\ entries (issueChangeConfig (pkg := examplePackage) (exampleMaintainer "dev"))
            exampleBlocker =
            [(Call_HasLabel blockerLabel, true); (Call_HasLabel statusApprovedLabel, true)].
Proof.
  assert (H1 : (checkLabels (obj_Labels (obj exampleBlocker))).2 = [])
    by (vm_compute; reflexivity).
  assert (H2 : statusApprovedLabel ∈ obj_Labels (obj exampleBlocker))
    by (apply (bool_decide_unpack _); vm_compute; exact I).
  split; [exact H1|]. split; [exact H2|].
  exact (dev_mode_requires_no_status (pkg := examplePackage) (exampleMaintainer "dev")
           exampleBlocker H1 H2 eq_refl).
Defined.

Lemma slush_non_blocker_progress_witness :
  (checkLabels (obj_Labels (obj exampleApproved))).2 = []
  /\ (statusApprovedLabel ∈ obj_Labels (obj exampleApproved))
  /\ (blockerLabel ∉ obj_Labels (obj exampleApproved))
  /\ exists icc,
       (issueChangeConfig (pkg := examplePackage) (exampleMaintainer "slush")
          exampleApproved).1 = Some icc
       /\ state icc = milestoneCurrent
       /\ "warnNonBlockerRemoval" ∈ enabledSections icc.
Proof.
  assert (H1 : (checkLabels (obj_Labels (obj exampleApproved))).2 = [])
    by (vm_compute; reflexivity).
  assert (H2 : statusApprovedLabel ∈ obj_Labels (obj exampleApproved))
    by (apply (bool_decide_unpack _); vm_compute; exact I).
  assert (H3 : blockerLabel ∉ obj_Labels (obj exampleApproved))
    by (apply (bool_decide_unpack _); vm_compute; exact I).
  split; [exact H1|]. split; [exact H2|]. split; [exact H3|].
  destruct (slush_non_blocker_progress (pkg := examplePackage) (exampleMaintainer "slush")
              exampleApproved H1 H2 H3 ltac:(discriminate) ltac:(discriminate))
    as (icc & Hicc & Hstate & _ & Hsection & _).
  exists icc. split; [exact Hicc|]. split; [exact Hstate | exact Hsection].
Defined.

Lemma blocker_update_check_witness :
  validOptions (exampleMaintainer "freeze")
  /\ (blockerLabel ∈ obj_Labels (obj exampleBlocker))
  /\ entries (issueChangeConfig (pkg := examplePackage) (exampleMaintainer "freeze"))
       exampleBlocker =
       [ (Call_HasLabel blockerLabel, true); (Call_HasLabel statusApprovedLabel, true);
         (Call_HasLabel statusInProgressLabel, true);
         (Call_findLastModificationTime, true) ]
  /\ exists icc,
       (issueChangeConfig (pkg := examplePackage) (exampleMaintainer "freeze")
          exampleBlocker).1 = Some icc
       /\ state icc = milestoneNeedsAttention.
Proof.
  assert (H0 : validOptions (exampleMaintainer "freeze"))
    by (apply exampleMaintainer_valid; right; right; reflexivity).
  assert (H1 : blockerLabel ∈ obj_Labels (obj exampleBlocker))
    by (apply (bool_decide_unpack _); vm_compute; exact I).
  split; [exact H0|]. split; [exact H1|].
  destruct (blocker_update_check (pkg := examplePackage) (exampleMaintainer "freeze")
              exampleBlocker H0 ltac:(vm_compute; reflexivity)
              ltac:(apply (bool_decide_unpack _); vm_compute; exact I) H1
              ltac:(discriminate))
    as [Hentries (icc & Hicc & Hstate & _)].
  split; [exact Hentries|]. exists icc. split; [exact Hicc | exact Hstate].
Defined.

Lemma Munge_ignores_other_objects_witness :
  (ignoreObject (activeMilestone (exampleMaintainer "dev")) exampleClosed).1 = true
  /\ Munge (pkg := examplePackage) (exampleMaintainer "dev") exampleClosed
     = (tt, exampleClosed).
Proof.
  assert (H : (ignoreObject (activeMilestone (exampleMaintainer "dev")) exampleClosed).1
              = true)
    by (apply (proj1 (Munge_ignores_other_objects (pkg := examplePackage)
                        (exampleMaintainer "dev") exampleClosed));
        right; left; reflexivity).
  split; [exact H|].
  exact (proj2 (Munge_ignores_other_objects (pkg := examplePackage)
                  (exampleMaintainer "dev") exampleClosed) H).
Defined.

Lemma stale_notification_replaced_witness :
  exists change,
    (issueChange (pkg := examplePackage) (exampleMaintainer "dev") exampleApproved).1
      = Some change
    /\ filter (fun e => commentMutation e.1 = true)
         (entries (Munge (pkg := examplePackage) (exampleMaintainer "dev")) exampleApproved)
       = [(Call_Post (notification change), true)].
Proof.
  eexists. split; [vm_compute; reflexivity|].
  eapply (stale_notification_replaced (pkg := examplePackage) (exampleMaintainer "dev")
            _ None exampleApproved);
    [ vm_compute; reflexivity
    | vm_compute; reflexivity
    | vm_compute; reflexivity
    | vm_compute; reflexivity
    | vm_compute; reflexivity ].
Defined.

Lemma milestone_cleared_iff_witness :
  exists ok,
    (Call_ClearMilestone, ok)
      ∈ entries (Munge (pkg := examplePackage) (exampleMaintainer "freeze")) exampleApproved.
Proof.
  eapply (proj2 (milestone_cleared_iff (pkg := examplePackage) (exampleMaintainer "freeze")
                   _ None exampleApproved _ _ _
                   ltac:(vm_compute; reflexivity) ltac:(vm_compute; reflexivity)
                   ltac:(vm_compute; reflexivity) ltac:(vm_compute; reflexivity))).
  split; [vm_compute; reflexivity|]. right. split; reflexivity.
Defined.

Lemma updateMilestoneStateLabel_in_sync_witness :
  stateLabelInSync milestoneLabelsIncompleteLabel (obj_Labels (obj exampleFlagged))
  /\ (updateMilestoneStateLabel milestoneLabelsIncompleteLabel exampleFlagged).1 = true
  /\ obj (updateMilestoneStateLabel milestoneLabelsIncompleteLabel exampleFlagged).2
     = obj exampleFlagged.
Proof.
  assert (H : stateLabelInSync milestoneLabelsIncompleteLabel
                (obj_Labels (obj exampleFlagged)))
    by (unfold stateLabelInSync; apply (bool_decide_unpack _); vm_compute; exact I).
  split; [exact H|].
  destruct (updateMilestoneStateLabel_in_sync milestoneLabelsIncompleteLabel
              exampleFlagged H) as (Hok & Hobj & _).
  split; [exact Hok | exact Hobj].
Defined.

Lemma updateMilestoneStateLabel_only_state_label_witness :
  (forall c, fails exampleFlagged c = false)
  /\ milestoneRemovedLabel
       ∈ obj_Labels (obj (updateMilestoneStateLabel milestoneRemovedLabel exampleFlagged).2)
  /\ milestoneLabelsIncompleteLabel
       ∉ obj_Labels (obj (updateMilestoneStateLabel milestoneRemovedLabel exampleFlagged).2).
Proof.
  assert (H : forall c, fails exampleFlagged c = false) by (intros c; reflexivity).
  split; [exact H|].
  destruct (updateMilestoneStateLabel_only_state_label milestoneRemovedLabel
              exampleFlagged H) as (_ & Hadded & Hremoved & _).
  split.
  - apply Hadded. discriminate.
  - apply Hremoved; [apply (bool_decide_unpack _); vm_compute; exact I | discriminate].
Defined.

Lemma updateMilestoneStateLabel_idempotent_witness :
  (forall c, fails exampleFlagged c = false)
  /\ Forall (fun e => mutation e.1 = false)
       (entries (updateMilestoneStateLabel milestoneRemovedLabel)
          (updateMilestoneStateLabel milestoneRemovedLabel exampleFlagged).2).
Proof.
  assert (H : forall c, fails exampleFlagged c = false) by (intros c; reflexivity).
  split; [exact H|].
  exact (proj2 (proj2 (updateMilestoneStateLabel_idempotent milestoneRemovedLabel
                         exampleFlagged H))).
Defined.

Lemma sections_rendered_witness :
  exists icc,
    (issueChangeConfig (pkg := examplePackage) (exampleMaintainer "freeze")
       exampleApproved).1 = Some icc
    /\ "summarizeLabels" ∈ enabledSections icc
    /\ tplIf (messageBodyArguments icc) "summarizeLabels" = false
    /\ tplIf (messageBodyArguments icc) "removeNonBlocker" = true.
Proof.
  eexists.
  assert (Hicc : (issueChangeConfig (pkg := examplePackage) (exampleMaintainer "freeze")
                    exampleApproved).1 = Some _) by (vm_compute; reflexivity).
  split; [exact Hicc|].
  split; [apply (bool_decide_unpack _); vm_compute; exact I|].
  split.
  - rewrite (sections_rendered (pkg := examplePackage) (exampleMaintainer "freeze")
               exampleApproved _ "summarizeLabels" Hicc
               ltac:(apply (bool_decide_unpack _); vm_compute; exact I)).
    vm_compute. reflexivity.
  - rewrite (sections_rendered (pkg := examplePackage) (exampleMaintainer "freeze")
               exampleApproved _ "removeNonBlocker" Hicc
               ltac:(apply (bool_decide_unpack _); vm_compute; exact I)).
    vm_compute. reflexivity.
Defined.

Lemma removal_cycle_clears_milestone_witness :
  (ignoreObject (activeMilestone (exampleMaintainer "freeze")) exampleApproved).1 = false
  /\ (forall c, fails exampleApproved c = false)
  /\ last (entries (Munge (pkg := examplePackage) (exampleMaintainer "freeze"))
             exampleApproved)
     = Some (Call_ClearMilestone, true).
Proof.
  assert (H1 : (ignoreObject (activeMilestone (exampleMaintainer "freeze"))
                  exampleApproved).1 = false) by (vm_compute; reflexivity).
  assert (H2 : forall c, fails exampleApproved c = false) by (intros c; reflexivity).
  split; [exact H1|]. split; [exact H2|].
  eapply (proj2 (removal_cycle_clears_milestone (pkg := examplePackage)
                   (exampleMaintainer "freeze") exampleApproved _ [] H1
                   ltac:(vm_compute; reflexivity) H2 eq_refl)).
  vm_compute. reflexivity.
Defined.

Lemma Munge_deletes_only_its_own_comment_witness :
  (Call_DeleteComment 1, true)
    ∈ entries (Munge (pkg := examplePackage) (exampleMaintainer "freeze")) exampleNotified
  /\ exists comments cm,
       obj_Comments (obj exampleNotified) = Some comments /\ cm ∈ comments
       /\ cm_ID cm = 1%nat
       /\ MungerNotificationName (Package := examplePackage) milestoneNotifierName
            (botName (exampleMaintainer "freeze")) cm = true.
Proof.
  assert (H : (Call_DeleteComment 1, true)
                ∈ entries (Munge (pkg := examplePackage) (exampleMaintainer "freeze"))
                    exampleNotified)
    by (apply (bool_decide_unpack _); vm_compute; exact I).
  split; [exact H|].
  exact (Munge_deletes_only_its_own_comment (pkg := examplePackage)
           (exampleMaintainer "freeze") exampleNotified 1 true H).
Defined.

Lemma milestone_cleared_last_witness :
  ((Call_ClearMilestone, true)
     ∈ entries (Munge (pkg := examplePackage) (exampleMaintainer "freeze")) exampleApproved
   /\ exists change w1 w2 w3,
        issueChange (pkg := examplePackage) (exampleMaintainer "freeze") exampleApproved
          = (Some change, w1)
        /\ change_label change = milestoneRemovedLabel
        /\ updateMilestoneStateLabel (change_label change) w1 = (true, w2)
        /\ latestNotificationComment (pkg := examplePackage)
             (botName (exampleMaintainer "freeze")) w2 = ((None, true), w3)
        /\ entries (Munge (pkg := examplePackage) (exampleMaintainer "freeze"))
             exampleApproved =
             (entries (issueChange (pkg := examplePackage) (exampleMaintainer "freeze"))
                exampleApproved
              ++ entries (updateMilestoneStateLabel (change_label change)) w1
              ++ [ (Call_ListComments, true); (Call_Post (notification change), true);
                   (Call_ClearMilestone, true) ])%list)
  /\ ((Call_AddLabel milestoneRemovedLabel, false)
        ∈ entries (Munge (pkg := examplePackage) (exampleMaintainer "freeze"))
            exampleLabelFails
      /\ last (entries (Munge (pkg := examplePackage) (exampleMaintainer "freeze"))
                 exampleLabelFails)
         = Some (Call_AddLabel milestoneRemovedLabel, false)
      /\ Forall (fun e => commentUpdate e.1 = false /\ e.1 ≠ Call_ClearMilestone)
           (entries (Munge (pkg := examplePackage) (exampleMaintainer "freeze"))
              exampleLabelFails)).
Proof.
  split.
  - assert (H : (Call_ClearMilestone, true)
                  ∈ entries (Munge (pkg := examplePackage) (exampleMaintainer "freeze"))
                      exampleApproved)
      by (apply (bool_decide_unpack _); vm_compute; exact I).
    split; [exact H|].
    destruct (proj1 (proj2 (proj2 (milestone_cleared_last (pkg := examplePackage)
                                     (exampleMaintainer "freeze") exampleApproved)))
                true H)
      as (change & w1 & w2 & comment & w3 & Hchange & _ & Hlbl & Hlabel & Hlisted
          & _ & _ & Hentries).
    assert (Hcomment : comment = None).
    { assert (Hobj : obj_Comments (obj w2) = Some []).
      { pose proof (updateMilestoneStateLabel_comments (change_label change) w1) as Hc.
        rewrite Hlabel in Hc. cbn [snd] in Hc. rewrite Hc.
        pose proof (issueChange_emits (pkg := examplePackage)
                      (exampleMaintainer "freeze") exampleApproved)
          as (es & _ & Hobj & _).
        rewrite Hchange in Hobj. cbn [snd] in Hobj. rewrite Hobj. reflexivity. }
      pose proof (latestNotificationComment_result (pkg := examplePackage)
                    (botName (exampleMaintainer "freeze")) w2) as Hres.
      rewrite Hlisted, Hobj in Hres. cbn in Hres. congruence. }
    subst comment.
    exists change, w1, w2, w3. split; [exact Hchange|]. split; [exact Hlbl|].
    split; [exact Hlabel|]. split; [exact Hlisted|].
    rewrite Hentries. cbv zeta.
    assert (Hcurrent : (notificationIsCurrent (pkg := examplePackage) (notification change)
                          None (commentInterval change) w3).1 = false).
    { unfold notificationIsCurrent. reflexivity. }
    rewrite Hcurrent. reflexivity.
  - assert (H : (Call_AddLabel milestoneRemovedLabel, false)
                  ∈ entries (Munge (pkg := examplePackage) (exampleMaintainer "freeze"))
                      exampleLabelFails)
      by (apply (bool_decide_unpack _); vm_compute; exact I).
    split; [exact H|]. split.
    + exact (proj1 (proj2 (milestone_cleared_last (pkg := examplePackage)
                              (exampleMaintainer "freeze") exampleLabelFails))
               (Call_AddLabel milestoneRemovedLabel) H).
    + eapply (proj2 (proj2 (proj2 (milestone_cleared_last (pkg := examplePackage)
                                      (exampleMaintainer "freeze") exampleLabelFails))));
        [ vm_compute; reflexivity | vm_compute; reflexivity | vm_compute; reflexivity ].
Defined.
